(** * Shielded-balance relayer: storage layer, ledger service and routes

    A shallow embedding of [create-tables.sql], [db-service.ts] and
    [relayer.ts].

    Conventions of the model.
    - The database is an explicit state [Db]: one list of rows per table,
      in insertion order, plus the three SERIAL sequences.
    - An [async] function is a state transformer returning either a value
      or a thrown error; a throw keeps every write made before it (the
      service opens no SQL transaction, so nothing is rolled back).
    - A value of a [DECIMAL(36, 18)] column is an integer counting units of
      10^-18, below 10^36 in absolute value. An amount is a JSON number; it
      is given by the decimal text the database receives for it, in the same
      units (numbers whose shortest decimal form has more than 18
      fractional digits, strings and NaN are left out). The arithmetic
      [updatePrivateBalance] does in JavaScript is IEEE binary64: module
      [Numbers] has [Number.parseFloat] of a column's text, [+], [-], [<]
      and the way back into the column (shortest decimal form, rounded to
      18 fractional digits, refused when out of range).
    - The sums the database computes itself ([total_shielded + $1]) are
      exact decimal sums, refused when they do not fit the column.
    - [decimals] ranges over the values of an INTEGER column and the amount
      logged by [recordTransaction] over those of its [DECIMAL(36, 18)]
      column; a statement that needs the range carries it as a hypothesis.
    - Strings are ASCII (mints are base58 addresses or ["SOL"]), so that
      [slice(0, 4)] counts the characters [substring 0 4] counts.
    - The columns [created_at] and [updated_at] are assigned by the
      database clock and read by no decision of the code; they are left out.
    - [Date.now()] and the Solana collaborators are inputs of the model. *)

From Stdlib Require Import ZArith List String Bool Lia Sorted DecimalString.
From Stdlib Require Import Permutation.
From Stdlib Require DecimalPos DecimalZ SpecFloat.
Import ListNotations.

Open Scope string_scope.
Open Scope Z_scope.

(** ** Errors and the asynchronous-call monad *)

(** The UNIQUE constraints declared in [create-tables.sql]. *)
Inductive constraint : Type :=
| token_pools_token_mint_key
| private_balances_owner_token_mint_key
| transactions_signature_key.

Inductive error : Type :=
| InsufficientBalance                (* Error("Insufficient private balance") *)
| UnknownBalance                     (* Error("Cannot deduct from non-existent balance") *)
| UniqueViolation (c : constraint)   (* duplicate key value violates unique constraint *)
| NegativeLimit                      (* LIMIT must not be negative *)
| BigintOutOfRange                   (* value is out of range for type bigint *)
| NumericOverflow                    (* numeric field overflow *)
| UndefinedRow                       (* TypeError: result[0] is undefined *)
| CollaboratorFailure.               (* a Solana library or RPC call threw *)

(** The name the specification gives to a rejected duplicate signature. *)
Definition DuplicateSignature : error := UniqueViolation transactions_signature_key.

Definition constraint_name (c : constraint) : string :=
  match c with
  | token_pools_token_mint_key => "token_pools_token_mint_key"
  | private_balances_owner_token_mint_key => "private_balances_owner_token_mint_key"
  | transactions_signature_key => "transactions_signature_key"
  end.

(** The double-quote character, which the database puts around names. *)
Definition quote : string :=
  String (Ascii.Ascii false true false false false true false false) EmptyString.

(** [error.message] *)
Definition message (e : error) : string :=
  match e with
  | InsufficientBalance => "Insufficient private balance"
  | UnknownBalance => "Cannot deduct from non-existent balance"
  | UniqueViolation c =>
      "duplicate key value violates unique constraint "
      ++ quote ++ constraint_name c ++ quote
  | NegativeLimit => "LIMIT must not be negative"
  | BigintOutOfRange => "value is out of range for type bigint"
  | NumericOverflow => "numeric field overflow"
  | UndefinedRow => "Cannot read properties of undefined (reading 'id')"
  | CollaboratorFailure => "collaborator failure"
  end.

Inductive outcome (A : Type) : Type :=
| Ok (a : A)
| Err (e : error).
Arguments Ok {A} a.
Arguments Err {A} e.

(** ** Rows and tables *)

Inductive TxType : Type := shield | send | unshield.

Record TokenPool : Type := mkTokenPool {
  tp_id : Z;
  tp_tokenMint : string;
  tp_decimals : Z;
  tp_poolAddress : string;
  tp_totalShielded : Z;
  tp_totalUnshielded : Z
}.

Record PrivateBalance : Type := mkPrivateBalance {
  pb_id : Z;
  pb_owner : string;
  pb_tokenMint : string;
  pb_balance : Z;
  pb_lastCommitmentIndex : Z
}.

Record Transaction : Type := mkTransaction {
  tx_id : Z;
  tx_owner : string;
  tx_type : TxType;
  tx_tokenMint : string;
  tx_tokenSymbol : string;
  tx_amount : Z;
  tx_timestamp : Z;
  tx_recipient : option string;
  tx_signature : string
}.

Record Db : Type := mkDb {
  token_pools : list TokenPool;
  private_balances : list PrivateBalance;
  transactions : list Transaction;
  token_pools_id_seq : Z;
  private_balances_id_seq : Z;
  transactions_id_seq : Z
}.

Definition empty_db : Db := mkDb [] [] [] 1 1 1.

Definition async (A : Type) : Type := Db -> outcome A * Db.

Definition ret {A} (a : A) : async A := fun s => (Ok a, s).
Definition throw {A} (e : error) : async A := fun s => (Err e, s).
Definition bind {A B} (m : async A) (k : A -> async B) : async B :=
  fun s =>
    match m s with
    | (Ok a, s') => k a s'
    | (Err e, s') => (Err e, s')
    end.

Notation "x <- m ;; k" := (bind m (fun x => k))
  (at level 61, m at next level, right associativity).
Notation "m ;;; k" := (bind m (fun _ => k))
  (at level 61, right associativity).

(** ** JavaScript numbers and the [DECIMAL(36, 18)] columns *)

Module Numbers.
Import SpecFloat.

(** A JavaScript number: an IEEE binary64 value. *)
Definition number : Type := spec_float.

Definition prec : Z := 53.
Definition emax : Z := 1024.

Definition zero : number := S754_zero false.

(** The double nearest to [p / q], ties to even. *)
Definition nearest (negative : bool) (p q : positive) : number :=
  SFdiv prec emax (S754_finite negative p 0) (S754_finite false q 0).

(** [Number.parseFloat(text)] for the text of a column value of [units]
    times 10^-18; also the number a JSON amount of that decimal text is. *)
Definition parseFloat (units : Z) : number :=
  match units with
  | Z0 => zero
  | Zpos p => nearest false p (10 ^ 18)%positive
  | Zneg p => nearest true p (10 ^ 18)%positive
  end.

Definition add (x y : number) : number := SFadd prec emax x y.
Definition sub (x y : number) : number := SFsub prec emax x y.

(** [x < 0] *)
Definition negative (x : number) : bool := SFltb x zero.

(** [p / q < 10^n] *)
Definition below_pow10 (p q n : Z) : bool :=
  if 0 <=? n then p <? q * 10 ^ n else p * 10 ^ (- n) <? q.

Fixpoint raise (fuel : nat) (p q n : Z) : Z :=
  match fuel with
  | O => n
  | S fuel => if below_pow10 p q n then n else raise fuel p q (n + 1)
  end.

Fixpoint lower (fuel : nat) (p q n : Z) : Z :=
  match fuel with
  | O => n
  | S fuel => if below_pow10 p q (n - 1) then lower fuel p q (n - 1) else n
  end.

(** The [n] with [10^(n-1) <= p / q < 10^n], found from a binary estimate
    that is off by two at most. *)
Definition decimal_exponent (p q : Z) : Z :=
  lower 8 p q (raise 8 p q ((Z.log2 p - Z.log2 q) * 30103 / 100000)).

(** The double nearest to [c * 10^t]. *)
Definition of_decimal (c t : Z) : number :=
  match c with
  | Zpos c' =>
      if 0 <=? t then nearest false (Z.to_pos (c * 10 ^ t)) 1
      else nearest false c' (Z.to_pos (10 ^ (- t)))
  | _ => zero
  end.

(** Of the two multiples of [10^t] around [p / q], the one that reads back
    as [x]; when both do, the closer one, and the even one at a tie. *)
Definition candidate (x : number) (p q t : Z) : option Z :=
  let c := if 0 <=? t then p / (q * 10 ^ t) else (p * 10 ^ (- t)) / q in
  let twice :=
    if 0 <=? t then Z.compare (2 * p) ((2 * c + 1) * 10 ^ t * q)
    else Z.compare (2 * p * 10 ^ (- t)) ((2 * c + 1) * q) in
  match SFeqb (of_decimal c t) x, SFeqb (of_decimal (c + 1) t) x with
  | true, true =>
      match twice with
      | Lt => Some c
      | Gt => Some (c + 1)
      | Eq => Some (if Z.even c then c else c + 1)
      end
  | true, false => Some c
  | false, true => Some (c + 1)
  | false, false => None
  end.

(** The digits [c] of [Number.prototype.toString]: the fewest that read
    back as [x], tried from [k] digits on. The result stands for
    [c * 10^t]. *)
Fixpoint shortest (fuel : nat) (x : number) (p q n k : Z) : Z * Z :=
  match fuel with
  | O => (if 0 <=? n - k then p / (q * 10 ^ (n - k)) else (p * 10 ^ (k - n)) / q, n - k)
  | S fuel =>
      match candidate x p q (n - k) with
      | Some c => (c, n - k)
      | None => shortest fuel x p q n (k + 1)
      end
  end.

Definition digits (m : positive) (e : Z) : Z * Z :=
  let p := if 0 <=? e then Zpos m * 2 ^ e else Zpos m in
  let q := if 0 <=? e then 1 else 2 ^ (- e) in
  shortest 17 (S754_finite false m e) p q (decimal_exponent p q) 1.

(** [c * 10^t] in units of 10^-18, rounded half away from zero. *)
Definition round_units (c t : Z) : Z :=
  let u := t + 18 in
  if 0 <=? u then c * 10 ^ u else (c + 5 * 10 ^ (- u - 1)) / 10 ^ (- u).

(** The bound of a [DECIMAL(36, 18)] column, in units. *)
Definition bound : Z := 10 ^ 36.

Definition in_range (units : Z) : bool := (- bound <? units) && (units <? bound).

(** A number sent as a statement parameter and assigned to a
    [DECIMAL(36, 18)] column: its text, rounded to 18 fractional digits;
    [None] is the numeric field overflow. *)
Definition to_units (x : number) : option Z :=
  match x with
  | S754_zero _ => Some 0
  | S754_finite negative m e =>
      let (c, t) := digits m e in
      let u := round_units c t in
      if u <? bound then Some (if negative then - u else u) else None
  | _ => None
  end.

End Numbers.

(** ** SQL statements over the tables of [create-tables.sql] *)

Module Store.

Definition pool_at (tokenMint : string) (r : TokenPool) : bool :=
  String.eqb (tp_tokenMint r) tokenMint.

Definition balance_at (owner tokenMint : string) (r : PrivateBalance) : bool :=
  String.eqb (pb_owner r) owner && String.eqb (pb_tokenMint r) tokenMint.

Definition signed (signature : string) (r : Transaction) : bool :=
  String.eqb (tx_signature r) signature.

(** [SELECT * FROM token_pools WHERE token_mint = $1] *)
Definition select_pools (tokenMint : string) : async (list TokenPool) :=
  fun s => (Ok (filter (pool_at tokenMint) (token_pools s)), s).

(** [INSERT INTO token_pools (token_mint, decimals, pool_address)
    VALUES ($1, $2, $3) RETURNING *]; the totals take their DEFAULT 0.
    The sequence value is consumed before the UNIQUE check. [decimals]
    stands for a value of the INTEGER column. *)
Definition insert_pool (tokenMint : string) (decimals : Z) (poolAddress : string)
  : async (list TokenPool) :=
  fun s =>
    let id := token_pools_id_seq s in
    if existsb (pool_at tokenMint) (token_pools s) then
      (Err (UniqueViolation token_pools_token_mint_key),
       mkDb (token_pools s) (private_balances s) (transactions s)
            (id + 1) (private_balances_id_seq s) (transactions_id_seq s))
    else
      let row := mkTokenPool id tokenMint decimals poolAddress 0 0 in
      (Ok [row],
       mkDb (token_pools s ++ [row]) (private_balances s) (transactions s)
            (id + 1) (private_balances_id_seq s) (transactions_id_seq s)).

Definition add_shielded (tokenMint : string) (amount : Z) (r : TokenPool) : TokenPool :=
  if pool_at tokenMint r then
    mkTokenPool (tp_id r) (tp_tokenMint r) (tp_decimals r) (tp_poolAddress r)
                (tp_totalShielded r + amount) (tp_totalUnshielded r)
  else r.

Definition add_unshielded (tokenMint : string) (amount : Z) (r : TokenPool) : TokenPool :=
  if pool_at tokenMint r then
    mkTokenPool (tp_id r) (tp_tokenMint r) (tp_decimals r) (tp_poolAddress r)
                (tp_totalShielded r) (tp_totalUnshielded r + amount)
  else r.

Definition with_pools (f : TokenPool -> TokenPool) (s : Db) : Db :=
  mkDb (map f (token_pools s)) (private_balances s) (transactions s)
       (token_pools_id_seq s) (private_balances_id_seq s) (transactions_id_seq s).

(** The new column values of every row an UPDATE matches fit the column. *)
Definition totals_fit (tokenMint : string) (total : TokenPool -> Z) (amount : Z)
    (rows : list TokenPool) : bool :=
  forallb (fun r => negb (pool_at tokenMint r) || Numbers.in_range (total r + amount)) rows.

(** [UPDATE token_pools SET total_shielded = total_shielded + $1
    WHERE token_mint = $2]: a statement matching no row is not an error; a
    sum that does not fit the column fails the statement, which then
    changes nothing. *)
Definition update_pool_shielded (tokenMint : string) (amount : Z) : async unit :=
  fun s =>
    if totals_fit tokenMint tp_totalShielded amount (token_pools s) then
      (Ok tt, with_pools (add_shielded tokenMint amount) s)
    else (Err NumericOverflow, s).

(** [UPDATE token_pools SET total_unshielded = total_unshielded + $1
    WHERE token_mint = $2] *)
Definition update_pool_unshielded (tokenMint : string) (amount : Z) : async unit :=
  fun s =>
    if totals_fit tokenMint tp_totalUnshielded amount (token_pools s) then
      (Ok tt, with_pools (add_unshielded tokenMint amount) s)
    else (Err NumericOverflow, s).

(** [SELECT * FROM private_balances WHERE owner = $1 AND token_mint = $2] *)
Definition select_balances (owner tokenMint : string) : async (list PrivateBalance) :=
  fun s => (Ok (filter (balance_at owner tokenMint) (private_balances s)), s).

(** [SELECT * FROM private_balances WHERE owner = $1] *)
Definition select_balances_of (owner : string) : async (list PrivateBalance) :=
  fun s => (Ok (filter (fun r => String.eqb (pb_owner r) owner) (private_balances s)), s).

Definition set_balance (owner tokenMint : string) (newBalance : Z) (r : PrivateBalance)
  : PrivateBalance :=
  if balance_at owner tokenMint r then
    mkPrivateBalance (pb_id r) (pb_owner r) (pb_tokenMint r) newBalance
                     (pb_lastCommitmentIndex r)
  else r.

(** [UPDATE private_balances SET balance = $1, updated_at = NOW()
    WHERE owner = $2 AND token_mint = $3 RETURNING *], the parameter being
    a JavaScript number. The assignment to the column is evaluated for the
    rows matched; when the number does not fit, the statement fails. *)
Definition update_balance (owner tokenMint : string) (newBalance : Numbers.number)
  : async (list PrivateBalance) :=
  fun s =>
    if existsb (balance_at owner tokenMint) (private_balances s) then
      match Numbers.to_units newBalance with
      | Some units =>
          let rows := map (set_balance owner tokenMint units) (private_balances s) in
          (Ok (filter (balance_at owner tokenMint) rows),
           mkDb (token_pools s) rows (transactions s)
                (token_pools_id_seq s) (private_balances_id_seq s)
                (transactions_id_seq s))
      | None => (Err NumericOverflow, s)
      end
    else (Ok [], s).

(** [INSERT INTO private_balances (owner, token_mint, balance,
    last_commitment_index) VALUES ($1, $2, $3, 0) RETURNING *] under
    [UNIQUE(owner, token_mint)]. The row is formed, and its balance fitted
    to the column, before the index is consulted. *)
Definition insert_balance (owner tokenMint : string) (balance : Z)
  : async (list PrivateBalance) :=
  fun s =>
    let id := private_balances_id_seq s in
    if negb (Numbers.in_range balance) then
      (Err NumericOverflow,
       mkDb (token_pools s) (private_balances s) (transactions s)
            (token_pools_id_seq s) (id + 1) (transactions_id_seq s))
    else if existsb (balance_at owner tokenMint) (private_balances s) then
      (Err (UniqueViolation private_balances_owner_token_mint_key),
       mkDb (token_pools s) (private_balances s) (transactions s)
            (token_pools_id_seq s) (id + 1) (transactions_id_seq s))
    else
      let row := mkPrivateBalance id owner tokenMint balance 0 in
      (Ok [row],
       mkDb (token_pools s) (private_balances s ++ [row]) (transactions s)
            (token_pools_id_seq s) (id + 1) (transactions_id_seq s)).

(** [INSERT INTO transactions (owner, type, token_mint, token_symbol,
    amount, timestamp, recipient, signature) VALUES (...) RETURNING *]
    under [signature TEXT NOT NULL UNIQUE]. [amount] stands for a value of
    the [DECIMAL(36, 18)] column. *)
Definition insert_transaction (owner : string) (type : TxType)
    (tokenMint tokenSymbol : string) (amount timestamp : Z)
    (recipient : option string) (signature : string)
  : async (list Transaction) :=
  fun s =>
    let id := transactions_id_seq s in
    if existsb (signed signature) (transactions s) then
      (Err (UniqueViolation transactions_signature_key),
       mkDb (token_pools s) (private_balances s) (transactions s)
            (token_pools_id_seq s) (private_balances_id_seq s) (id + 1))
    else
      let row := mkTransaction id owner type tokenMint tokenSymbol amount
                               timestamp recipient signature in
      (Ok [row],
       mkDb (token_pools s) (private_balances s) (transactions s ++ [row])
            (token_pools_id_seq s) (private_balances_id_seq s) (id + 1)).

(** [ORDER BY timestamp DESC]: rows of equal timestamp keep the order in
    which the table yields them. *)
Fixpoint insert_desc (t : Transaction) (l : list Transaction) : list Transaction :=
  match l with
  | [] => [t]
  | x :: r =>
      if tx_timestamp t <? tx_timestamp x then x :: insert_desc t r else t :: l
  end.

Definition order_by_timestamp_desc (l : list Transaction) : list Transaction :=
  fold_right insert_desc [] l.

(** [SELECT * FROM transactions WHERE <cond>
    ORDER BY timestamp DESC LIMIT $n]; the limit is a [bigint]. *)
Definition select_transactions (cond : Transaction -> bool) (limit : Z)
  : async (list Transaction) :=
  fun s =>
    if limit <? 0 then (Err NegativeLimit, s)
    else if 2 ^ 63 <=? limit then (Err BigintOutOfRange, s)
    else
      (Ok (firstn (Z.to_nat limit)
             (order_by_timestamp_desc (filter cond (transactions s)))), s).

(** [SELECT * FROM transactions WHERE signature = $1] *)
Definition select_by_signature (signature : string) : async (list Transaction) :=
  fun s => (Ok (filter (signed signature) (transactions s)), s).

End Store.

(** ** [db-service.ts] *)

Module DbService.

(** [try { body } catch (error) { handler }] *)
Definition try_catch {A} (body : async A) (handler : error -> async A) : async A :=
  fun s =>
    match body s with
    | (Ok a, s') => (Ok a, s')
    | (Err e, s') => handler e s'
    end.

(** [result[0]] followed by a read of one of its fields. *)
Definition first_row {A} (rows : list A) : async A :=
  match rows with
  | row :: _ => ret row
  | [] => throw UndefinedRow
  end.

(** A string is falsy exactly when it is missing or empty. *)
Definition truthy_string (v : option string) : bool :=
  match v with
  | Some s => negb (String.eqb s "")
  | None => false
  end.

Definition tokenPoolExists (tokenMint : string) : async bool :=
  try_catch
    (result <- Store.select_pools tokenMint ;;
     ret (0 <? Z.of_nat (List.length result)))
    (fun _ => ret false).

Definition getTokenPool (tokenMint : string) : async (option TokenPool) :=
  try_catch
    (result <- Store.select_pools tokenMint ;;
     match result with
     | [] => ret None
     | row :: _ => ret (Some row)
     end)
    (fun _ => ret None).

Definition createTokenPool (tokenMint : string) (decimals : Z) (poolAddress : string)
  : async TokenPool :=
  result <- Store.insert_pool tokenMint decimals poolAddress ;;
  first_row result.

Definition updateTokenPoolShielded (tokenMint : string) (amount : Z) : async unit :=
  Store.update_pool_shielded tokenMint amount.

Definition updateTokenPoolUnshielded (tokenMint : string) (amount : Z) : async unit :=
  Store.update_pool_unshielded tokenMint amount.

Definition getPrivateBalance (owner tokenMint : string) : async (option PrivateBalance) :=
  try_catch
    (result <- Store.select_balances owner tokenMint ;;
     match result with
     | [] => ret None
     | row :: _ => ret (Some row)
     end)
    (fun _ => ret None).

Definition getAllPrivateBalances (owner : string) : async (list PrivateBalance) :=
  try_catch (Store.select_balances_of owner) (fun _ => ret []).

(** The synchronous part of [updatePrivateBalance] between its two awaits:
    from the record read, either throw or choose the statement to send.
    [existingBalance.balance] is [Number.parseFloat] of the column's text,
    and the new balance is computed on JavaScript numbers. *)
Definition updatePrivateBalance_write
    (owner tokenMint : string) (amount : Z) (isAddition : bool)
    (existingBalance : option PrivateBalance) : async (list PrivateBalance) :=
  match existingBalance with
  | Some existing =>
      let currentBalance := Numbers.parseFloat (pb_balance existing) in
      let newBalance :=
        if isAddition then Numbers.add currentBalance (Numbers.parseFloat amount)
        else Numbers.sub currentBalance (Numbers.parseFloat amount) in
      if Numbers.negative newBalance then throw InsufficientBalance
      else Store.update_balance owner tokenMint newBalance
  | None =>
      if isAddition then Store.insert_balance owner tokenMint amount
      else throw UnknownBalance
  end.

Definition updatePrivateBalance
    (owner tokenMint : string) (amount : Z) (isAddition : bool)
  : async PrivateBalance :=
  existingBalance <- getPrivateBalance owner tokenMint ;;
  result <- updatePrivateBalance_write owner tokenMint amount isAddition existingBalance ;;
  first_row result.

(** [now] is the value [Date.now()] returns inside the call. *)
Definition recordTransaction (now : Z) (owner : string) (type : TxType)
    (tokenMint tokenSymbol : string) (amount : Z) (signature : string)
    (recipient : option string) : async Transaction :=
  let timestamp := now in
  result <- Store.insert_transaction owner type tokenMint tokenSymbol amount
              timestamp recipient signature ;;
  first_row result.

Definition default_limit : Z := 50.

(** [limit = 50]: the default applies when the argument is [undefined]. *)
Definition getTransactions (owner : string) (tokenMint : option string)
    (limit : option Z) : async (list Transaction) :=
  let limit := match limit with Some n => n | None => default_limit end in
  try_catch
    (match tokenMint with
     | Some mint =>
         if truthy_string tokenMint then
           Store.select_transactions
             (fun r => String.eqb (tx_owner r) owner && String.eqb (tx_tokenMint r) mint)
             limit
         else
           Store.select_transactions (fun r => String.eqb (tx_owner r) owner) limit
     | None =>
         Store.select_transactions (fun r => String.eqb (tx_owner r) owner) limit
     end)
    (fun _ => ret []).

Definition getTransactionBySignature (signature : string)
  : async (option Transaction) :=
  try_catch
    (result <- Store.select_by_signature signature ;;
     match result with
     | [] => ret None
     | row :: _ => ret (Some row)
     end)
    (fun _ => ret None).

End DbService.

(** ** [relayer.ts] *)

Module Relayer.
Import DbService.

(** What a handler obtains from outside the database during one request. *)
Record Collaborators : Type := mkCollaborators {
  (** [Date.now()] read when the handler builds a simulated signature *)
  now_signature : Z;
  (** [Date.now()] read inside [recordTransaction] *)
  now_record : Z;
  (** [connection.getTransaction(txSignature, ...)]: found, [null], or thrown *)
  chain_getTransaction : string -> outcome bool;
  (** [PublicKey.findProgramAddress([POOL_SEED, tokenMint], ELUSIV_PROGRAM_ID)] *)
  findProgramAddress : string -> outcome string;
  (** the [PublicKey] constructors, [getAssociatedTokenAddress] and
      [connection.getAccountInfo] of the SPL branch of [/unshield],
      applied to the mint, the pool address and the recipient *)
  resolve_token_accounts : string -> string -> string -> outcome unit
}.

(** [req.body], for the bodies whose fields, when present, have the JSON
    types the handlers compute with: strings, and numbers for [amount],
    [decimals] and [limit]. *)
Record Body : Type := mkBody {
  txSignature : option string;
  tokenMint : option string;
  amount : option Z;
  commitment : option string;
  owner : option string;
  recipient : option string;
  proof : option string;
  sender : option string;
  decimals : option Z;
  limit : option Z
}.

Inductive payload : Type :=
| error_json (error : string)
| exists_json (exists_ : bool)
| pool_json (pool : TokenPool)
| balances_json (balances : list PrivateBalance)
| success_json
| signature_json (signature : string)
| transactions_json (transactions : list Transaction).

Record response : Type := mkResponse {
  status : Z;
  json : payload
}.

Definition accepted (r : response) : bool := status r =? 200.

(** A number is falsy exactly when it is missing or zero. *)
Definition truthy_number (v : option Z) : bool :=
  match v with
  | Some n => negb (n =? 0)
  | None => false
  end.

(** The value of a field that passed a [!field] guard. *)
Definition present_string (v : option string) : option string :=
  if truthy_string v then v else None.

Definition present_number (v : option Z) : option Z :=
  if truthy_number v then v else None.

Definition await {A} (r : outcome A) : async A := fun s => (r, s).

(** [app.post(path, async (req, res) => { try { ... } catch (error) { ... } })] *)
Definition handler (body : async response) (on_error : error -> response)
  : Db -> response * Db :=
  fun s =>
    match body s with
    | (Ok r, s') => (r, s')
    | (Err e, s') => (on_error e, s')
    end.

Definition internal_error (e : error) : response :=
  mkResponse 500 (error_json "Internal server error").

(** [res.status(500).json({ error: error.message || "Internal server error" })] *)
Definition error_message (e : error) : response :=
  mkResponse 500
    (error_json (if String.eqb (message e) "" then "Internal server error" else message e)).

Definition bad_request (msg : string) : response := mkResponse 400 (error_json msg).

Definition getOrCreateTokenPool (c : Collaborators) (tokenMint : string) (decimals : Z)
  : async TokenPool :=
  existingPool <- getTokenPool tokenMint ;;
  match existingPool with
  | Some pool => ret pool
  | None =>
      poolAddress <- await (findProgramAddress c tokenMint) ;;
      createTokenPool tokenMint decimals poolAddress
  end.

(** [tokenMint === "SOL" ? "SOL" : tokenMint.slice(0, 4)] when the pool is
    known, ["UNKNOWN"] otherwise. *)
Definition resolve_symbol (tokenMint : string) : async string :=
  tokenPool <- getTokenPool tokenMint ;;
  match tokenPool with
  | Some _ => ret (if String.eqb tokenMint "SOL" then "SOL" else substring 0 4 tokenMint)
  | None => ret "UNKNOWN"
  end.

Definition decimal (n : Z) : string := NilZero.string_of_int (Z.to_int n).

Definition send_signature (now : Z) : string := "simulated-send-" ++ decimal now.
Definition unshield_signature (now : Z) : string := "simulated-unshield-" ++ decimal now.

Definition post_pool_exists (req : Body) : Db -> response * Db :=
  handler
    (match present_string (tokenMint req) with
     | Some tokenMint =>
         exists_ <- tokenPoolExists tokenMint ;;
         ret (mkResponse 200 (exists_json exists_))
     | None => ret (bad_request "Token mint is required")
     end)
    internal_error.

Definition post_pool_create (c : Collaborators) (req : Body) : Db -> response * Db :=
  handler
    (match present_string (tokenMint req), decimals req with
     | Some tokenMint, Some decimals =>
         pool <- getOrCreateTokenPool c tokenMint decimals ;;
         ret (mkResponse 200 (pool_json pool))
     | _, _ => ret (bad_request "Token mint and decimals are required")
     end)
    internal_error.

Definition post_balances (req : Body) : Db -> response * Db :=
  handler
    (match present_string (owner req) with
     | Some owner =>
         balances <- getAllPrivateBalances owner ;;
         ret (mkResponse 200 (balances_json balances))
     | None => ret (bad_request "Owner is required")
     end)
    internal_error.

Definition post_shield_notify (c : Collaborators) (req : Body) : Db -> response * Db :=
  handler
    (match present_string (txSignature req), present_string (tokenMint req),
           present_number (amount req), present_string (commitment req),
           present_string (owner req) with
     | Some txSignature, Some tokenMint, Some amount, Some _, Some owner =>
         tx <- await (chain_getTransaction c txSignature) ;;
         if negb tx then ret (bad_request "Transaction not found")
         else
           updatePrivateBalance owner tokenMint amount true ;;;
           updateTokenPoolShielded tokenMint amount ;;;
           tokenSymbol <- resolve_symbol tokenMint ;;
           recordTransaction (now_record c) owner shield tokenMint tokenSymbol amount
                             txSignature None ;;;
           ret (mkResponse 200 success_json)
     | _, _, _, _, _ => ret (bad_request "Missing required parameters")
     end)
    internal_error.

Definition post_send (c : Collaborators) (req : Body) : Db -> response * Db :=
  handler
    (match present_string (tokenMint req), present_number (amount req),
           present_string (recipient req), present_string (proof req),
           present_string (sender req) with
     | Some tokenMint, Some amount, Some recipient, Some _, Some sender =>
         updatePrivateBalance sender tokenMint amount false ;;;
         updatePrivateBalance recipient tokenMint amount true ;;;
         let signature := send_signature (now_signature c) in
         tokenSymbol <- resolve_symbol tokenMint ;;
         recordTransaction (now_record c) sender send tokenMint tokenSymbol amount
                           signature (Some recipient) ;;;
         ret (mkResponse 200 (signature_json signature))
     | _, _, _, _, _ => ret (bad_request "Missing required parameters")
     end)
    error_message.

Definition post_unshield (c : Collaborators) (req : Body) : Db -> response * Db :=
  handler
    (match present_string (tokenMint req), present_number (amount req),
           present_string (recipient req), present_string (proof req),
           present_string (sender req) with
     | Some tokenMint, Some amount, Some recipient, Some _, Some sender =>
         updatePrivateBalance sender tokenMint amount false ;;;
         updateTokenPoolUnshielded tokenMint amount ;;;
         pool <- getOrCreateTokenPool c tokenMint 0 ;;
         (if negb (String.eqb tokenMint "SOL") then
            await (resolve_token_accounts c tokenMint (tp_poolAddress pool) recipient)
          else ret tt) ;;;
         let signature := unshield_signature (now_signature c) in
         tokenSymbol <- resolve_symbol tokenMint ;;
         recordTransaction (now_record c) sender unshield tokenMint tokenSymbol amount
                           signature None ;;;
         ret (mkResponse 200 (signature_json signature))
     | _, _, _, _, _ => ret (bad_request "Missing required parameters")
     end)
    error_message.

Definition post_transactions (req : Body) : Db -> response * Db :=
  handler
    (match present_string (owner req) with
     | Some owner =>
         let limit := if truthy_number (limit req) then limit req else Some 50 in
         transactions <- getTransactions owner (tokenMint req) limit ;;
         ret (mkResponse 200 (transactions_json transactions))
     | None => ret (bad_request "Owner is required")
     end)
    internal_error.

End Relayer.

(** ** Concurrent calls of [updatePrivateBalance]

    A call suspends at each of its two awaits: the SELECT issued by
    [getPrivateBalance] and the UPDATE or INSERT that follows. Each
    statement is atomic in the database; between the two, other calls may
    run. A call is therefore a task of two steps, and a schedule names the
    task that takes the next step. The test on the new balance lies between
    the two awaits and reads only what the SELECT returned; it is taken at
    the start of the second step, which changes no outcome. *)

Module Interleaving.
Import DbService.

Inductive task : Type :=
| Called (owner tokenMint : string) (amount : Z) (isAddition : bool)
| Fetched (owner tokenMint : string) (amount : Z) (isAddition : bool)
          (existingBalance : option PrivateBalance)
| Settled (r : outcome PrivateBalance).

Definition step (t : task) (s : Db) : task * Db :=
  match t with
  | Called owner tokenMint amount isAddition =>
      match getPrivateBalance owner tokenMint s with
      | (Ok existingBalance, s') =>
          (Fetched owner tokenMint amount isAddition existingBalance, s')
      | (Err e, s') => (Settled (Err e), s')
      end
  | Fetched owner tokenMint amount isAddition existingBalance =>
      let (r, s') :=
        (result <- updatePrivateBalance_write owner tokenMint amount isAddition
                     existingBalance ;;
         first_row result) s in
      (Settled r, s')
  | Settled r => (Settled r, s)
  end.

Fixpoint step_at (i : nat) (tasks : list task) (s : Db) : list task * Db :=
  match tasks, i with
  | [], _ => ([], s)
  | t :: rest, O => let (t', s') := step t s in (t' :: rest, s')
  | t :: rest, S j => let (rest', s') := step_at j rest s in (t :: rest', s')
  end.

Fixpoint run (schedule : list nat) (tasks : list task) (s : Db) : list task * Db :=
  match schedule with
  | [] => (tasks, s)
  | i :: later => let (tasks', s') := step_at i tasks s in run later tasks' s'
  end.

Definition succeeded (t : task) : bool :=
  match t with
  | Settled (Ok _) => true
  | _ => false
  end.

End Interleaving.

(** ** Observations used by the statements *)

(** The balance a read through [getPrivateBalance] reports. *)
Definition stored_balance (owner tokenMint : string) (s : Db) : option Z :=
  match fst (DbService.getPrivateBalance owner tokenMint s) with
  | Ok (Some row) => Some (pb_balance row)
  | _ => None
  end.

(** The record a read through [getTokenPool] reports. *)
Definition stored_pool (tokenMint : string) (s : Db) : option TokenPool :=
  match fst (DbService.getTokenPool tokenMint s) with
  | Ok (Some row) => Some row
  | _ => None
  end.

(** The new balance [updatePrivateBalance] computes from a stored balance. *)
Definition new_balance (balance amount : Z) (isAddition : bool) : Numbers.number :=
  if isAddition then Numbers.add (Numbers.parseFloat balance) (Numbers.parseFloat amount)
  else Numbers.sub (Numbers.parseFloat balance) (Numbers.parseFloat amount).

(** What a debit, respectively a credit, leaves in the column when it
    resolves: the double difference or sum as the column keeps it, and the
    amount itself when a credit creates the record. *)
Definition debited (balance amount : Z) : option Z :=
  Numbers.to_units (new_balance balance amount false).

Definition credited (before : option Z) (amount : Z) : option Z :=
  match before with
  | Some balance => Numbers.to_units (new_balance balance amount true)
  | None => Some amount
  end.

(** The balance and the pool the tables hold for a key, read off the rows. *)
Definition recorded_balance (owner tokenMint : string) (s : Db) : option Z :=
  option_map pb_balance
    (find (fun r => String.eqb (pb_owner r) owner && String.eqb (pb_tokenMint r) tokenMint)
       (private_balances s)).

Definition recorded_pool (tokenMint : string) (s : Db) : option TokenPool :=
  find (fun r => String.eqb (tp_tokenMint r) tokenMint) (token_pools s).

Definition balances_nonnegative (s : Db) : Prop :=
  Forall (fun r => 0 <= pb_balance r) (private_balances s).

Definition signatures (s : Db) : list string := map tx_signature (transactions s).

(** Non-increasing, respectively strictly decreasing, timestamps. *)
Definition descending (l : list Transaction) : Prop :=
  Sorted (fun a b => tx_timestamp a >= tx_timestamp b) l.

Definition strictly_descending (l : list Transaction) : Prop :=
  Sorted (fun a b => tx_timestamp a > tx_timestamp b) l.

(** The mutating calls of [db-service.ts], for statements about sequences. *)
Inductive call : Type :=
| CreateTokenPool (tokenMint : string) (decimals : Z) (poolAddress : string)
| UpdateTokenPoolShielded (tokenMint : string) (amount : Z)
| UpdateTokenPoolUnshielded (tokenMint : string) (amount : Z)
| UpdatePrivateBalance (owner tokenMint : string) (amount : Z) (isAddition : bool)
| RecordTransaction (now : Z) (owner : string) (type : TxType)
    (tokenMint tokenSymbol : string) (amount : Z) (signature : string)
    (recipient : option string).

Definition perform (c : call) (s : Db) : Db :=
  match c with
  | CreateTokenPool m d a => snd (DbService.createTokenPool m d a s)
  | UpdateTokenPoolShielded m a => snd (DbService.updateTokenPoolShielded m a s)
  | UpdateTokenPoolUnshielded m a => snd (DbService.updateTokenPoolUnshielded m a s)
  | UpdatePrivateBalance o m a b => snd (DbService.updatePrivateBalance o m a b s)
  | RecordTransaction n o t m y a g r =>
      snd (DbService.recordTransaction n o t m y a g r s)
  end.

Definition perform_all (cs : list call) (s : Db) : Db :=
  fold_left (fun s c => perform c s) cs s.

(** No credit among the calls carries a negative amount. *)
Definition credits_nonnegative (cs : list call) : Prop :=
  Forall (fun c =>
            match c with
            | UpdatePrivateBalance _ _ amount true => 0 <= amount
            | _ => True
            end) cs.

(** The display symbol [resolve_symbol] finds in a given state. *)
Definition symbol_at (tokenMint : string) (s : Db) : string :=
  match stored_pool tokenMint s with
  | Some _ => if String.eqb tokenMint "SOL" then "SOL" else substring 0 4 tokenMint
  | None => "UNKNOWN"
  end.

Definition log_unchanged (s s' : Db) : Prop := transactions s' = transactions s.

Definition log_extended_by (t : Transaction) (s s' : Db) : Prop :=
  transactions s' = (transactions s ++ [t])%list.

(** A row answers a query for an owner and, when a non-empty mint is
    given, for that mint. *)
Definition matches (owner : string) (tokenMint : option string) (t : Transaction) : Prop :=
  tx_owner t = owner
  /\ forall mint, tokenMint = Some mint -> mint <> "" -> tx_tokenMint t = mint.

(** ** Sample data for worked examples *)

Definition sample_collaborators : Relayer.Collaborators :=
  Relayer.mkCollaborators 1700000000000 1700000000000
    (fun _ => Ok true) (fun mint => Ok ("pool-" ++ mint)) (fun _ _ _ => Ok tt).

(** One owner holding 100 units of one token. *)
Definition alice_100 : Db :=
  mkDb [] [mkPrivateBalance 1 "alice" "SOL" 100 0] [] 1 2 1.

(** One owner holding 0.3 of one token. *)
Definition alice_three_tenths : Db :=
  mkDb [] [mkPrivateBalance 1 "alice" "SOL" 300000000000000000 0] [] 1 2 1.

(** The same, with one shield of 100 logged under the signature ["sig-1"]. *)
Definition alice_shielded : Db :=
  mkDb [mkTokenPool 1 "SOL" 9 "pool-SOL" 100 0]
       [mkPrivateBalance 1 "alice" "SOL" 100 0]
       [mkTransaction 1 "alice" shield "SOL" "SOL" 100 1700000000000 None "sig-1"]
       2 2 2.

(** A request to send 30 from alice to bob. *)
Definition send_alice_bob : Relayer.Body :=
  Relayer.mkBody None (Some "SOL") (Some 30) None None (Some "bob") (Some "proof")
    (Some "alice") None None.

(** Two shields recorded for one owner within the same millisecond. *)
Definition same_millisecond_log : Db :=
  perform_all
    [RecordTransaction 1700000000000 "alice" shield "SOL" "SOL" 100 "sig-1" None;
     RecordTransaction 1700000000000 "alice" shield "SOL" "SOL" 5 "sig-2" None]
    empty_db.

(** ** States that satisfy the UNIQUE constraints, totals, and requests *)

Definition pool_mints (s : Db) : list string := map tp_tokenMint (token_pools s).

Definition balance_keys (s : Db) : list (string * string) :=
  map (fun r => (pb_owner r, pb_tokenMint r)) (private_balances s).

(** [token_mint TEXT NOT NULL UNIQUE] and [UNIQUE(owner, token_mint)] hold. *)
Definition keys_unique (s : Db) : Prop :=
  NoDup (pool_mints s) /\ NoDup (balance_keys s).

(** The sum of the balances recorded for a token, over all owners. *)
Definition sum_for (tokenMint : string) (rows : list PrivateBalance) : Z :=
  fold_right
    (fun r acc => if String.eqb (pb_tokenMint r) tokenMint then pb_balance r + acc else acc)
    0 rows.

Definition total_balance (tokenMint : string) (s : Db) : Z :=
  sum_for tokenMint (private_balances s).

(** The amount a call of [db-service.ts] carries, if it carries one. *)
Definition call_amount (c : call) : option Z :=
  match c with
  | CreateTokenPool _ _ _ => None
  | UpdateTokenPoolShielded _ a => Some a
  | UpdateTokenPoolUnshielded _ a => Some a
  | UpdatePrivateBalance _ _ a _ => Some a
  | RecordTransaction _ _ _ _ _ a _ _ => Some a
  end.

Definition amounts_nonnegative (cs : list call) : Prop :=
  Forall (fun c => match call_amount c with Some a => 0 <= a | None => True end) cs.

(** One request to one of the routes of [relayer.ts], with what the
    handler obtains from its collaborators while serving it. *)
Inductive request : Type :=
| PoolExists (req : Relayer.Body)
| PoolCreate (c : Relayer.Collaborators) (req : Relayer.Body)
| Balances (req : Relayer.Body)
| ShieldNotify (c : Relayer.Collaborators) (req : Relayer.Body)
| Send (c : Relayer.Collaborators) (req : Relayer.Body)
| Unshield (c : Relayer.Collaborators) (req : Relayer.Body)
| Transactions (req : Relayer.Body).

Definition request_body (r : request) : Relayer.Body :=
  match r with
  | PoolExists req | Balances req | Transactions req => req
  | PoolCreate _ req | ShieldNotify _ req | Send _ req | Unshield _ req => req
  end.

Definition serve (r : request) (s : Db) : Relayer.response * Db :=
  match r with
  | PoolExists req => Relayer.post_pool_exists req s
  | PoolCreate c req => Relayer.post_pool_create c req s
  | Balances req => Relayer.post_balances req s
  | ShieldNotify c req => Relayer.post_shield_notify c req s
  | Send c req => Relayer.post_send c req s
  | Unshield c req => Relayer.post_unshield c req s
  | Transactions req => Relayer.post_transactions req s
  end.

Definition serve_all (rs : list request) (s : Db) : Db :=
  fold_left (fun s r => snd (serve r s)) rs s.

(** No request carries a negative amount. *)
Definition requests_nonnegative (rs : list request) : Prop :=
  Forall (fun r =>
            match Relayer.amount (request_body r) with
            | Some a => 0 <= a
            | None => True
            end) rs.

(** A call made while serving a request carries the request's amount. *)
Definition carries (req : Relayer.Body) (c : call) : Prop :=
  match call_amount c with
  | Some a => Relayer.amount req = Some a
  | None => True
  end.

(** The WHERE clause [getTransactions] sends for an owner and a mint. *)
Definition wanted (owner : string) (tokenMint : option string) (t : Transaction) : bool :=
  match tokenMint with
  | Some mint =>
      if DbService.truthy_string tokenMint then
        String.eqb (tx_owner t) owner && String.eqb (tx_tokenMint t) mint
      else String.eqb (tx_owner t) owner
  | None => String.eqb (tx_owner t) owner
  end.

(** The limit [getTransactions] applies. *)
Definition limit_or_default (limit : option Z) : Z :=
  match limit with Some n => n | None => DbService.default_limit end.

(** A pool with totals 100 / 7 and two owners holding SOL. *)
Definition two_owners : Db :=
  mkDb [mkTokenPool 1 "SOL" 9 "pool-SOL" 100 7]
       [mkPrivateBalance 1 "alice" "SOL" 100 0; mkPrivateBalance 2 "bob" "SOL" 20 0]
       [] 2 3 1.

(** A shield notification of 40 SOL for alice under the signature ["sig-1"]. *)
Definition shield_alice_40 : Relayer.Body :=
  Relayer.mkBody (Some "sig-1") (Some "SOL") (Some 40) (Some "commitment")
    (Some "alice") None None None None None.

(** A request to unshield 30 SOL from alice. *)
Definition unshield_alice_30 : Relayer.Body :=
  Relayer.mkBody None (Some "SOL") (Some 30) None None (Some "carol") (Some "proof")
    (Some "alice") None None.

(** A shield, a send and an unshield served one after the other. *)
Definition three_requests : list request :=
  [ShieldNotify sample_collaborators shield_alice_40;
   Send sample_collaborators send_alice_bob;
   Unshield sample_collaborators unshield_alice_30].

(** Collaborators whose pool-address derivation throws. *)
Definition failing_derivation : Relayer.Collaborators :=
  Relayer.mkCollaborators 1700000000000 1700000000000
    (fun _ => Ok true) (fun _ => Err CollaboratorFailure) (fun _ _ _ => Ok tt).

(** * Properties *)

(** ** Numbers written to a column *)

Section Columns.
Import SpecFloat.

Lemma negative_finite sign m e :
  Numbers.negative (S754_finite sign m e) = sign.
Proof. now destruct sign. Qed.

Lemma candidate_nonnegative x p q t c :
  0 <= p -> 0 < q -> Numbers.candidate x p q t = Some c -> 0 <= c.
Proof.
  intros Hp Hq. unfold Numbers.candidate.
  set (c0 := if 0 <=? t then p / (q * 10 ^ t) else p * 10 ^ (- t) / q).
  assert (H0 : 0 <= c0).
  { unfold c0. destruct (Z.leb_spec 0 t).
    - apply Z.div_pos; [exact Hp|]. apply Z.mul_pos_pos; [exact Hq|].
      now apply Z.pow_pos_nonneg.
    - apply Z.div_pos; [|exact Hq]. apply Z.mul_nonneg_nonneg; [exact Hp|].
      apply Z.pow_nonneg. lia. }
  destruct (SFeqb _ x), (SFeqb _ x);
    [match goal with |- context [match ?o with Eq => _ | Lt => _ | Gt => _ end] =>
       destruct o end | | |];
    intros [=]; subst; try lia.
  destruct (Z.even c0); lia.
Qed.

Lemma shortest_nonnegative fuel x p q n k :
  0 <= p -> 0 < q -> 0 <= fst (Numbers.shortest fuel x p q n k).
Proof.
  intros Hp Hq. revert k. induction fuel as [|fuel IH]; intros k; simpl.
  - destruct (Z.leb_spec 0 (n - k)).
    + apply Z.div_pos; [exact Hp|]. apply Z.mul_pos_pos; [exact Hq|].
      now apply Z.pow_pos_nonneg.
    + apply Z.div_pos; [|exact Hq]. apply Z.mul_nonneg_nonneg; [exact Hp|].
      apply Z.pow_nonneg. lia.
  - destruct (Numbers.candidate x p q (n - k)) as [c|] eqn:E; [|apply IH].
    simpl. exact (candidate_nonnegative _ _ _ _ _ Hp Hq E).
Qed.

Lemma round_units_nonnegative c t : 0 <= c -> 0 <= Numbers.round_units c t.
Proof.
  intros Hc. unfold Numbers.round_units. destruct (Z.leb_spec 0 (t + 18)).
  - apply Z.mul_nonneg_nonneg; [exact Hc|]. apply Z.pow_nonneg. lia.
  - assert (0 < 10 ^ (- (t + 18))) by (apply Z.pow_pos_nonneg; lia).
    assert (0 <= 10 ^ (- (t + 18) - 1)) by (apply Z.pow_nonneg; lia).
    apply Z.div_pos; lia.
Qed.

(** A number that is not negative leaves a non-negative value in a column. *)
Lemma to_units_nonnegative x v :
  Numbers.negative x = false -> Numbers.to_units x = Some v -> 0 <= v.
Proof.
  intros Hneg Hu.
  destruct x as [sign| | |sign m e]; cbn [Numbers.to_units] in Hu; try discriminate.
  - injection Hu as <-. lia.
  - rewrite negative_finite in Hneg. subst sign.
    unfold Numbers.digits in Hu.
    set (p := if 0 <=? e then Z.pos m * 2 ^ e else Z.pos m) in Hu.
    set (q := if 0 <=? e then 1 else 2 ^ (- e)) in Hu.
    assert (Hp : 0 <= p).
    { unfold p. destruct (0 <=? e); [|lia]. apply Z.mul_nonneg_nonneg; [lia|].
      apply Z.pow_nonneg. lia. }
    assert (Hq : 0 < q).
    { unfold q. destruct (Z.leb_spec 0 e); [lia|]. apply Z.pow_pos_nonneg; lia. }
    pose proof (shortest_nonnegative 17 (S754_finite false m e) p q
                  (Numbers.decimal_exponent p q) 1 Hp Hq) as Hs.
    destruct (Numbers.shortest _ _ _ _ _ _) as [c t]. cbn [fst] in Hs.
    destruct (_ <? Numbers.bound); [|discriminate].
    injection Hu as <-. now apply round_units_nonnegative.
Qed.

(** A value a column accepts is within the column's bound. *)
Lemma to_units_in_range x v :
  Numbers.negative x = false -> Numbers.to_units x = Some v -> Numbers.in_range v = true.
Proof.
  intros Hneg Hu. pose proof (to_units_nonnegative _ _ Hneg Hu) as Hv.
  destruct x as [sign| | |sign m e]; cbn [Numbers.to_units] in Hu; try discriminate.
  - injection Hu as <-. reflexivity.
  - rewrite negative_finite in Hneg. subst sign.
    destruct (Numbers.digits m e) as [c t].
    destruct (Z.ltb_spec (Numbers.round_units c t) Numbers.bound); [|discriminate].
    injection Hu as <-. unfold Numbers.in_range.
    apply andb_true_iff. split; [apply Z.ltb_lt | now apply Z.ltb_lt].
    assert (0 < Numbers.bound) by reflexivity. lia.
Qed.

End Columns.

(** ** Reading and writing the balance table *)

Section Ledger.
Import DbService.

Lemma balance_at_set_balance o m nb o' m' r :
  Store.balance_at o' m' (Store.set_balance o m nb r) = Store.balance_at o' m' r.
Proof.
  unfold Store.set_balance.
  destruct (Store.balance_at o m r); reflexivity.
Qed.

Lemma filter_set_balance o m nb o' m' l :
  filter (Store.balance_at o' m') (map (Store.set_balance o m nb) l)
  = map (Store.set_balance o m nb) (filter (Store.balance_at o' m') l).
Proof.
  induction l as [|r l IH]; simpl; [reflexivity|].
  rewrite balance_at_set_balance.
  destruct (Store.balance_at o' m' r); simpl; rewrite IH; reflexivity.
Qed.

Lemma balance_at_other o m o' m' r :
  (o', m') <> (o, m) -> Store.balance_at o' m' r = true -> Store.balance_at o m r = false.
Proof.
  unfold Store.balance_at. intros Hne H.
  apply andb_true_iff in H. destruct H as [Ho Hm].
  apply String.eqb_eq in Ho, Hm. subst o' m'.
  apply andb_false_iff.
  destruct (String.eqb_spec (pb_owner r) o) as [E1|]; [|now left].
  destruct (String.eqb_spec (pb_tokenMint r) m) as [E2|]; [|now right].
  elim Hne. now rewrite E1, E2.
Qed.

Lemma set_balance_other o m nb o' m' l :
  (o', m') <> (o, m) ->
  map (Store.set_balance o m nb) (filter (Store.balance_at o' m') l)
  = filter (Store.balance_at o' m') l.
Proof.
  intros Hne. induction l as [|r l IH]; simpl; [reflexivity|].
  destruct (Store.balance_at o' m' r) eqn:E; [|exact IH].
  simpl. rewrite IH. f_equal.
  unfold Store.set_balance. now rewrite (balance_at_other _ _ _ _ _ Hne E).
Qed.

Lemma getPrivateBalance_eq o m s :
  getPrivateBalance o m s
  = (Ok (hd_error (filter (Store.balance_at o m) (private_balances s))), s).
Proof.
  unfold getPrivateBalance, try_catch, bind, Store.select_balances. simpl.
  destruct (filter (Store.balance_at o m) (private_balances s)); reflexivity.
Qed.

Lemma stored_balance_eq o m s :
  stored_balance o m s
  = option_map pb_balance (hd_error (filter (Store.balance_at o m) (private_balances s))).
Proof.
  unfold stored_balance. rewrite getPrivateBalance_eq. simpl.
  destruct (hd_error _); reflexivity.
Qed.

Lemma stored_balance_none_iff o m s :
  stored_balance o m s = None
  <-> existsb (Store.balance_at o m) (private_balances s) = false.
Proof.
  rewrite stored_balance_eq.
  induction (private_balances s) as [|r l IH]; simpl; [tauto|].
  destruct (Store.balance_at o m r); simpl; [split; discriminate | exact IH].
Qed.

Lemma stored_balance_some_exists o m b s :
  stored_balance o m s = Some b ->
  existsb (Store.balance_at o m) (private_balances s) = true.
Proof.
  intros H. destruct (existsb (Store.balance_at o m) (private_balances s)) eqn:E;
    [reflexivity|].
  apply stored_balance_none_iff in E. congruence.
Qed.

(** Reading the table by hand and through [getPrivateBalance] agree. *)
Lemma recorded_balance_eq o m s : recorded_balance o m s = stored_balance o m s.
Proof.
  rewrite stored_balance_eq. unfold recorded_balance.
  change (fun r => String.eqb (pb_owner r) o && String.eqb (pb_tokenMint r) m)
    with (Store.balance_at o m).
  induction (private_balances s) as [|r l IH]; simpl; [reflexivity|].
  destruct (Store.balance_at o m r); [reflexivity | exact IH].
Qed.

(** A debit against a key that has no record. *)
Lemma debit_unknown o m a s :
  stored_balance o m s = None ->
  updatePrivateBalance o m a false s = (Err UnknownBalance, s).
Proof.
  rewrite stored_balance_eq. intros H.
  unfold updatePrivateBalance, bind. rewrite getPrivateBalance_eq.
  destruct (hd_error _); [discriminate | reflexivity].
Qed.

(** The write a call on an existing record sends. *)
Lemma updatePrivateBalance_on_record o m a add b s :
  stored_balance o m s = Some b ->
  updatePrivateBalance o m a add s
  = if Numbers.negative (new_balance b a add) then (Err InsufficientBalance, s)
    else (result <- Store.update_balance o m (new_balance b a add) ;;
          first_row result) s.
Proof.
  rewrite stored_balance_eq. intros H.
  unfold updatePrivateBalance at 1, bind at 1 2. rewrite getPrivateBalance_eq.
  destruct (hd_error _) as [row|]; [|discriminate].
  simpl in H. injection H as <-.
  unfold updatePrivateBalance_write, new_balance.
  destruct add;
    match goal with
    | |- context [Numbers.negative ?x] => destruct (Numbers.negative x)
    end; reflexivity.
Qed.

(** A call on an existing record whose new balance would be negative. *)
Lemma update_insufficient o m a (add : bool) b s :
  stored_balance o m s = Some b ->
  Numbers.negative (new_balance b a add) = true ->
  updatePrivateBalance o m a add s = (Err InsufficientBalance, s).
Proof.
  intros Hb Hneg. now rewrite (updatePrivateBalance_on_record _ _ _ _ _ _ Hb), Hneg.
Qed.

(** A call on an existing record whose new balance does not fit the column. *)
Lemma update_overflow o m a (add : bool) b s :
  stored_balance o m s = Some b ->
  Numbers.negative (new_balance b a add) = false ->
  Numbers.to_units (new_balance b a add) = None ->
  updatePrivateBalance o m a add s = (Err NumericOverflow, s).
Proof.
  intros Hb Hneg Hu. rewrite (updatePrivateBalance_on_record _ _ _ _ _ _ Hb), Hneg.
  unfold bind, Store.update_balance.
  now rewrite (stored_balance_some_exists _ _ _ _ Hb), Hu.
Qed.

(** A call on an existing record whose new balance is not negative and
    fits the column. *)
Lemma update_existing o m a (add : bool) b v s :
  stored_balance o m s = Some b ->
  Numbers.negative (new_balance b a add) = false ->
  Numbers.to_units (new_balance b a add) = Some v ->
  exists row,
    updatePrivateBalance o m a add s
    = (Ok row,
       mkDb (token_pools s)
            (map (Store.set_balance o m v) (private_balances s))
            (transactions s)
            (token_pools_id_seq s) (private_balances_id_seq s) (transactions_id_seq s))
    /\ pb_balance row = v
    /\ pb_owner row = o /\ pb_tokenMint row = m.
Proof.
  intros Hb Hneg Hu. rewrite (updatePrivateBalance_on_record _ _ _ _ _ _ Hb), Hneg.
  unfold bind, Store.update_balance.
  rewrite (stored_balance_some_exists _ _ _ _ Hb), Hu. rewrite filter_set_balance.
  rewrite stored_balance_eq in Hb.
  destruct (filter (Store.balance_at o m) (private_balances s)) as [|r rest] eqn:Hf;
    [discriminate|].
  assert (Hin : In r (filter (Store.balance_at o m) (private_balances s)))
    by (rewrite Hf; now left).
  apply filter_In in Hin. destruct Hin as [_ Hat].
  simpl. eexists. split; [reflexivity|].
  unfold Store.set_balance. rewrite Hat. simpl.
  unfold Store.balance_at in Hat. apply andb_true_iff in Hat.
  destruct Hat as [Ho Hm]. apply String.eqb_eq in Ho, Hm. auto.
Qed.

(** A credit to a key that has no record inserts one, when the amount
    fits the column. *)
Lemma credit_new o m a s :
  stored_balance o m s = None ->
  Numbers.in_range a = true ->
  updatePrivateBalance o m a true s
  = (Ok (mkPrivateBalance (private_balances_id_seq s) o m a 0),
     mkDb (token_pools s)
          (private_balances s ++ [mkPrivateBalance (private_balances_id_seq s) o m a 0])
          (transactions s)
          (token_pools_id_seq s) (private_balances_id_seq s + 1) (transactions_id_seq s)).
Proof.
  intros H Hr. pose proof H as Hex. apply stored_balance_none_iff in Hex.
  rewrite stored_balance_eq in H.
  unfold updatePrivateBalance, bind. rewrite getPrivateBalance_eq.
  destruct (hd_error _); [discriminate|]. simpl.
  unfold Store.insert_balance. rewrite Hr, Hex. reflexivity.
Qed.

Lemma credit_overflow o m a s :
  stored_balance o m s = None ->
  Numbers.in_range a = false ->
  updatePrivateBalance o m a true s
  = (Err NumericOverflow,
     mkDb (token_pools s) (private_balances s) (transactions s)
          (token_pools_id_seq s) (private_balances_id_seq s + 1) (transactions_id_seq s)).
Proof.
  intros H Hr. rewrite stored_balance_eq in H.
  unfold updatePrivateBalance, bind. rewrite getPrivateBalance_eq.
  destruct (hd_error _); [discriminate|]. simpl.
  unfold Store.insert_balance. rewrite Hr. reflexivity.
Qed.

(** The ways a call can end, by what it found and computed. *)
Lemma updatePrivateBalance_cases o m a (add : bool) s :
  (stored_balance o m s = None /\ add = false
   /\ updatePrivateBalance o m a add s = (Err UnknownBalance, s))
  \/ (stored_balance o m s = None /\ add = true /\ Numbers.in_range a = false
      /\ updatePrivateBalance o m a add s
         = (Err NumericOverflow,
            mkDb (token_pools s) (private_balances s) (transactions s)
                 (token_pools_id_seq s) (private_balances_id_seq s + 1)
                 (transactions_id_seq s)))
  \/ (stored_balance o m s = None /\ add = true /\ Numbers.in_range a = true
      /\ updatePrivateBalance o m a add s
         = (Ok (mkPrivateBalance (private_balances_id_seq s) o m a 0),
            mkDb (token_pools s)
                 (private_balances s
                  ++ [mkPrivateBalance (private_balances_id_seq s) o m a 0])
                 (transactions s)
                 (token_pools_id_seq s) (private_balances_id_seq s + 1)
                 (transactions_id_seq s)))
  \/ (exists b, stored_balance o m s = Some b
                /\ Numbers.negative (new_balance b a add) = true
                /\ updatePrivateBalance o m a add s = (Err InsufficientBalance, s))
  \/ (exists b, stored_balance o m s = Some b
                /\ Numbers.negative (new_balance b a add) = false
                /\ Numbers.to_units (new_balance b a add) = None
                /\ updatePrivateBalance o m a add s = (Err NumericOverflow, s))
  \/ (exists b v row,
        stored_balance o m s = Some b
        /\ Numbers.negative (new_balance b a add) = false
        /\ Numbers.to_units (new_balance b a add) = Some v
        /\ updatePrivateBalance o m a add s
           = (Ok row,
              mkDb (token_pools s)
                   (map (Store.set_balance o m v) (private_balances s))
                   (transactions s)
                   (token_pools_id_seq s) (private_balances_id_seq s)
                   (transactions_id_seq s))
        /\ pb_balance row = v /\ pb_owner row = o /\ pb_tokenMint row = m).
Proof.
  destruct (stored_balance o m s) as [b|] eqn:Hb.
  - destruct (Numbers.negative (new_balance b a add)) eqn:Hneg.
    + do 3 right. left. exists b.
      repeat (split; [first [assumption | reflexivity]|]).
      exact (update_insufficient _ _ _ _ _ _ Hb Hneg).
    + destruct (Numbers.to_units (new_balance b a add)) as [v|] eqn:Hu.
      * do 5 right. destruct (update_existing _ _ _ _ _ _ _ Hb Hneg Hu) as (row & E & R).
        exists b, v, row. repeat (split; [first [assumption | reflexivity]|]).
        exact R.
      * do 4 right. left. exists b.
        repeat (split; [first [assumption | reflexivity]|]).
        exact (update_overflow _ _ _ _ _ _ Hb Hneg Hu).
  - destruct add.
    + destruct (Numbers.in_range a) eqn:Hr.
      * do 2 right. left. repeat (split; [first [assumption | reflexivity]|]).
        exact (credit_new _ _ _ _ Hb Hr).
      * right. left. repeat (split; [first [assumption | reflexivity]|]).
        exact (credit_overflow _ _ _ _ Hb Hr).
    + left. repeat (split; [first [assumption | reflexivity]|]).
      exact (debit_unknown _ _ _ _ Hb).
Qed.

End Ledger.

Section LedgerOutcomes.
Import DbService.

Lemma stored_balance_set_same o m nb b s tp txs q1 q2 q3 :
  stored_balance o m s = Some b ->
  stored_balance o m
    (mkDb tp (map (Store.set_balance o m nb) (private_balances s)) txs q1 q2 q3)
  = Some nb.
Proof.
  rewrite !stored_balance_eq. simpl. rewrite filter_set_balance.
  destruct (filter (Store.balance_at o m) (private_balances s)) as [|r rest] eqn:Hf;
    [discriminate|].
  intros _. simpl.
  assert (Hin : In r (filter (Store.balance_at o m) (private_balances s)))
    by (rewrite Hf; now left).
  apply filter_In in Hin. destruct Hin as [_ Hat].
  unfold Store.set_balance. now rewrite Hat.
Qed.

Lemma stored_balance_set_other o m nb o' m' s tp txs q1 q2 q3 :
  (o', m') <> (o, m) ->
  stored_balance o' m'
    (mkDb tp (map (Store.set_balance o m nb) (private_balances s)) txs q1 q2 q3)
  = stored_balance o' m' s.
Proof.
  intros Hne. rewrite !stored_balance_eq. simpl.
  now rewrite filter_set_balance, set_balance_other.
Qed.

Lemma stored_balance_insert_same o m a id s tp txs q1 q2 q3 :
  stored_balance o m s = None ->
  stored_balance o m
    (mkDb tp (private_balances s ++ [mkPrivateBalance id o m a 0]) txs q1 q2 q3)
  = Some a.
Proof.
  rewrite !stored_balance_eq. simpl. rewrite filter_app.
  assert (E : Store.balance_at o m (mkPrivateBalance id o m a 0) = true)
    by (unfold Store.balance_at; simpl; now rewrite !String.eqb_refl).
  simpl. rewrite E.
  destruct (filter (Store.balance_at o m) (private_balances s)); [reflexivity|discriminate].
Qed.

Lemma stored_balance_insert_other o m a id o' m' s tp txs q1 q2 q3 :
  (o', m') <> (o, m) ->
  stored_balance o' m'
    (mkDb tp (private_balances s ++ [mkPrivateBalance id o m a 0]) txs q1 q2 q3)
  = stored_balance o' m' s.
Proof.
  intros Hne. rewrite !stored_balance_eq. simpl. rewrite filter_app. simpl.
  destruct (Store.balance_at o' m' (mkPrivateBalance id o m a 0)) eqn:E.
  - unfold Store.balance_at in E. simpl in E. apply andb_true_iff in E.
    destruct E as [E1 E2]. apply String.eqb_eq in E1, E2. subst. now elim Hne.
  - now rewrite app_nil_r.
Qed.

(** What a resolved call has done: the record it returns is stored, and
    its balance is what the call computed from the balance stored before. *)
Lemma updatePrivateBalance_ok o m a (add : bool) row s s' :
  updatePrivateBalance o m a add s = (Ok row, s') ->
  stored_balance o m s' = Some (pb_balance row)
  /\ (if add then credited (stored_balance o m s) a
      else match stored_balance o m s with
           | Some b => debited b a
           | None => None
           end) = Some (pb_balance row).
Proof.
  intros H.
  destruct (updatePrivateBalance_cases o m a add s)
    as [(_ & _ & E) | [(_ & _ & _ & E) | [(Hb & -> & _ & E) | [(b & _ & _ & E)
       | [(b & _ & _ & _ & E) | (b & v & r & Hb & _ & Hu & E & <- & _)]]]]];
    rewrite E in H; try discriminate; injection H as <- <-.
  - rewrite (stored_balance_insert_same _ _ _ _ _ _ _ _ _ _ Hb), Hb. auto.
  - rewrite (stored_balance_set_same _ _ _ _ _ _ _ _ _ _ Hb), Hb.
    split; [reflexivity|]. unfold credited, debited. now destruct add.
Qed.

(** A resolved call touches no other key and no other table. *)
Lemma updatePrivateBalance_frame o m a add row s s' :
  updatePrivateBalance o m a add s = (Ok row, s') ->
  (forall o' m', (o', m') <> (o, m) -> stored_balance o' m' s' = stored_balance o' m' s)
  /\ token_pools s' = token_pools s
  /\ transactions s' = transactions s.
Proof.
  intros H.
  destruct (updatePrivateBalance_cases o m a add s)
    as [(_ & _ & E) | [(_ & _ & _ & E) | [(Hb & -> & _ & E) | [(b & _ & _ & E)
       | [(b & _ & _ & _ & E) | (b & v & r & Hb & _ & Hu & E & _)]]]]];
    rewrite E in H; try discriminate; injection H as <- <-; simpl.
  - repeat split. intros. now apply stored_balance_insert_other.
  - repeat split. intros. now apply stored_balance_set_other.
Qed.

(** A rejected call has written to no table; a rejected debit has left
    the database as it was. *)
Lemma updatePrivateBalance_err o m a add e s s' :
  updatePrivateBalance o m a add s = (Err e, s') ->
  token_pools s' = token_pools s
  /\ private_balances s' = private_balances s
  /\ transactions s' = transactions s
  /\ (add = false -> s' = s).
Proof.
  intros H.
  destruct (updatePrivateBalance_cases o m a add s)
    as [(_ & _ & E) | [(_ & -> & _ & E) | [(Hb & -> & _ & E) | [(b & _ & _ & E)
       | [(b & _ & _ & _ & E) | (b & v & r & Hb & _ & Hu & E & _)]]]]];
    rewrite E in H; try discriminate; injection H as <- <-; simpl; auto.
  repeat split; auto. discriminate.
Qed.

End LedgerOutcomes.

(** ** Debits *)

Section Debits.
Import DbService.

(** C2, as stated, fails: a debit of 0.1 against a balance of 0.3 resolves,
    and the balance left in the table is 0.19999999999999998, not the
    balance less the amount. *)
Lemma debit_is_rounded :
  recorded_balance "alice" "SOL" alice_three_tenths = Some 300000000000000000
  /\ updatePrivateBalance "alice" "SOL" 100000000000000000 false alice_three_tenths
     = (Ok (mkPrivateBalance 1 "alice" "SOL" 199999999999999980 0),
        mkDb [] [mkPrivateBalance 1 "alice" "SOL" 199999999999999980 0] [] 1 2 1)
  /\ 199999999999999980 <> 300000000000000000 - 100000000000000000.
Proof. split; [reflexivity|]. split; [vm_compute; reflexivity | lia]. Qed.

(** C2, amended. A debit against a key with no record in the table fails
    with [UnknownBalance] and leaves the database as it was (so no record
    appears). A debit against a recorded balance computes the difference
    of the balance and the amount in double precision: when that
    difference is below zero the call fails with [InsufficientBalance] and
    leaves the database as it was; when it does not fit the column the
    call fails with the database's overflow error and leaves the database
    as it was; otherwise the call resolves and the table holds for the key
    the double difference as the column keeps it, which is the balance
    less the amount only up to the rounding of doubles. *)
Theorem debit_outcomes (owner tokenMint : string) (amount : Z) (s : Db) :
  match recorded_balance owner tokenMint s with
  | None =>
      updatePrivateBalance owner tokenMint amount false s = (Err UnknownBalance, s)
  | Some b =>
      if Numbers.negative
           (Numbers.sub (Numbers.parseFloat b) (Numbers.parseFloat amount)) then
        updatePrivateBalance owner tokenMint amount false s
        = (Err InsufficientBalance, s)
      else
        match Numbers.to_units
                (Numbers.sub (Numbers.parseFloat b) (Numbers.parseFloat amount)) with
        | None =>
            updatePrivateBalance owner tokenMint amount false s
            = (Err NumericOverflow, s)
        | Some v =>
            exists row s',
              updatePrivateBalance owner tokenMint amount false s = (Ok row, s')
              /\ pb_balance row = v
              /\ recorded_balance owner tokenMint s' = Some v
              /\ (forall o m, (o, m) <> (owner, tokenMint) ->
                    recorded_balance o m s' = recorded_balance o m s)
        end
  end.
Proof.
  rewrite recorded_balance_eq.
  destruct (stored_balance owner tokenMint s) as [b|] eqn:Hb.
  - change (Numbers.sub (Numbers.parseFloat b) (Numbers.parseFloat amount))
      with (new_balance b amount false).
    destruct (Numbers.negative (new_balance b amount false)) eqn:Hneg.
    + exact (update_insufficient _ _ _ false _ _ Hb Hneg).
    + destruct (Numbers.to_units (new_balance b amount false)) as [v|] eqn:Hu.
      * destruct (update_existing _ _ _ false _ _ _ Hb Hneg Hu) as (row & E & Hr & _).
        eexists. eexists. split; [exact E|]. split; [exact Hr|]. split.
        -- rewrite recorded_balance_eq.
           exact (stored_balance_set_same _ _ _ _ _ _ _ _ _ _ Hb).
        -- intros o m Hne. rewrite !recorded_balance_eq.
           now apply stored_balance_set_other.
      * exact (update_overflow _ _ _ false _ _ Hb Hneg Hu).
  - exact (debit_unknown _ _ _ _ Hb).
Qed.

Example debit_unknown_key :
  updatePrivateBalance "bob" "SOL" 10 false alice_100 = (Err UnknownBalance, alice_100).
Proof. reflexivity. Qed.

Example debit_overdraft :
  updatePrivateBalance "alice" "SOL" 101 false alice_100
  = (Err InsufficientBalance, alice_100).
Proof. vm_compute. reflexivity. Qed.

Example debit_within_balance :
  recorded_balance "alice" "SOL"
    (snd (updatePrivateBalance "alice" "SOL" 30 false alice_100)) = Some 70.
Proof. vm_compute. reflexivity. Qed.

(** A debit of a whole amount from a whole balance is exact. *)
Example debit_of_whole_amounts :
  debited 5000000000000000000 2000000000000000000 = Some 3000000000000000000.
Proof. vm_compute. reflexivity. Qed.

End Debits.

(** ** Pool totals *)

Section PoolTotals.
Import DbService.

Lemma getTokenPool_eq m s :
  getTokenPool m s = (Ok (hd_error (filter (Store.pool_at m) (token_pools s))), s).
Proof.
  unfold getTokenPool, try_catch, bind, Store.select_pools. simpl.
  destruct (filter (Store.pool_at m) (token_pools s)); reflexivity.
Qed.

Lemma stored_pool_eq m s :
  stored_pool m s = hd_error (filter (Store.pool_at m) (token_pools s)).
Proof.
  unfold stored_pool. rewrite getTokenPool_eq. simpl.
  destruct (hd_error _); reflexivity.
Qed.

(** Reading the table by hand and through [getTokenPool] agree. *)
Lemma recorded_pool_eq m s : recorded_pool m s = stored_pool m s.
Proof.
  rewrite stored_pool_eq. unfold recorded_pool.
  change (fun r => String.eqb (tp_tokenMint r) m) with (Store.pool_at m).
  induction (token_pools s) as [|r l IH]; simpl; [reflexivity|].
  destruct (Store.pool_at m r); [reflexivity | exact IH].
Qed.

Lemma map_unmatched (f : TokenPool -> TokenPool) m l :
  (forall r, Store.pool_at m r = false -> f r = r) ->
  filter (Store.pool_at m) l = [] ->
  map f l = l.
Proof.
  intros Hf. induction l as [|r l IH]; simpl; [reflexivity|].
  destruct (Store.pool_at m r) eqn:E; [discriminate|].
  intros H. now rewrite (Hf r E), IH.
Qed.

Lemma hd_filter_map (f : TokenPool -> TokenPool) m l :
  (forall r, Store.pool_at m (f r) = Store.pool_at m r) ->
  hd_error (filter (Store.pool_at m) (map f l))
  = option_map f (hd_error (filter (Store.pool_at m) l)).
Proof.
  intros Hf. induction l as [|r l IH]; simpl; [reflexivity|].
  rewrite Hf. destruct (Store.pool_at m r); [reflexivity | exact IH].
Qed.

Lemma pool_at_add_shielded m a m' r :
  Store.pool_at m' (Store.add_shielded m a r) = Store.pool_at m' r.
Proof. unfold Store.add_shielded. now destruct (Store.pool_at m r). Qed.

Lemma pool_at_add_unshielded m a m' r :
  Store.pool_at m' (Store.add_unshielded m a r) = Store.pool_at m' r.
Proof. unfold Store.add_unshielded. now destruct (Store.pool_at m r). Qed.

(** The two ways each update can end. *)
Lemma updateTokenPoolShielded_cases m a s :
  updateTokenPoolShielded m a s = (Ok tt, Store.with_pools (Store.add_shielded m a) s)
  \/ updateTokenPoolShielded m a s = (Err NumericOverflow, s).
Proof.
  unfold updateTokenPoolShielded, Store.update_pool_shielded.
  destruct (Store.totals_fit _ _ _ _); auto.
Qed.

Lemma updateTokenPoolUnshielded_cases m a s :
  updateTokenPoolUnshielded m a s = (Ok tt, Store.with_pools (Store.add_unshielded m a) s)
  \/ updateTokenPoolUnshielded m a s = (Err NumericOverflow, s).
Proof.
  unfold updateTokenPoolUnshielded, Store.update_pool_unshielded.
  destruct (Store.totals_fit _ _ _ _); auto.
Qed.

(** The updates write to the table of pools only. *)
Lemma updateTokenPoolShielded_tables m a s :
  private_balances (snd (updateTokenPoolShielded m a s)) = private_balances s
  /\ transactions (snd (updateTokenPoolShielded m a s)) = transactions s.
Proof. destruct (updateTokenPoolShielded_cases m a s) as [-> | ->]; auto. Qed.

Lemma updateTokenPoolUnshielded_tables m a s :
  private_balances (snd (updateTokenPoolUnshielded m a s)) = private_balances s
  /\ transactions (snd (updateTokenPoolUnshielded m a s)) = transactions s.
Proof. destruct (updateTokenPoolUnshielded_cases m a s) as [-> | ->]; auto. Qed.

Lemma totals_fit_absent m total a l :
  ~ In m (map tp_tokenMint l) -> Store.totals_fit m total a l = true.
Proof.
  unfold Store.totals_fit. induction l as [|r l IH]; simpl; [reflexivity|].
  intros H. unfold Store.pool_at at 1.
  destruct (String.eqb_spec (tp_tokenMint r) m) as [E|_]; [elim H; now left|].
  simpl. apply IH. tauto.
Qed.

(** Under the UNIQUE constraint an update matches one row at most, and
    fits exactly when that row's new total does. *)
Lemma totals_fit_unique m total a l pool :
  NoDup (map tp_tokenMint l) ->
  find (Store.pool_at m) l = Some pool ->
  Store.totals_fit m total a l = Numbers.in_range (total pool + a).
Proof.
  induction l as [|r l IH]; simpl; [discriminate|].
  intros Hnd. inversion Hnd as [|? ? Hout Hrest]; subst.
  unfold Store.totals_fit. simpl.
  destruct (Store.pool_at m r) eqn:E.
  - intros [= <-]. simpl.
    unfold Store.pool_at in E. apply String.eqb_eq in E. rewrite E in Hout.
    pose proof (totals_fit_absent m total a l Hout) as Hfit.
    unfold Store.totals_fit in Hfit. rewrite Hfit. apply andb_true_r.
  - intros Hf. simpl. exact (IH Hrest Hf).
Qed.

Lemma find_none_filter m l :
  find (Store.pool_at m) l = None -> filter (Store.pool_at m) l = [].
Proof.
  induction l as [|r l IH]; simpl; [reflexivity|].
  destruct (Store.pool_at m r); [discriminate | exact IH].
Qed.

Lemma find_none_absent m l :
  find (Store.pool_at m) l = None -> ~ In m (map tp_tokenMint l).
Proof.
  induction l as [|r l IH]; simpl; [tauto|].
  unfold Store.pool_at at 1.
  destruct (String.eqb_spec (tp_tokenMint r) m) as [E|N]; [discriminate|].
  intros H [E|Hin]; [contradiction | exact (IH H Hin)].
Qed.

Lemma find_map_pool (f : TokenPool -> TokenPool) m l :
  (forall r, Store.pool_at m (f r) = Store.pool_at m r) ->
  find (Store.pool_at m) (map f l) = option_map f (find (Store.pool_at m) l).
Proof.
  intros Hf. induction l as [|r l IH]; simpl; [reflexivity|].
  rewrite Hf. destruct (Store.pool_at m r); [reflexivity | exact IH].
Qed.

Lemma find_pool_at m l pool :
  find (Store.pool_at m) l = Some pool -> Store.pool_at m pool = true.
Proof. intros H. now apply find_some in H. Qed.

(** An update for a mint that has no pool resolves and changes nothing. *)
Lemma updateTokenPoolShielded_no_pool m a s :
  recorded_pool m s = None -> updateTokenPoolShielded m a s = (Ok tt, s).
Proof.
  unfold recorded_pool.
  change (fun r => String.eqb (tp_tokenMint r) m) with (Store.pool_at m).
  intros Hp. unfold updateTokenPoolShielded, Store.update_pool_shielded.
  rewrite (totals_fit_absent _ _ _ _ (find_none_absent _ _ Hp)).
  unfold Store.with_pools. destruct s as [tp pb txs q1 q2 q3]. simpl in *.
  do 2 f_equal. apply (map_unmatched _ m); [|now apply find_none_filter].
  intros r Hr. unfold Store.add_shielded. now rewrite Hr.
Qed.

Lemma updateTokenPoolUnshielded_no_pool m a s :
  recorded_pool m s = None -> updateTokenPoolUnshielded m a s = (Ok tt, s).
Proof.
  unfold recorded_pool.
  change (fun r => String.eqb (tp_tokenMint r) m) with (Store.pool_at m).
  intros Hp. unfold updateTokenPoolUnshielded, Store.update_pool_unshielded.
  rewrite (totals_fit_absent _ _ _ _ (find_none_absent _ _ Hp)).
  unfold Store.with_pools. destruct s as [tp pb txs q1 q2 q3]. simpl in *.
  do 2 f_equal. apply (map_unmatched _ m); [|now apply find_none_filter].
  intros r Hr. unfold Store.add_unshielded. now rewrite Hr.
Qed.

(** C5, as stated, fails: with no pool recorded both updates resolve, and
    the tables are as before. *)
Lemma pool_update_without_pool_resolves :
  updateTokenPoolShielded "SOL" 5 empty_db = (Ok tt, empty_db)
  /\ updateTokenPoolUnshielded "SOL" 5 empty_db = (Ok tt, empty_db).
Proof. split; reflexivity. Qed.

(** C5, amended. In a table of pools that satisfies its UNIQUE constraint:
    with no pool recorded for the mint, [updateTokenPoolShielded] and
    [updateTokenPoolUnshielded] resolve and change nothing; with a pool
    recorded they add the amount to [total_shielded], respectively
    [total_unshielded], in one statement and leave every other column of
    the pool as it was, unless the new total does not fit the
    [DECIMAL(36, 18)] column: then the call fails with the database's
    overflow error and changes nothing. *)
Theorem pool_total_updates (tokenMint : string) (amount : Z) (s : Db) :
  NoDup (pool_mints s) ->
  match recorded_pool tokenMint s with
  | None =>
      updateTokenPoolShielded tokenMint amount s = (Ok tt, s)
      /\ updateTokenPoolUnshielded tokenMint amount s = (Ok tt, s)
  | Some pool =>
      (if Numbers.in_range (tp_totalShielded pool + amount) then
         exists s',
           updateTokenPoolShielded tokenMint amount s = (Ok tt, s')
           /\ recorded_pool tokenMint s'
              = Some (mkTokenPool (tp_id pool) (tp_tokenMint pool) (tp_decimals pool)
                        (tp_poolAddress pool) (tp_totalShielded pool + amount)
                        (tp_totalUnshielded pool))
       else updateTokenPoolShielded tokenMint amount s = (Err NumericOverflow, s))
      /\ (if Numbers.in_range (tp_totalUnshielded pool + amount) then
            exists s',
              updateTokenPoolUnshielded tokenMint amount s = (Ok tt, s')
              /\ recorded_pool tokenMint s'
                 = Some (mkTokenPool (tp_id pool) (tp_tokenMint pool) (tp_decimals pool)
                           (tp_poolAddress pool) (tp_totalShielded pool)
                           (tp_totalUnshielded pool + amount))
          else updateTokenPoolUnshielded tokenMint amount s = (Err NumericOverflow, s))
  end.
Proof.
  intros Hnd. unfold recorded_pool.
  change (fun r => String.eqb (tp_tokenMint r) tokenMint) with (Store.pool_at tokenMint).
  unfold updateTokenPoolShielded, updateTokenPoolUnshielded,
    Store.update_pool_shielded, Store.update_pool_unshielded.
  destruct (find (Store.pool_at tokenMint) (token_pools s)) as [pool|] eqn:Hp.
  - rewrite (totals_fit_unique _ tp_totalShielded amount _ _ Hnd Hp).
    rewrite (totals_fit_unique _ tp_totalUnshielded amount _ _ Hnd Hp).
    pose proof (find_pool_at _ _ _ Hp) as Hat.
    split.
    + destruct (Numbers.in_range (tp_totalShielded pool + amount)); [|reflexivity].
      eexists. split; [reflexivity|]. simpl.
      rewrite find_map_pool by (intros; apply pool_at_add_shielded).
      rewrite Hp. simpl. unfold Store.add_shielded. now rewrite Hat.
    + destruct (Numbers.in_range (tp_totalUnshielded pool + amount)); [|reflexivity].
      eexists. split; [reflexivity|]. simpl.
      rewrite find_map_pool by (intros; apply pool_at_add_unshielded).
      rewrite Hp. simpl. unfold Store.add_unshielded. now rewrite Hat.
  - split.
    + exact (updateTokenPoolShielded_no_pool tokenMint amount s Hp).
    + exact (updateTokenPoolUnshielded_no_pool tokenMint amount s Hp).
Qed.

Lemma pool_total_updates_witness :
  NoDup (pool_mints two_owners)
  /\ (exists s',
        updateTokenPoolShielded "SOL" 5 two_owners = (Ok tt, s')
        /\ recorded_pool "SOL" s' = Some (mkTokenPool 1 "SOL" 9 "pool-SOL" 105 7))
  /\ updateTokenPoolUnshielded "SOL" (10 ^ 36) two_owners = (Err NumericOverflow, two_owners).
Proof.
  assert (Hnd : NoDup (pool_mints two_owners))
    by (repeat constructor; simpl; intros []).
  split; [exact Hnd|].
  pose proof (pool_total_updates "SOL" 5 two_owners Hnd) as H5.
  pose proof (pool_total_updates "SOL" (10 ^ 36) two_owners Hnd) as H36.
  vm_compute in H36.
  split; [exact (proj1 H5) | exact (proj2 H36)].
Defined.

Example shielded_total_grows :
  let s := mkDb [mkTokenPool 1 "SOL" 9 "pool-SOL" 100 7] [] [] 2 1 1 in
  option_map tp_totalShielded (stored_pool "SOL" (snd (updateTokenPoolShielded "SOL" 5 s)))
  = Some 105.
Proof. reflexivity. Qed.

End PoolTotals.

(** ** Sign of the stored balances *)

Section NonNegativity.
Import DbService.

(** Every call keeps the balances non-negative, except a credit of a
    negative amount to a key that has no record yet. *)
Lemma balances_nonnegative_preserved o m a (add : bool) s :
  balances_nonnegative s ->
  (add = true -> stored_balance o m s = None -> 0 <= a) ->
  balances_nonnegative (snd (updatePrivateBalance o m a add s)).
Proof.
  unfold balances_nonnegative. intros Hs Ha.
  destruct (updatePrivateBalance_cases o m a add s)
    as [(_ & _ & E) | [(_ & _ & _ & E) | [(Hb & -> & _ & E) | [(b & _ & _ & E)
       | [(b & _ & _ & _ & E) | (b & v & r & Hb & Hneg & Hu & E & _)]]]]];
    rewrite E; simpl; try exact Hs.
  - apply Forall_app. split; [exact Hs|].
    constructor; [simpl; auto | constructor].
  - apply Forall_map.
    apply Forall_impl with (2 := Hs). intros r0 Hr.
    unfold Store.set_balance. destruct (Store.balance_at o m r0); simpl; [|exact Hr].
    exact (to_units_nonnegative _ _ Hneg Hu).
Qed.

Lemma perform_all_nonnegative cs s :
  credits_nonnegative cs ->
  balances_nonnegative s ->
  balances_nonnegative (perform_all cs s).
Proof.
  unfold credits_nonnegative. revert s.
  induction cs as [|c cs IH]; intros s Hcs Hs; [exact Hs|].
  inversion Hcs as [|? ? Hc Hrest]; subst. simpl. apply IH; [exact Hrest|].
  destruct c as [m d a | m a | m a | o m a b | n o t m y a g r]; simpl.
  - unfold balances_nonnegative, createTokenPool, bind, Store.insert_pool.
    destruct (existsb (Store.pool_at m) (token_pools s)); exact Hs.
  - unfold balances_nonnegative.
    now rewrite (proj1 (updateTokenPoolShielded_tables m a s)).
  - unfold balances_nonnegative.
    now rewrite (proj1 (updateTokenPoolUnshielded_tables m a s)).
  - apply balances_nonnegative_preserved; [exact Hs|].
    intros -> _. exact Hc.
  - unfold balances_nonnegative, recordTransaction, bind, Store.insert_transaction.
    destruct (existsb (Store.signed g) (transactions s)); exact Hs.
Qed.

(** C3, at the input where the code departs from it. A credit of -5 to a
    key that has no record resolves and stores the balance -5; the
    [/shield/notify] route lets the same amount through, since its guard
    only rejects a missing or zero amount. *)
Theorem negative_credit_creates_negative_balance :
  updatePrivateBalance "alice" "SOL" (-5) true empty_db
  = (Ok (mkPrivateBalance 1 "alice" "SOL" (-5) 0),
     mkDb [] [mkPrivateBalance 1 "alice" "SOL" (-5) 0] [] 1 2 1)
  /\ ~ balances_nonnegative (snd (updatePrivateBalance "alice" "SOL" (-5) true empty_db))
  /\ (let req := Relayer.mkBody (Some "sig-1") (Some "SOL") (Some (-5)) (Some "c")
                   (Some "alice") None None None None None in
      let (res, s') := Relayer.post_shield_notify sample_collaborators req empty_db in
      Relayer.status res = 200 /\ stored_balance "alice" "SOL" s' = Some (-5)).
Proof.
  split; [reflexivity|]. split.
  - intros H. inversion H as [|r l Hr _]. simpl in Hr. lia.
  - split; reflexivity.
Qed.

End NonNegativity.

(** ** The transaction log *)

Section TransactionLog.
Import DbService.

Lemma signed_iff sig txs :
  existsb (Store.signed sig) txs = true <-> In sig (map tx_signature txs).
Proof.
  rewrite existsb_exists, in_map_iff. unfold Store.signed.
  split; intros (t & H1 & H2).
  - exists t. apply String.eqb_eq in H2. auto.
  - exists t. split; [exact H2|]. now apply String.eqb_eq.
Qed.

Lemma recordTransaction_duplicate now o ty m sym a sig rc s :
  In sig (signatures s) ->
  recordTransaction now o ty m sym a sig rc s
  = (Err DuplicateSignature,
     mkDb (token_pools s) (private_balances s) (transactions s)
          (token_pools_id_seq s) (private_balances_id_seq s) (transactions_id_seq s + 1)).
Proof.
  intros H. apply signed_iff in H.
  unfold recordTransaction, bind, Store.insert_transaction. now rewrite H.
Qed.

Lemma recordTransaction_fresh now o ty m sym a sig rc s :
  ~ In sig (signatures s) ->
  let row := mkTransaction (transactions_id_seq s) o ty m sym a now rc sig in
  recordTransaction now o ty m sym a sig rc s
  = (Ok row,
     mkDb (token_pools s) (private_balances s) (transactions s ++ [row])
          (token_pools_id_seq s) (private_balances_id_seq s) (transactions_id_seq s + 1)).
Proof.
  intros H. unfold recordTransaction, bind, Store.insert_transaction.
  destruct (existsb (Store.signed sig) (transactions s)) eqn:E.
  - apply signed_iff in E. contradiction.
  - reflexivity.
Qed.

Lemma In_signatures_dec sig s : {In sig (signatures s)} + {~ In sig (signatures s)}.
Proof. apply in_dec, string_dec. Qed.

Lemma updatePrivateBalance_tables o m a add s :
  token_pools (snd (updatePrivateBalance o m a add s)) = token_pools s
  /\ transactions (snd (updatePrivateBalance o m a add s)) = transactions s.
Proof.
  destruct (updatePrivateBalance o m a add s) as [[row|e] s'] eqn:E; simpl.
  - apply updatePrivateBalance_frame in E. tauto.
  - apply updatePrivateBalance_err in E. destruct E as (-> & _ & -> & _). auto.
Qed.

Lemma createTokenPool_tables m d addr s :
  private_balances (snd (createTokenPool m d addr s)) = private_balances s
  /\ transactions (snd (createTokenPool m d addr s)) = transactions s.
Proof.
  unfold createTokenPool, bind, Store.insert_pool.
  destruct (existsb (Store.pool_at m) (token_pools s)); simpl; auto.
Qed.

(** One call either leaves the log as it was or appends one row whose
    signature the log did not hold. *)
Lemma perform_log c s :
  transactions (perform c s) = transactions s
  \/ exists t, transactions (perform c s) = (transactions s ++ [t])%list
               /\ ~ In (tx_signature t) (signatures s).
Proof.
  destruct c as [m d a | m a | m a | o m a b | n o t m y a g r]; simpl.
  - left. apply createTokenPool_tables.
  - left. apply updateTokenPoolShielded_tables.
  - left. apply updateTokenPoolUnshielded_tables.
  - left. apply updatePrivateBalance_tables.
  - destruct (In_signatures_dec g s) as [Hin|Hout].
    + left. now rewrite recordTransaction_duplicate.
    + right. rewrite recordTransaction_fresh by assumption. simpl.
      eexists. split; [reflexivity | exact Hout].
Qed.

Lemma perform_all_log cs s :
  exists added,
    transactions (perform_all cs s) = (transactions s ++ added)%list
    /\ (NoDup (signatures s) -> NoDup (signatures (perform_all cs s))).
Proof.
  revert s. induction cs as [|c cs IH]; intros s.
  - exists []. simpl. now rewrite app_nil_r.
  - simpl. destruct (IH (perform c s)) as (added & Happ & Hnd).
    destruct (perform_log c s) as [Hsame | (t & Hone & Hfresh)].
    + exists added. rewrite Happ, Hsame. split; [reflexivity|].
      intros H. apply Hnd. unfold signatures. now rewrite Hsame.
    + exists (t :: added). rewrite Happ, Hone, <- app_assoc. split; [reflexivity|].
      intros H. apply Hnd. unfold signatures in *. rewrite Hone, map_app. simpl.
      apply NoDup_app; [exact H | repeat constructor; intros [] |].
      intros x Hx [<-|[]]. contradiction.
Qed.


End TransactionLog.


(** ** The route handlers, step by step *)

Section Routes.
Import DbService.
Import Relayer.

Lemma resolve_symbol_eq m s : resolve_symbol m s = (Ok (symbol_at m s), s).
Proof.
  unfold resolve_symbol, bind, symbol_at. rewrite stored_pool_eq, getTokenPool_eq.
  destruct (hd_error _); reflexivity.
Qed.

Lemma getOrCreateTokenPool_tables c m d s :
  private_balances (snd (getOrCreateTokenPool c m d s)) = private_balances s
  /\ transactions (snd (getOrCreateTokenPool c m d s)) = transactions s.
Proof.
  unfold getOrCreateTokenPool, bind, await. rewrite getTokenPool_eq.
  destruct (hd_error _); simpl; [auto|].
  destruct (findProgramAddress c m); simpl; [|auto].
  apply createTokenPool_tables.
Qed.

Lemma post_send_run c req mint a rc pf sd s :
  present_string (tokenMint req) = Some mint ->
  present_number (amount req) = Some a ->
  present_string (recipient req) = Some rc ->
  present_string (proof req) = Some pf ->
  present_string (sender req) = Some sd ->
  post_send c req s =
  match updatePrivateBalance sd mint a false s with
  | (Err e, s1) => (error_message e, s1)
  | (Ok _, s1) =>
      match updatePrivateBalance rc mint a true s1 with
      | (Err e, s2) => (error_message e, s2)
      | (Ok _, s2) =>
          match recordTransaction (now_record c) sd send mint (symbol_at mint s2) a
                  (send_signature (now_signature c)) (Some rc) s2 with
          | (Err e, s3) => (error_message e, s3)
          | (Ok _, s3) =>
              (mkResponse 200 (signature_json (send_signature (now_signature c))), s3)
          end
      end
  end.
Proof.
  intros H1 H2 H3 H4 H5. unfold post_send, handler.
  rewrite H1, H2, H3, H4, H5. unfold bind.
  destruct (updatePrivateBalance sd mint a false s) as [[r1|e1] s1]; [|reflexivity].
  destruct (updatePrivateBalance rc mint a true s1) as [[r2|e2] s2]; [|reflexivity].
  rewrite resolve_symbol_eq.
  destruct (recordTransaction _ _ _ _ _ _ _ _ s2) as [[r3|e3] s3]; reflexivity.
Qed.

Lemma post_shield_notify_run c req sig mint a cm o s :
  present_string (txSignature req) = Some sig ->
  present_string (tokenMint req) = Some mint ->
  present_number (amount req) = Some a ->
  present_string (commitment req) = Some cm ->
  present_string (owner req) = Some o ->
  post_shield_notify c req s =
  match chain_getTransaction c sig with
  | Err e => (internal_error e, s)
  | Ok false => (bad_request "Transaction not found", s)
  | Ok true =>
      match updatePrivateBalance o mint a true s with
      | (Err e, s1) => (internal_error e, s1)
      | (Ok _, s1) =>
          match updateTokenPoolShielded mint a s1 with
          | (Err e, s2) => (internal_error e, s2)
          | (Ok _, s2) =>
              match recordTransaction (now_record c) o shield mint (symbol_at mint s2) a
                      sig None s2 with
              | (Err e, s3) => (internal_error e, s3)
              | (Ok _, s3) => (mkResponse 200 success_json, s3)
              end
          end
      end
  end.
Proof.
  intros H1 H2 H3 H4 H5. unfold post_shield_notify, handler.
  rewrite H1, H2, H3, H4, H5. unfold bind, await.
  destruct (chain_getTransaction c sig) as [[|]|e0]; try reflexivity. simpl.
  destruct (updatePrivateBalance o mint a true s) as [[r1|e1] s1]; [|reflexivity].
  destruct (updateTokenPoolShielded mint a s1) as [[u|e2] s2]; [|reflexivity].
  rewrite resolve_symbol_eq.
  destruct (recordTransaction _ _ _ _ _ _ _ _ _) as [[r3|e3] s3]; reflexivity.
Qed.

Lemma post_unshield_run c req mint a rc pf sd s :
  present_string (tokenMint req) = Some mint ->
  present_number (amount req) = Some a ->
  present_string (recipient req) = Some rc ->
  present_string (proof req) = Some pf ->
  present_string (sender req) = Some sd ->
  post_unshield c req s =
  match updatePrivateBalance sd mint a false s with
  | (Err e, s1) => (error_message e, s1)
  | (Ok _, s1) =>
      match updateTokenPoolUnshielded mint a s1 with
      | (Err e, s2) => (error_message e, s2)
      | (Ok _, s2) =>
          match getOrCreateTokenPool c mint 0 s2 with
          | (Err e, s3) => (error_message e, s3)
          | (Ok pool, s3) =>
              match (if negb (String.eqb mint "SOL")
                     then resolve_token_accounts c mint (tp_poolAddress pool) rc
                     else Ok tt) with
              | Err e => (error_message e, s3)
              | Ok _ =>
                  match recordTransaction (now_record c) sd unshield mint
                          (symbol_at mint s3) a (unshield_signature (now_signature c))
                          None s3 with
                  | (Err e, s4) => (error_message e, s4)
                  | (Ok _, s4) =>
                      (mkResponse 200
                         (signature_json (unshield_signature (now_signature c))), s4)
                  end
              end
          end
      end
  end.
Proof.
  intros H1 H2 H3 H4 H5. unfold post_unshield, handler.
  rewrite H1, H2, H3, H4, H5. unfold bind.
  destruct (updatePrivateBalance sd mint a false s) as [[r1|e1] s1]; [|reflexivity].
  destruct (updateTokenPoolUnshielded mint a s1) as [[u|e0] s2]; [|reflexivity].
  destruct (getOrCreateTokenPool c mint 0 _) as [[pool|e2] s3]; [|reflexivity].
  destruct (negb (String.eqb mint "SOL")); unfold await, ret.
  - destruct (resolve_token_accounts c mint (tp_poolAddress pool) rc) as [[]|e3];
      [|reflexivity].
    rewrite resolve_symbol_eq.
    destruct (recordTransaction _ _ _ _ _ _ _ _ _) as [[r4|e4] s4]; reflexivity.
  - rewrite resolve_symbol_eq.
    destruct (recordTransaction _ _ _ _ _ _ _ _ _) as [[r4|e4] s4]; reflexivity.
Qed.

End Routes.

(** ** Amounts that are zero or negative *)

Section AmountSign.
Import DbService.
Import Relayer.







End AmountSign.

(** ** Order of the ledger mutation and the log write *)

Section LedgerBeforeLog.
Import DbService.
Import Relayer.

Lemma updatePrivateBalance_transactions o m a add r s s' :
  updatePrivateBalance o m a add s = (r, s') -> transactions s' = transactions s.
Proof.
  intros H. pose proof (proj2 (updatePrivateBalance_tables o m a add s)) as T.
  now rewrite H in T.
Qed.

Lemma getOrCreateTokenPool_transactions c m d r s s' :
  getOrCreateTokenPool c m d s = (r, s') ->
  transactions s' = transactions s /\ private_balances s' = private_balances s.
Proof.
  intros H. pose proof (getOrCreateTokenPool_tables c m d s) as T.
  rewrite H in T. simpl in T. tauto.
Qed.

Lemma updateTokenPoolShielded_transactions m a r s s' :
  updateTokenPoolShielded m a s = (r, s') ->
  transactions s' = transactions s /\ private_balances s' = private_balances s.
Proof.
  intros H. pose proof (updateTokenPoolShielded_tables m a s) as T.
  rewrite H in T. simpl in T. tauto.
Qed.

Lemma updateTokenPoolUnshielded_transactions m a r s s' :
  updateTokenPoolUnshielded m a s = (r, s') ->
  transactions s' = transactions s /\ private_balances s' = private_balances s.
Proof.
  intros H. pose proof (updateTokenPoolUnshielded_tables m a s) as T.
  rewrite H in T. simpl in T. tauto.
Qed.

Lemma send_log_after_ledger c req s :
  log_unchanged s (snd (post_send c req s))
  \/ exists mint a rc sd r1 s1 r2 s2 t,
       present_string (tokenMint req) = Some mint
       /\ present_number (amount req) = Some a
       /\ present_string (recipient req) = Some rc
       /\ present_string (sender req) = Some sd
       /\ updatePrivateBalance sd mint a false s = (Ok r1, s1)
       /\ updatePrivateBalance rc mint a true s1 = (Ok r2, s2)
       /\ private_balances (snd (post_send c req s)) = private_balances s2
       /\ log_extended_by t s (snd (post_send c req s))
       /\ tx_type t = send /\ tx_owner t = sd /\ tx_tokenMint t = mint
       /\ tx_amount t = a /\ tx_recipient t = Some rc.
Proof.
  unfold log_unchanged, log_extended_by.
  destruct (present_string (tokenMint req)) as [mint|] eqn:F1;
  [destruct (present_number (amount req)) as [a|] eqn:F2;
   [destruct (present_string (recipient req)) as [rc|] eqn:F3;
    [destruct (present_string (proof req)) as [pf|] eqn:F4;
     [destruct (present_string (sender req)) as [sd|] eqn:F5|]|]|]|];
  try (left; unfold post_send, handler;
       rewrite ?F1, ?F2, ?F3, ?F4, ?F5; reflexivity).
  rewrite (post_send_run _ _ _ _ _ _ _ _ F1 F2 F3 F4 F5).
  destruct (updatePrivateBalance sd mint a false s) as [[r1|e1] s1] eqn:E1;
    [|left; exact (updatePrivateBalance_transactions _ _ _ _ _ _ _ E1)].
  pose proof (updatePrivateBalance_transactions _ _ _ _ _ _ _ E1) as T1.
  destruct (updatePrivateBalance rc mint a true s1) as [[r2|e2] s2] eqn:E2;
    pose proof (updatePrivateBalance_transactions _ _ _ _ _ _ _ E2) as T2;
    [|left; simpl; congruence].
  destruct (In_signatures_dec (send_signature (now_signature c)) s2) as [Hin|Hout].
  - left. rewrite (recordTransaction_duplicate _ _ _ _ _ _ _ _ _ Hin). simpl. congruence.
  - right. rewrite (recordTransaction_fresh _ _ _ _ _ _ _ _ _ Hout). simpl.
    exists mint, a, rc, sd, r1, s1, r2, s2. eexists.
    repeat (split; [reflexivity|]).
    split; [exact E1|]. split; [exact E2|]. split; [reflexivity|].
    split; [rewrite T2, T1; reflexivity | repeat split].
Qed.

Lemma shield_log_after_ledger c req s :
  log_unchanged s (snd (post_shield_notify c req s))
  \/ exists mint a o r1 s1 t,
       present_string (tokenMint req) = Some mint
       /\ present_number (amount req) = Some a
       /\ present_string (owner req) = Some o
       /\ updatePrivateBalance o mint a true s = (Ok r1, s1)
       /\ private_balances (snd (post_shield_notify c req s)) = private_balances s1
       /\ log_extended_by t s (snd (post_shield_notify c req s))
       /\ tx_type t = shield /\ tx_owner t = o /\ tx_tokenMint t = mint
       /\ tx_amount t = a.
Proof.
  unfold log_unchanged, log_extended_by.
  destruct (present_string (txSignature req)) as [sig|] eqn:F1;
  [destruct (present_string (tokenMint req)) as [mint|] eqn:F2;
   [destruct (present_number (amount req)) as [a|] eqn:F3;
    [destruct (present_string (commitment req)) as [cm|] eqn:F4;
     [destruct (present_string (owner req)) as [o|] eqn:F5|]|]|]|];
  try (left; unfold post_shield_notify, handler;
       rewrite ?F1, ?F2, ?F3, ?F4, ?F5; reflexivity).
  rewrite (post_shield_notify_run _ _ _ _ _ _ _ _ F1 F2 F3 F4 F5).
  destruct (chain_getTransaction c sig) as [[|]|e0]; try (now left).
  destruct (updatePrivateBalance o mint a true s) as [[r1|e1] s1] eqn:E1;
    [|left; exact (updatePrivateBalance_transactions _ _ _ _ _ _ _ E1)].
  pose proof (updatePrivateBalance_transactions _ _ _ _ _ _ _ E1) as T1.
  destruct (updateTokenPoolShielded mint a s1) as [[u|e0] s2] eqn:E0;
    apply updateTokenPoolShielded_transactions in E0; destruct E0 as [T0 B0];
    [|left; simpl; congruence].
  destruct (In_signatures_dec sig s2) as [Hin|Hout].
  - left. rewrite (recordTransaction_duplicate _ _ _ _ _ _ _ _ _ Hin). simpl. congruence.
  - right. rewrite (recordTransaction_fresh _ _ _ _ _ _ _ _ _ Hout). simpl.
    exists mint, a, o, r1, s1. eexists.
    repeat (split; [reflexivity|]).
    split; [exact E1|]. split; [exact B0|].
    split; [rewrite T0, T1; reflexivity | repeat split].
Qed.

Lemma unshield_log_after_ledger c req s :
  log_unchanged s (snd (post_unshield c req s))
  \/ exists mint a sd r1 s1 t,
       present_string (tokenMint req) = Some mint
       /\ present_number (amount req) = Some a
       /\ present_string (sender req) = Some sd
       /\ updatePrivateBalance sd mint a false s = (Ok r1, s1)
       /\ private_balances (snd (post_unshield c req s)) = private_balances s1
       /\ log_extended_by t s (snd (post_unshield c req s))
       /\ tx_type t = unshield /\ tx_owner t = sd /\ tx_tokenMint t = mint
       /\ tx_amount t = a.
Proof.
  unfold log_unchanged, log_extended_by.
  destruct (present_string (tokenMint req)) as [mint|] eqn:F1;
  [destruct (present_number (amount req)) as [a|] eqn:F2;
   [destruct (present_string (recipient req)) as [rc|] eqn:F3;
    [destruct (present_string (proof req)) as [pf|] eqn:F4;
     [destruct (present_string (sender req)) as [sd|] eqn:F5|]|]|]|];
  try (left; unfold post_unshield, handler;
       rewrite ?F1, ?F2, ?F3, ?F4, ?F5; reflexivity).
  rewrite (post_unshield_run _ _ _ _ _ _ _ _ F1 F2 F3 F4 F5).
  destruct (updatePrivateBalance sd mint a false s) as [[r1|e1] s1] eqn:E1;
    [|left; exact (updatePrivateBalance_transactions _ _ _ _ _ _ _ E1)].
  pose proof (updatePrivateBalance_transactions _ _ _ _ _ _ _ E1) as T1.
  destruct (updateTokenPoolUnshielded mint a s1) as [[u|e0] s2] eqn:E0;
    apply updateTokenPoolUnshielded_transactions in E0; destruct E0 as [T0 B0];
    [|left; simpl; congruence].
  destruct (getOrCreateTokenPool c mint 0 _) as [[pool|e2] s3] eqn:E2;
    apply getOrCreateTokenPool_transactions in E2; simpl in E2; destruct E2 as [T2 B2];
    [|left; simpl; congruence].
  destruct (if negb (String.eqb mint "SOL")
            then resolve_token_accounts c mint (tp_poolAddress pool) rc
            else Ok tt) as [[]|e3]; [|left; simpl; congruence].
  destruct (In_signatures_dec (unshield_signature (now_signature c)) s3) as [Hin|Hout].
  - left. rewrite (recordTransaction_duplicate _ _ _ _ _ _ _ _ _ Hin). simpl. congruence.
  - right. rewrite (recordTransaction_fresh _ _ _ _ _ _ _ _ _ Hout). simpl.
    exists mint, a, sd, r1, s1. eexists.
    repeat (split; [reflexivity|]).
    split; [exact E1|]. split; [congruence|].
    split; [rewrite T2, T0, T1; reflexivity | repeat split].
Qed.

(** A send whose debit throws writes no log row. *)
Corollary failed_debit_leaves_log c req mint a sd e s1 s :
  present_string (tokenMint req) = Some mint ->
  present_number (amount req) = Some a ->
  present_string (sender req) = Some sd ->
  updatePrivateBalance sd mint a false s = (Err e, s1) ->
  log_unchanged s (snd (post_send c req s)).
Proof.
  intros F1 F2 F5 E.
  destruct (send_log_after_ledger c req s)
    as [H | (mint' & a' & rc & sd' & r1 & s1' & r2 & s2 & t & G1 & G2 & _ & G5 & E1 & _)];
    [exact H|].
  congruence.
Qed.

(** C6. In [/shield/notify], [/send] and [/unshield] the ledger mutation
    comes before the log write: either the request leaves the log as it
    was, or it appends exactly one row and then the ledger mutation of that
    very request (both of them, for a send) had resolved on the state the
    request started from, and the balances the request leaves are those the
    mutation wrote. In particular a request whose ledger mutation throws
    leaves the log as it was. *)
Theorem ledger_mutation_precedes_log (c : Collaborators) (req : Body) (s : Db) :
  (log_unchanged s (snd (post_shield_notify c req s))
   \/ exists mint a o r1 s1 t,
        present_string (tokenMint req) = Some mint
        /\ present_number (amount req) = Some a
        /\ present_string (owner req) = Some o
        /\ updatePrivateBalance o mint a true s = (Ok r1, s1)
        /\ private_balances (snd (post_shield_notify c req s)) = private_balances s1
        /\ log_extended_by t s (snd (post_shield_notify c req s))
        /\ tx_type t = shield /\ tx_owner t = o /\ tx_tokenMint t = mint
        /\ tx_amount t = a)
  /\ (log_unchanged s (snd (post_send c req s))
      \/ exists mint a rc sd r1 s1 r2 s2 t,
           present_string (tokenMint req) = Some mint
           /\ present_number (amount req) = Some a
           /\ present_string (recipient req) = Some rc
           /\ present_string (sender req) = Some sd
           /\ updatePrivateBalance sd mint a false s = (Ok r1, s1)
           /\ updatePrivateBalance rc mint a true s1 = (Ok r2, s2)
           /\ private_balances (snd (post_send c req s)) = private_balances s2
           /\ log_extended_by t s (snd (post_send c req s))
           /\ tx_type t = send /\ tx_owner t = sd /\ tx_tokenMint t = mint
           /\ tx_amount t = a /\ tx_recipient t = Some rc)
  /\ (log_unchanged s (snd (post_unshield c req s))
      \/ exists mint a sd r1 s1 t,
           present_string (tokenMint req) = Some mint
           /\ present_number (amount req) = Some a
           /\ present_string (sender req) = Some sd
           /\ updatePrivateBalance sd mint a false s = (Ok r1, s1)
           /\ private_balances (snd (post_unshield c req s)) = private_balances s1
           /\ log_extended_by t s (snd (post_unshield c req s))
           /\ tx_type t = unshield /\ tx_owner t = sd /\ tx_tokenMint t = mint
           /\ tx_amount t = a).
Proof.
  split; [apply shield_log_after_ledger|].
  split; [apply send_log_after_ledger | apply unshield_log_after_ledger].
Qed.

End LedgerBeforeLog.

(** ** What an accepted send does to the two balances *)

Section Send.
Import DbService.
Import Relayer.

Lemma stored_balance_ext o m s s' :
  private_balances s' = private_balances s -> stored_balance o m s' = stored_balance o m s.
Proof. intros H. rewrite !stored_balance_eq. now rewrite H. Qed.

Lemma recordTransaction_ok now o ty m sym a sig rc row s s' :
  recordTransaction now o ty m sym a sig rc s = (Ok row, s') ->
  In sig (signatures s')
  /\ private_balances s' = private_balances s
  /\ tx_signature row = sig.
Proof.
  intros H. destruct (In_signatures_dec sig s) as [Hin|Hout].
  - rewrite (recordTransaction_duplicate _ _ _ _ _ _ _ _ _ Hin) in H. discriminate.
  - rewrite (recordTransaction_fresh _ _ _ _ _ _ _ _ _ Hout) in H.
    injection H as <- <-. simpl. unfold signatures. simpl.
    rewrite map_app, in_app_iff. simpl. auto.
Qed.

(** An accepted send, taken apart: the fields were present, the two ledger
    calls and the log write resolved in that order. *)
Lemma post_send_accepted c req s res s' :
  post_send c req s = (res, s') ->
  accepted res = true ->
  exists mint a rc sd r1 s1 r2 s2 row,
    present_string (tokenMint req) = Some mint
    /\ present_number (amount req) = Some a
    /\ present_string (recipient req) = Some rc
    /\ present_string (sender req) = Some sd
    /\ updatePrivateBalance sd mint a false s = (Ok r1, s1)
    /\ updatePrivateBalance rc mint a true s1 = (Ok r2, s2)
    /\ recordTransaction (now_record c) sd send mint (symbol_at mint s2) a
         (send_signature (now_signature c)) (Some rc) s2 = (Ok row, s')
    /\ res = mkResponse 200 (signature_json (send_signature (now_signature c))).
Proof.
  intros H Hacc.
  destruct (present_string (tokenMint req)) as [mint|] eqn:F1;
  [destruct (present_number (amount req)) as [a|] eqn:F2;
   [destruct (present_string (recipient req)) as [rc|] eqn:F3;
    [destruct (present_string (proof req)) as [pf|] eqn:F4;
     [destruct (present_string (sender req)) as [sd|] eqn:F5|]|]|]|];
  try (unfold post_send, handler in H; rewrite ?F1, ?F2, ?F3, ?F4, ?F5 in H;
       injection H as <- <-; discriminate).
  rewrite (post_send_run _ _ _ _ _ _ _ _ F1 F2 F3 F4 F5) in H.
  destruct (updatePrivateBalance sd mint a false s) as [[r1|e1] s1] eqn:E1;
    [|injection H as <- <-; discriminate].
  destruct (updatePrivateBalance rc mint a true s1) as [[r2|e2] s2] eqn:E2;
    [|injection H as <- <-; discriminate].
  destruct (recordTransaction _ _ _ _ _ _ _ _ s2) as [[row|e3] s3] eqn:E3;
    [|injection H as <- <-; discriminate].
  injection H as <- <-.
  exists mint, a, rc, sd, r1, s1, r2, s2, row. auto 10.
Qed.

(** C8, as stated, fails: a send whose recipient is the sender is accepted
    and leaves the balance where it was. *)
Lemma send_to_self_keeps_balance :
  let req := mkBody None (Some "SOL") (Some 30) None None (Some "alice") (Some "proof")
               (Some "alice") None None in
  accepted (fst (post_send sample_collaborators req alice_100)) = true
  /\ stored_balance "alice" "SOL" alice_100 = Some 100
  /\ stored_balance "alice" "SOL" (snd (post_send sample_collaborators req alice_100))
     = Some 100.
Proof. vm_compute. repeat split. Qed.

(** Between two owners the amounts moved are those of double arithmetic:
    a holder of 0.3 who sends 0.1 to a holder of 0.2 is left with
    0.19999999999999998, and the recipient holds 0.30000000000000004. *)
Example send_is_rounded :
  let s := mkDb [] [mkPrivateBalance 1 "alice" "SOL" 300000000000000000 0;
                    mkPrivateBalance 2 "bob" "SOL" 200000000000000000 0] [] 1 3 1 in
  let req := mkBody None (Some "SOL") (Some 100000000000000000) None None (Some "bob")
               (Some "proof") (Some "alice") None None in
  accepted (fst (post_send sample_collaborators req s)) = true
  /\ recorded_balance "alice" "SOL" (snd (post_send sample_collaborators req s))
     = Some 199999999999999980
  /\ recorded_balance "bob" "SOL" (snd (post_send sample_collaborators req s))
     = Some 300000000000000040.
Proof. vm_compute. repeat split. Qed.

(** C8, amended. After an accepted send of an amount (a JSON number) of a
    token between two different owners, the table holds for the sender
    the double difference of the balance and the amount, as the column
    keeps it, and for the recipient the double sum of the balance and the
    amount, or the amount itself when the recipient had no record. After
    an accepted send to oneself the table holds what crediting the
    amount to the debited balance gives. No other record is touched. The
    differences and sums are those of the amounts only up to the rounding
    of doubles. *)
Theorem accepted_send_moves_amount c req s res s' :
  post_send c req s = (res, s') ->
  accepted res = true ->
  exists mint a sd rc b v,
    present_string (tokenMint req) = Some mint
    /\ present_number (amount req) = Some a
    /\ present_string (sender req) = Some sd
    /\ present_string (recipient req) = Some rc
    /\ recorded_balance sd mint s = Some b
    /\ Numbers.to_units
         (Numbers.sub (Numbers.parseFloat b) (Numbers.parseFloat a)) = Some v
    /\ (sd <> rc ->
        recorded_balance sd mint s' = Some v
        /\ recorded_balance rc mint s'
           = match recorded_balance rc mint s with
             | Some x =>
                 Numbers.to_units
                   (Numbers.add (Numbers.parseFloat x) (Numbers.parseFloat a))
             | None => Some a
             end)
    /\ (sd = rc ->
        recorded_balance sd mint s'
        = Numbers.to_units (Numbers.add (Numbers.parseFloat v) (Numbers.parseFloat a)))
    /\ (forall o m, (o, m) <> (sd, mint) -> (o, m) <> (rc, mint) ->
          recorded_balance o m s' = recorded_balance o m s).
Proof.
  intros H Hacc.
  destruct (post_send_accepted _ _ _ _ _ H Hacc)
    as (mint & a & rc & sd & r1 & s1 & r2 & s2 & row & F1 & F2 & F3 & F5 & E1 & E2 & E3 & _).
  destruct (stored_balance sd mint s) as [b|] eqn:Hb;
    [|rewrite (debit_unknown _ _ _ _ Hb) in E1; discriminate].
  pose proof (updatePrivateBalance_ok _ _ _ _ _ _ _ E1) as [B1 D1].
  pose proof (updatePrivateBalance_frame _ _ _ _ _ _ _ E1) as [O1 _].
  pose proof (updatePrivateBalance_ok _ _ _ _ _ _ _ E2) as [B2 D2].
  pose proof (updatePrivateBalance_frame _ _ _ _ _ _ _ E2) as [O2 _].
  apply recordTransaction_ok in E3. destruct E3 as (_ & P3 & _).
  rewrite Hb in D1. unfold debited, new_balance in D1. unfold credited, new_balance in D2.
  exists mint, a, sd, rc, b, (pb_balance r1).
  repeat (split; [assumption|]).
  split; [now rewrite recorded_balance_eq|]. split; [exact D1|].
  split; [|split].
  - intros Hne. rewrite !recorded_balance_eq.
    rewrite !(stored_balance_ext _ _ _ _ P3).
    rewrite O2 by congruence. split; [exact B1|].
    rewrite B2, <- D2. now rewrite O1 by congruence.
  - intros <-. rewrite recorded_balance_eq, (stored_balance_ext _ _ _ _ P3).
    rewrite B2, <- D2. now rewrite B1.
  - intros o m N1 N2. rewrite !recorded_balance_eq, (stored_balance_ext _ _ _ _ P3).
    now rewrite O2, O1.
Qed.

Lemma accepted_send_moves_amount_witness :
  exists mint a sd rc b v,
    present_string (tokenMint send_alice_bob) = Some mint
    /\ present_number (amount send_alice_bob) = Some a
    /\ present_string (sender send_alice_bob) = Some sd
    /\ present_string (recipient send_alice_bob) = Some rc
    /\ recorded_balance sd mint alice_100 = Some b
    /\ Numbers.to_units
         (Numbers.sub (Numbers.parseFloat b) (Numbers.parseFloat a)) = Some v
    /\ (sd <> rc ->
        recorded_balance sd mint
          (snd (post_send sample_collaborators send_alice_bob alice_100)) = Some v
        /\ recorded_balance rc mint
             (snd (post_send sample_collaborators send_alice_bob alice_100))
           = match recorded_balance rc mint alice_100 with
             | Some x =>
                 Numbers.to_units
                   (Numbers.add (Numbers.parseFloat x) (Numbers.parseFloat a))
             | None => Some a
             end)
    /\ (sd = rc ->
        recorded_balance sd mint
          (snd (post_send sample_collaborators send_alice_bob alice_100))
        = Numbers.to_units (Numbers.add (Numbers.parseFloat v) (Numbers.parseFloat a)))
    /\ (forall o m, (o, m) <> (sd, mint) -> (o, m) <> (rc, mint) ->
          recorded_balance o m
            (snd (post_send sample_collaborators send_alice_bob alice_100))
          = recorded_balance o m alice_100).
Proof.
  apply (accepted_send_moves_amount sample_collaborators send_alice_bob alice_100
           (fst (post_send sample_collaborators send_alice_bob alice_100))
           (snd (post_send sample_collaborators send_alice_bob alice_100))).
  - vm_compute. reflexivity.
  - vm_compute. reflexivity.
Defined.

Example send_alice_bob_balances :
  let s' := snd (post_send sample_collaborators send_alice_bob alice_100) in
  stored_balance "alice" "SOL" s' = Some 70 /\ stored_balance "bob" "SOL" s' = Some 30.
Proof. vm_compute. split; reflexivity. Qed.

End Send.

(** ** Listing transactions *)

Section Listing.
Import DbService.

Lemma insert_desc_In t x l : In x (Store.insert_desc t l) <-> x = t \/ In x l.
Proof.
  induction l as [|y l IH]; simpl.
  - split; intros [H|H]; auto.
  - destruct (tx_timestamp t <? tx_timestamp y); simpl; [rewrite IH|]; intuition.
Qed.

Lemma order_by_timestamp_desc_In x l : In x (Store.order_by_timestamp_desc l) <-> In x l.
Proof.
  induction l as [|y l IH]; simpl; [tauto|].
  rewrite insert_desc_In, IH. intuition.
Qed.

Lemma insert_desc_sorted t l : descending l -> descending (Store.insert_desc t l).
Proof.
  unfold descending. induction l as [|x l IH]; simpl; intros H.
  - repeat constructor.
  - destruct (Z.ltb_spec (tx_timestamp t) (tx_timestamp x)) as [Hlt|Hge].
    + inversion H as [|? ? Hs Hh]; subst. constructor; [now apply IH|].
      destruct l as [|y l]; simpl.
      * constructor. lia.
      * destruct (tx_timestamp t <? tx_timestamp y); constructor; [|lia].
        now inversion Hh.
    + constructor; [exact H|]. constructor. lia.
Qed.

Lemma order_by_timestamp_desc_sorted l : descending (Store.order_by_timestamp_desc l).
Proof.
  induction l as [|x l IH]; simpl; [constructor | now apply insert_desc_sorted].
Qed.

Lemma firstn_sorted n l : descending l -> descending (firstn n l).
Proof.
  unfold descending. revert l. induction n as [|n IH]; intros l H; simpl; [constructor|].
  destruct l as [|x l]; [constructor|].
  inversion H as [|? ? Hs Hh]; subst. constructor; [now apply IH|].
  destruct n, l; simpl; constructor. now inversion Hh.
Qed.

Lemma firstn_subset (n : nat) (l : list Transaction) x : In x (firstn n l) -> In x l.
Proof.
  revert l. induction n as [|n IH]; intros [|y l]; simpl; try tauto.
  intros [H|H]; [now left | right; now apply IH].
Qed.

Lemma select_transactions_spec cond limit s :
  exists l,
    try_catch (Store.select_transactions cond limit) (fun _ => ret []) s = (Ok l, s)
    /\ Z.of_nat (List.length l) <= Z.max 0 limit
    /\ descending l
    /\ Forall (fun t => In t (transactions s) /\ cond t = true) l.
Proof.
  unfold try_catch, Store.select_transactions, ret.
  destruct (Z.ltb_spec limit 0) as [Hneg|Hpos].
  - exists []. repeat split; [simpl; lia | constructor | constructor].
  - destruct (2 ^ 63 <=? limit).
    { exists []. repeat split; [simpl List.length; lia | constructor | constructor]. }
    eexists. split; [reflexivity|]. split; [|split].
    + pose proof (firstn_le_length (Z.to_nat limit)
                    (Store.order_by_timestamp_desc (filter cond (transactions s)))).
      lia.
    + apply firstn_sorted, order_by_timestamp_desc_sorted.
    + apply Forall_forall. intros t Ht. apply firstn_subset in Ht.
      apply (proj1 (order_by_timestamp_desc_In _ _)) in Ht.
      apply (proj1 (filter_In _ _ _)) in Ht. exact Ht.
Qed.

(** C9, as stated, fails: two rows recorded for one owner within the same
    millisecond are both listed, and their timestamps do not decrease
    strictly. *)
Lemma listing_with_equal_timestamps :
  getTransactions "alice" None None same_millisecond_log
  = (Ok [mkTransaction 1 "alice" shield "SOL" "SOL" 100 1700000000000 None "sig-1";
         mkTransaction 2 "alice" shield "SOL" "SOL" 5 1700000000000 None "sig-2"],
     same_millisecond_log)
  /\ ~ strictly_descending
         [mkTransaction 1 "alice" shield "SOL" "SOL" 100 1700000000000 None "sig-1";
          mkTransaction 2 "alice" shield "SOL" "SOL" 5 1700000000000 None "sig-2"].
Proof.
  split; [reflexivity|].
  intros H. inversion H as [|? ? _ Hh]; subst.
  inversion Hh as [|? ? Hgt]; subst. simpl in Hgt. lia.
Qed.

(** C9, amended. [getTransactions] always resolves, without touching the
    database, to rows of the log that all carry the given owner and, when a
    non-empty mint is given, that mint; their timestamps never increase
    along the list (equal timestamps may follow one another); and there are
    at most [limit] of them, 50 standing in for a limit not supplied, and
    none when the limit is negative. *)
Theorem getTransactions_listing (owner : string) (tokenMint : option string)
    (limit : option Z) (s : Db) :
  exists l,
    getTransactions owner tokenMint limit s = (Ok l, s)
    /\ Z.of_nat (List.length l)
       <= Z.max 0 (match limit with Some n => n | None => 50 end)
    /\ descending l
    /\ Forall (matches owner tokenMint) l
    /\ Forall (fun t => In t (transactions s)) l.
Proof.
  unfold getTransactions, default_limit.
  set (n := match limit with Some n => n | None => 50 end).
  destruct tokenMint as [mint|]; [destruct (truthy_string (Some mint)) eqn:Ht|].
  - destruct (select_transactions_spec
                (fun r => String.eqb (tx_owner r) owner && String.eqb (tx_tokenMint r) mint)
                n s) as (l & E & Hlen & Hsort & Hall).
    exists l. rewrite E. repeat split; auto.
    + apply Forall_impl with (2 := Hall). intros t [_ Hc].
      apply andb_true_iff in Hc. destruct Hc as [Ho Hm].
      apply String.eqb_eq in Ho, Hm. split; [exact Ho|].
      intros m' [= <-] _. exact Hm.
    + apply Forall_impl with (2 := Hall). now intros t [Hin _].
  - destruct (select_transactions_spec (fun r => String.eqb (tx_owner r) owner) n s)
      as (l & E & Hlen & Hsort & Hall).
    exists l. rewrite E. repeat split; auto.
    + apply Forall_impl with (2 := Hall). intros t [_ Hc].
      apply String.eqb_eq in Hc. split; [exact Hc|].
      intros m' [= <-] Hne. simpl in Ht. apply negb_false_iff, String.eqb_eq in Ht.
      contradiction.
    + apply Forall_impl with (2 := Hall). now intros t [Hin _].
  - destruct (select_transactions_spec (fun r => String.eqb (tx_owner r) owner) n s)
      as (l & E & Hlen & Hsort & Hall).
    exists l. rewrite E. repeat split; auto.
    + apply Forall_impl with (2 := Hall). intros t [_ Hc].
      apply String.eqb_eq in Hc. split; [exact Hc|]. discriminate.
    + apply Forall_impl with (2 := Hall). now intros t [Hin _].
Qed.

Example listing_respects_limit :
  fst (getTransactions "alice" (Some "SOL") (Some 1) same_millisecond_log)
  = Ok [mkTransaction 1 "alice" shield "SOL" "SOL" 100 1700000000000 None "sig-1"].
Proof. reflexivity. Qed.

Example listing_negative_limit :
  fst (getTransactions "alice" None (Some (-1)) same_millisecond_log) = Ok [].
Proof. reflexivity. Qed.

End Listing.

(** ** Simulated signatures *)

Section SimulatedSignatures.
Import DbService.
Import Relayer.




Example second_send_has_debited_again :
  let s1 := snd (post_send sample_collaborators send_alice_bob alice_100) in
  let s2 := snd (post_send sample_collaborators send_alice_bob s1) in
  stored_balance "alice" "SOL" s1 = Some 70
  /\ stored_balance "alice" "SOL" s2 = Some 40
  /\ stored_balance "bob" "SOL" s2 = Some 60
  /\ List.length (transactions s2) = 1%nat.
Proof. vm_compute. repeat split. Qed.

End SimulatedSignatures.

(** ** Two debits at once *)

Section Race.
Import DbService.
Import Interleaving.

(** A task that takes its two steps with nothing in between is the call. *)
Lemma step_step_is_call o m a add s :
  let (t1, s1) := step (Called o m a add) s in
  step t1 s1
  = (Settled (fst (updatePrivateBalance o m a add s)),
     snd (updatePrivateBalance o m a add s)).
Proof.
  unfold step, updatePrivateBalance, bind. rewrite getPrivateBalance_eq.
  destruct (updatePrivateBalance_write o m a add _ s) as [[rows|e] s']; simpl;
    [|reflexivity].
  destruct (first_row rows s'); reflexivity.
Qed.

Lemma hd_filter_exists o m row l :
  hd_error (filter (Store.balance_at o m) l) = Some row ->
  existsb (Store.balance_at o m) l = true.
Proof.
  induction l as [|r l IH]; simpl; [discriminate|].
  destruct (Store.balance_at o m r); [reflexivity | exact IH].
Qed.

Lemma write_on_record o m nb v row s :
  hd_error (filter (Store.balance_at o m) (private_balances s)) = Some row ->
  Numbers.to_units nb = Some v ->
  (result <- Store.update_balance o m nb ;; first_row result) s
  = (Ok (Store.set_balance o m v row),
     mkDb (token_pools s) (map (Store.set_balance o m v) (private_balances s))
          (transactions s)
          (token_pools_id_seq s) (private_balances_id_seq s) (transactions_id_seq s)).
Proof.
  intros H Hu. unfold bind, Store.update_balance.
  rewrite (hd_filter_exists _ _ _ _ H), Hu, filter_set_balance.
  destruct (filter (Store.balance_at o m) (private_balances s)) as [|r l];
    [discriminate|].
  injection H as ->. reflexivity.
Qed.

Lemma step_called o m a add s :
  step (Called o m a add) s
  = (Fetched o m a add (hd_error (filter (Store.balance_at o m) (private_balances s))), s).
Proof. unfold step. now rewrite getPrivateBalance_eq. Qed.

(** The write of a call that has read a record, whatever the record holds
    by now: the new balance is computed from what was read. *)
Lemma step_fetched_existing o m a (add : bool) read v row s :
  Numbers.negative (new_balance (pb_balance read) a add) = false ->
  Numbers.to_units (new_balance (pb_balance read) a add) = Some v ->
  hd_error (filter (Store.balance_at o m) (private_balances s)) = Some row ->
  step (Fetched o m a add (Some read)) s
  = (Settled (Ok (Store.set_balance o m v row)),
     mkDb (token_pools s) (map (Store.set_balance o m v) (private_balances s))
          (transactions s)
          (token_pools_id_seq s) (private_balances_id_seq s) (transactions_id_seq s)).
Proof.
  intros Hneg Hu H. unfold step.
  change (updatePrivateBalance_write o m a add (Some read))
    with (if Numbers.negative (new_balance (pb_balance read) a add)
          then throw InsufficientBalance
          else Store.update_balance o m (new_balance (pb_balance read) a add)).
  rewrite Hneg. now rewrite (write_on_record _ _ _ _ _ _ H Hu).
Qed.

Lemma hd_filter_set_balance o m v row s :
  hd_error (filter (Store.balance_at o m) (private_balances s)) = Some row ->
  hd_error (filter (Store.balance_at o m) (map (Store.set_balance o m v) (private_balances s)))
  = Some (Store.set_balance o m v row).
Proof.
  intros H. rewrite filter_set_balance.
  destruct (filter (Store.balance_at o m) (private_balances s)) as [|r l];
    [discriminate|].
  injection H as ->. reflexivity.
Qed.

(** When both calls read before either writes, both debits of the full
    balance resolve: each computes its new balance from the balance it
    read. *)
Lemma full_debits_interleaved o m b v s :
  stored_balance o m s = Some b ->
  Numbers.negative (new_balance b b false) = false ->
  Numbers.to_units (new_balance b b false) = Some v ->
  let (tasks, s') := run [0; 1; 0; 1]%nat [Called o m b false; Called o m b false] s in
  forallb succeeded tasks = true /\ stored_balance o m s' = Some v.
Proof.
  intros Hb Hneg Hu. pose proof Hb as Hrow. rewrite stored_balance_eq in Hrow.
  destruct (hd_error (filter (Store.balance_at o m) (private_balances s)))
    as [row|] eqn:Hhd; [|discriminate].
  simpl in Hrow. injection Hrow as <-.
  cbn [run step_at]. rewrite !step_called, Hhd.
  rewrite (step_fetched_existing _ _ _ _ _ _ _ _ Hneg Hu Hhd).
  rewrite (step_fetched_existing o m (pb_balance row) false row v
             (Store.set_balance o m v row) _ Hneg Hu).
  - split; [reflexivity|].
    erewrite stored_balance_set_same; [reflexivity|].
    exact (stored_balance_set_same _ _ v _ _ (token_pools s) (transactions s)
             (token_pools_id_seq s) (private_balances_id_seq s) (transactions_id_seq s) Hb).
  - cbn [private_balances]. now apply hd_filter_set_balance.
Qed.

(** The same two calls, one after the other: the second computes its new
    balance from what the first left. *)
Lemma full_debits_in_turn o m b v s :
  stored_balance o m s = Some b ->
  Numbers.negative (new_balance b b false) = false ->
  Numbers.to_units (new_balance b b false) = Some v ->
  Numbers.negative (new_balance v b false) = true ->
  let (tasks, s') := run [0; 0; 1; 1]%nat [Called o m b false; Called o m b false] s in
  exists row, tasks = [Settled (Ok row); Settled (Err InsufficientBalance)]
              /\ stored_balance o m s' = Some v.
Proof.
  intros Hb Hneg Hu Hneg'.
  destruct (update_existing _ _ _ false _ _ _ Hb Hneg Hu) as (row & E & _).
  pose proof (step_step_is_call o m b false s) as S1.
  unfold run, step_at.
  destruct (step (Called o m b false) s) as [t1 s1]. rewrite S1, E. simpl fst. simpl snd.
  match goal with
  | |- context [step (Called o m b false) ?st] =>
      assert (Hb' : stored_balance o m st = Some v)
        by exact (stored_balance_set_same _ _ v _ _ _ _ _ _ _ Hb);
      pose proof (step_step_is_call o m b false st) as S2;
      destruct (step (Called o m b false) st) as [t2 s2]
  end.
  rewrite S2.
  rewrite (update_insufficient _ _ _ false _ _ Hb' Hneg'). simpl.
  exists row. split; [reflexivity | exact Hb'].
Qed.

(** C1, at the schedule where the code departs from it. Two debits of 100
    against a balance of 100, each reading before either writes: both
    resolve, and the balance ends at 0. Run one after the other, the second
    fails with [InsufficientBalance]. *)
Theorem concurrent_full_debits_both_succeed :
  run [0; 1; 0; 1]%nat
      [Called "alice" "SOL" 100 false; Called "alice" "SOL" 100 false] alice_100
  = ([Settled (Ok (mkPrivateBalance 1 "alice" "SOL" 0 0));
      Settled (Ok (mkPrivateBalance 1 "alice" "SOL" 0 0))],
     mkDb [] [mkPrivateBalance 1 "alice" "SOL" 0 0] [] 1 2 1)
  /\ run [0; 0; 1; 1]%nat
         [Called "alice" "SOL" 100 false; Called "alice" "SOL" 100 false] alice_100
     = ([Settled (Ok (mkPrivateBalance 1 "alice" "SOL" 0 0));
         Settled (Err InsufficientBalance)],
        mkDb [] [mkPrivateBalance 1 "alice" "SOL" 0 0] [] 1 2 1).
Proof. split; vm_compute; reflexivity. Qed.

End Race.

(** * Further properties of the code *)

(** ** The pool registry *)

Section PoolRegistry.
Import DbService.
Import Relayer.

Lemma stored_pool_none_iff m s :
  stored_pool m s = None <-> existsb (Store.pool_at m) (token_pools s) = false.
Proof.
  rewrite stored_pool_eq.
  induction (token_pools s) as [|r l IH]; simpl; [tauto|].
  destruct (Store.pool_at m r); simpl; [split; discriminate | exact IH].
Qed.

Lemma pool_at_neq m m' r :
  m' <> m -> Store.pool_at m r = true -> Store.pool_at m' r = false.
Proof.
  unfold Store.pool_at. intros Hne H. apply String.eqb_eq in H.
  apply String.eqb_neq. congruence.
Qed.

Lemma createTokenPool_new m d addr s :
  stored_pool m s = None ->
  createTokenPool m d addr s
  = (Ok (mkTokenPool (token_pools_id_seq s) m d addr 0 0),
     mkDb (token_pools s ++ [mkTokenPool (token_pools_id_seq s) m d addr 0 0])
          (private_balances s) (transactions s)
          (token_pools_id_seq s + 1) (private_balances_id_seq s) (transactions_id_seq s)).
Proof.
  intros H. apply stored_pool_none_iff in H.
  unfold createTokenPool, bind, Store.insert_pool. now rewrite H.
Qed.

Lemma stored_pool_after_insert m row m' s pb txs q1 q2 q3 :
  tp_tokenMint row = m ->
  stored_pool m' (mkDb (token_pools s ++ [row]) pb txs q1 q2 q3)
  = match stored_pool m' s with
    | Some p => Some p
    | None => if String.eqb m m' then Some row else None
    end.
Proof.
  intros Hrow. rewrite !stored_pool_eq. simpl. rewrite filter_app. simpl.
  unfold Store.pool_at at 2. rewrite Hrow.
  destruct (filter (Store.pool_at m') (token_pools s)) as [|p l]; simpl.
  - destruct (String.eqb m m'); reflexivity.
  - reflexivity.
Qed.

(** X1. Creating a pool for a mint that has none, with decimals within
    the range of the INTEGER column, resolves to a record with the given
    mint, decimals and address and both totals at 0; from then on
    [getTokenPool] returns that record and [tokenPoolExists] answers true,
    while the pool recorded for any other mint is what it was. *)
Theorem createTokenPool_then_lookup m d addr s :
  recorded_pool m s = None ->
  - 2 ^ 31 <= d < 2 ^ 31 ->
  exists row s',
    createTokenPool m d addr s = (Ok row, s')
    /\ tp_tokenMint row = m /\ tp_decimals row = d /\ tp_poolAddress row = addr
    /\ tp_totalShielded row = 0 /\ tp_totalUnshielded row = 0
    /\ getTokenPool m s' = (Ok (Some row), s')
    /\ tokenPoolExists m s' = (Ok true, s')
    /\ forall m', m' <> m -> recorded_pool m' s' = recorded_pool m' s.
Proof.
  rewrite recorded_pool_eq.
  intros H _. eexists. eexists. split; [exact (createTokenPool_new _ d addr _ H)|].
  repeat (split; [reflexivity|]).
  assert (Hf : filter (Store.pool_at m)
                 (token_pools s ++ [mkTokenPool (token_pools_id_seq s) m d addr 0 0])
               = [mkTokenPool (token_pools_id_seq s) m d addr 0 0]).
  { rewrite filter_app. rewrite stored_pool_eq in H.
    destruct (filter (Store.pool_at m) (token_pools s)); [|discriminate].
    simpl. unfold Store.pool_at. simpl. now rewrite String.eqb_refl. }
  split; [|split].
  - rewrite getTokenPool_eq. simpl. now rewrite Hf.
  - unfold tokenPoolExists, try_catch, bind, Store.select_pools. simpl. now rewrite Hf.
  - intros m' Hne. rewrite !recorded_pool_eq.
    rewrite (stored_pool_after_insert m) by reflexivity.
    destruct (stored_pool m' s); [reflexivity|].
    destruct (String.eqb_spec m m'); [congruence | reflexivity].
Qed.

Lemma createTokenPool_then_lookup_witness :
  exists row s',
    createTokenPool "USDC" 6 "pool-USDC" two_owners = (Ok row, s')
    /\ tp_tokenMint row = "USDC" /\ tp_decimals row = 6 /\ tp_poolAddress row = "pool-USDC"
    /\ tp_totalShielded row = 0 /\ tp_totalUnshielded row = 0
    /\ getTokenPool "USDC" s' = (Ok (Some row), s')
    /\ tokenPoolExists "USDC" s' = (Ok true, s')
    /\ forall m', m' <> "USDC" -> recorded_pool m' s' = recorded_pool m' two_owners.
Proof.
  apply (createTokenPool_then_lookup "USDC" 6 "pool-USDC" two_owners).
  - reflexivity.
  - split; [vm_compute; discriminate | vm_compute; reflexivity].
Defined.



Lemma getOrCreateTokenPool_existing c m d p s :
  stored_pool m s = Some p -> getOrCreateTokenPool c m d s = (Ok p, s).
Proof.
  rewrite stored_pool_eq. intros H.
  unfold getOrCreateTokenPool, bind. rewrite getTokenPool_eq, H. reflexivity.
Qed.

Lemma getOrCreateTokenPool_resolved c m d p s s1 :
  getOrCreateTokenPool c m d s = (Ok p, s1) -> stored_pool m s1 = Some p.
Proof.
  intros H. destruct (stored_pool m s) as [q|] eqn:Hq.
  - rewrite (getOrCreateTokenPool_existing _ _ _ _ _ Hq) in H.
    injection H as <- <-. exact Hq.
  - pose proof Hq as Hq'. rewrite stored_pool_eq in Hq'.
    unfold getOrCreateTokenPool, bind, await in H. rewrite getTokenPool_eq, Hq' in H.
    destruct (findProgramAddress c m) as [addr|e]; [|discriminate].
    rewrite (createTokenPool_new _ _ _ _ Hq) in H. injection H as <- <-.
    rewrite (stored_pool_after_insert m) by reflexivity.
    now rewrite Hq, String.eqb_refl.
Qed.

End PoolRegistry.

(** ** What every call keeps *)

Section CallInvariants.
Import DbService.

Lemma stored_pool_ext m s s' :
  token_pools s' = token_pools s -> stored_pool m s' = stored_pool m s.
Proof. intros H. rewrite !stored_pool_eq. now rewrite H. Qed.

Lemma no_balance_key o m l :
  existsb (Store.balance_at o m) l = false ->
  ~ In (o, m) (map (fun r => (pb_owner r, pb_tokenMint r)) l).
Proof.
  intros H Hin. apply in_map_iff in Hin. destruct Hin as (r & Hk & Hr).
  assert (E : existsb (Store.balance_at o m) l = true).
  { apply existsb_exists. exists r. split; [exact Hr|].
    injection Hk as <- <-. unfold Store.balance_at. now rewrite !String.eqb_refl. }
  congruence.
Qed.

Lemma no_pool_mint m l :
  existsb (Store.pool_at m) l = false -> ~ In m (map tp_tokenMint l).
Proof.
  intros H Hin. apply in_map_iff in Hin. destruct Hin as (r & Hk & Hr).
  assert (E : existsb (Store.pool_at m) l = true).
  { apply existsb_exists. exists r. split; [exact Hr|].
    unfold Store.pool_at. rewrite Hk. apply String.eqb_refl. }
  congruence.
Qed.

Lemma NoDup_snoc {A} (l : list A) x : NoDup l -> ~ In x l -> NoDup (l ++ [x]).
Proof.
  intros Hl Hx. apply NoDup_app; [exact Hl | repeat constructor; intros [] |].
  intros y Hy [<-|[]]. contradiction.
Qed.

Lemma keys_after_set_balance o m nb l :
  map (fun r => (pb_owner r, pb_tokenMint r)) (map (Store.set_balance o m nb) l)
  = map (fun r => (pb_owner r, pb_tokenMint r)) l.
Proof.
  rewrite map_map. apply map_ext. intros r. unfold Store.set_balance.
  now destruct (Store.balance_at o m r).
Qed.

Lemma mints_after_map (f : TokenPool -> TokenPool) l :
  (forall r, tp_tokenMint (f r) = tp_tokenMint r) ->
  map tp_tokenMint (map f l) = map tp_tokenMint l.
Proof. intros Hf. rewrite map_map. now apply map_ext. Qed.

Lemma updatePrivateBalance_keys o m a (add : bool) s :
  NoDup (balance_keys s) ->
  NoDup (balance_keys (snd (updatePrivateBalance o m a add s))).
Proof.
  unfold balance_keys. intros H.
  destruct (updatePrivateBalance_cases o m a add s)
    as [(_ & _ & E) | [(_ & _ & _ & E) | [(Hb & -> & _ & E) | [(b & _ & _ & E)
       | [(b & _ & _ & _ & E) | (b & v & r & Hb & _ & _ & E & _)]]]]];
    rewrite E; simpl; try exact H.
  - rewrite map_app. simpl. apply NoDup_snoc; [exact H|].
    apply no_balance_key. now apply stored_balance_none_iff.
  - now rewrite keys_after_set_balance.
Qed.

Lemma perform_keys_unique c s : keys_unique s -> keys_unique (perform c s).
Proof.
  unfold keys_unique, pool_mints. intros [Hp Hb].
  destruct c as [m d a | m a | m a | o m a b | n o t m y a g r]; simpl.
  - unfold createTokenPool, bind, Store.insert_pool.
    destruct (existsb (Store.pool_at m) (token_pools s)) eqn:E; simpl.
    + now split.
    + split; [|exact Hb]. rewrite map_app. simpl.
      apply NoDup_snoc; [exact Hp | now apply no_pool_mint].
  - destruct (updateTokenPoolShielded_cases m a s) as [-> | ->]; simpl; [|now split].
    split; [|exact Hb]. rewrite mints_after_map; [exact Hp|].
    intros r. unfold Store.add_shielded. now destruct (Store.pool_at m r).
  - destruct (updateTokenPoolUnshielded_cases m a s) as [-> | ->]; simpl; [|now split].
    split; [|exact Hb]. rewrite mints_after_map; [exact Hp|].
    intros r. unfold Store.add_unshielded. now destruct (Store.pool_at m r).
  - split; [|now apply updatePrivateBalance_keys].
    now rewrite (proj1 (updatePrivateBalance_tables o m a b s)).
  - unfold recordTransaction, bind, Store.insert_transaction.
    destruct (existsb (Store.signed g) (transactions s)); simpl; now split.
Qed.

Lemma perform_all_keys_unique cs s : keys_unique s -> keys_unique (perform_all cs s).
Proof.
  revert s. induction cs as [|c cs IH]; intros s H; [exact H|].
  simpl. apply IH. now apply perform_keys_unique.
Qed.

(** One call keeps every recorded pool, with its id, decimals and address;
    a call that carries no negative amount lowers neither total. *)
Lemma perform_pool c m p s :
  stored_pool m s = Some p ->
  exists p',
    stored_pool m (perform c s) = Some p'
    /\ tp_id p' = tp_id p /\ tp_decimals p' = tp_decimals p
    /\ tp_poolAddress p' = tp_poolAddress p
    /\ (match call_amount c with Some a => 0 <= a | None => True end ->
        tp_totalShielded p <= tp_totalShielded p'
        /\ tp_totalUnshielded p <= tp_totalUnshielded p').
Proof.
  intros Hp.
  assert (Hsame : forall s', token_pools s' = token_pools s ->
            exists p', stored_pool m s' = Some p'
              /\ tp_id p' = tp_id p /\ tp_decimals p' = tp_decimals p
              /\ tp_poolAddress p' = tp_poolAddress p
              /\ (match call_amount c with Some a => 0 <= a | None => True end ->
                  tp_totalShielded p <= tp_totalShielded p'
                  /\ tp_totalUnshielded p <= tp_totalUnshielded p')).
  { intros s' E. exists p. rewrite (stored_pool_ext _ _ _ E).
    repeat split; auto; lia. }
  destruct c as [m0 d a | m0 a | m0 a | o m0 a b | n o t m0 y a g r]; simpl.
  - unfold createTokenPool, bind, Store.insert_pool.
    destruct (existsb (Store.pool_at m0) (token_pools s)); simpl.
    + now apply Hsame.
    + exists p. rewrite (stored_pool_after_insert m0) by reflexivity. rewrite Hp.
      repeat split; auto; lia.
  - destruct (updateTokenPoolShielded_cases m0 a s) as [-> | ->];
      [|now apply Hsame].
    rewrite stored_pool_eq in *. simpl.
    rewrite hd_filter_map by (intros; apply pool_at_add_shielded). rewrite Hp. simpl.
    eexists. split; [reflexivity|]. unfold Store.add_shielded.
    destruct (Store.pool_at m0 p); simpl; repeat split; auto; lia.
  - destruct (updateTokenPoolUnshielded_cases m0 a s) as [-> | ->];
      [|now apply Hsame].
    rewrite stored_pool_eq in *. simpl.
    rewrite hd_filter_map by (intros; apply pool_at_add_unshielded). rewrite Hp. simpl.
    eexists. split; [reflexivity|]. unfold Store.add_unshielded.
    destruct (Store.pool_at m0 p); simpl; repeat split; auto; lia.
  - apply Hsame. apply updatePrivateBalance_tables.
  - apply Hsame. unfold recordTransaction, bind, Store.insert_transaction.
    destruct (existsb (Store.signed g) (transactions s)); reflexivity.
Qed.

Lemma perform_all_pool cs m p s :
  stored_pool m s = Some p ->
  exists p',
    stored_pool m (perform_all cs s) = Some p'
    /\ tp_id p' = tp_id p /\ tp_decimals p' = tp_decimals p
    /\ tp_poolAddress p' = tp_poolAddress p
    /\ (amounts_nonnegative cs ->
        tp_totalShielded p <= tp_totalShielded p'
        /\ tp_totalUnshielded p <= tp_totalUnshielded p').
Proof.
  revert p s. induction cs as [|c cs IH]; intros p s Hp.
  - exists p. simpl. repeat split; auto; lia.
  - simpl. destruct (perform_pool c m p s Hp) as (p1 & H1 & I1 & D1 & A1 & T1).
    destruct (IH p1 _ H1) as (p2 & H2 & I2 & D2 & A2 & T2).
    exists p2. split; [exact H2|]. split; [congruence|]. split; [congruence|].
    split; [congruence|].
    intros Hcs. unfold amounts_nonnegative in Hcs, T2.
    inversion Hcs as [|? ? Hc Hrest]; subst.
    specialize (T1 Hc). specialize (T2 Hrest). lia.
Qed.

(** One call keeps every balance record, with its id and commitment index. *)
Lemma perform_record c o m row s :
  getPrivateBalance o m s = (Ok (Some row), s) ->
  exists row',
    getPrivateBalance o m (perform c s) = (Ok (Some row'), perform c s)
    /\ pb_id row' = pb_id row
    /\ pb_lastCommitmentIndex row' = pb_lastCommitmentIndex row.
Proof.
  rewrite !getPrivateBalance_eq. intros H. injection H as H.
  assert (Hsame : forall s', private_balances s' = private_balances s ->
            exists row',
              (Ok (hd_error (filter (Store.balance_at o m) (private_balances s'))), s')
              = (Ok (Some row'), s')
              /\ pb_id row' = pb_id row
              /\ pb_lastCommitmentIndex row' = pb_lastCommitmentIndex row).
  { intros s' E. exists row. rewrite E, H. auto. }
  destruct c as [m0 d a | m0 a | m0 a | o0 m0 a b | n o0 t m0 y a g r]; cbn [perform].
  - apply Hsame. apply createTokenPool_tables.
  - apply Hsame. apply updateTokenPoolShielded_tables.
  - apply Hsame. apply updateTokenPoolUnshielded_tables.
  - destruct (updatePrivateBalance_cases o0 m0 a b s)
      as [(_ & _ & E) | [(_ & _ & _ & E) | [(Hb & -> & _ & E) | [(b0 & _ & _ & E)
         | [(b0 & _ & _ & _ & E) | (b0 & v & r' & Hb & _ & _ & E & _)]]]]];
      rewrite E; try (now apply Hsame).
    + simpl. rewrite filter_app.
      destruct (filter (Store.balance_at o m) (private_balances s)) as [|x l];
        [discriminate|].
      injection H as ->. simpl. exists row. auto.
    + simpl. rewrite filter_set_balance.
      destruct (filter (Store.balance_at o m) (private_balances s)) as [|x l];
        [discriminate|].
      injection H as ->. simpl. eexists. split; [reflexivity|].
      unfold Store.set_balance. now destruct (Store.balance_at o0 m0 row).
  - apply Hsame. unfold recordTransaction, bind, Store.insert_transaction.
    destruct (existsb (Store.signed g) (transactions s)); reflexivity.
Qed.

Lemma perform_all_record cs o m row s :
  getPrivateBalance o m s = (Ok (Some row), s) ->
  exists row',
    getPrivateBalance o m (perform_all cs s) = (Ok (Some row'), perform_all cs s)
    /\ pb_id row' = pb_id row
    /\ pb_lastCommitmentIndex row' = pb_lastCommitmentIndex row.
Proof.
  revert row s. induction cs as [|c cs IH]; intros row s H.
  - exists row. auto.
  - simpl. destruct (perform_record c o m row s H) as (r1 & H1 & I1 & L1).
    destruct (IH r1 _ H1) as (r2 & H2 & I2 & L2).
    exists r2. repeat split; congruence.
Qed.

End CallInvariants.

(** ** Requests as sequences of calls *)

Section RequestsAsCalls.
Import DbService.
Import Relayer.

Lemma present_number_some v a : present_number v = Some a -> v = Some a.
Proof. unfold present_number. destruct (truthy_number v); [auto | discriminate]. Qed.

Lemma getTransactions_state o m l s : snd (getTransactions o m l s) = s.
Proof.
  unfold getTransactions, try_catch, Store.select_transactions, ret.
  destruct m as [mint|]; [destruct (truthy_string (Some mint))|];
    (destruct (_ <? 0); [reflexivity|]); destruct (_ <=? _); reflexivity.
Qed.

Lemma post_pool_exists_state req s : snd (post_pool_exists req s) = s.
Proof.
  unfold post_pool_exists, handler. destruct (present_string (tokenMint req)); reflexivity.
Qed.

Lemma post_balances_state req s : snd (post_balances req s) = s.
Proof.
  unfold post_balances, handler. destruct (present_string (owner req)); reflexivity.
Qed.

Lemma post_transactions_state req s : snd (post_transactions req s) = s.
Proof.
  unfold post_transactions, handler. destruct (present_string (owner req)) as [o|];
    [|reflexivity].
  unfold bind.
  pose proof (getTransactions_state o (tokenMint req)
                (if truthy_number (limit req) then limit req else Some 50) s) as H.
  destruct (getTransactions _ _ _ s) as [[l|e] s']; simpl in *; exact H.
Qed.

Lemma getOrCreateTokenPool_as_call c m d s :
  snd (getOrCreateTokenPool c m d s) = s
  \/ exists addr, snd (getOrCreateTokenPool c m d s) = perform (CreateTokenPool m d addr) s.
Proof.
  unfold getOrCreateTokenPool, bind, await. rewrite getTokenPool_eq.
  destruct (hd_error _); [now left|].
  destruct (findProgramAddress c m) as [addr|e]; [|now left].
  right. now exists addr.
Qed.

Lemma pool_create_as_calls c req s :
  exists cs, snd (post_pool_create c req s) = perform_all cs s /\ Forall (carries req) cs.
Proof.
  unfold post_pool_create, handler.
  destruct (present_string (tokenMint req)) as [m|]; [|now exists []].
  destruct (decimals req) as [d|]; [|now exists []].
  unfold bind.
  destruct (getOrCreateTokenPool_as_call c m d s) as [H | (addr & H)];
    destruct (getOrCreateTokenPool c m d s) as [[p|e] s1]; simpl in *; subst s1.
  - now exists [].
  - now exists [].
  - exists [CreateTokenPool m d addr]. split; [reflexivity|]. repeat constructor.
  - exists [CreateTokenPool m d addr]. split; [reflexivity|]. repeat constructor.
Qed.

Lemma send_as_calls c req s :
  exists cs, snd (post_send c req s) = perform_all cs s /\ Forall (carries req) cs.
Proof.
  destruct (present_string (tokenMint req)) as [mint|] eqn:F1;
  [destruct (present_number (amount req)) as [a|] eqn:F2;
   [destruct (present_string (recipient req)) as [rc|] eqn:F3;
    [destruct (present_string (proof req)) as [pf|] eqn:F4;
     [destruct (present_string (sender req)) as [sd|] eqn:F5|]|]|]|];
  try (exists []; split; [|constructor]; unfold post_send, handler;
       rewrite ?F1, ?F2, ?F3, ?F4, ?F5; reflexivity).
  rewrite (post_send_run _ _ _ _ _ _ _ _ F1 F2 F3 F4 F5).
  apply present_number_some in F2.
  destruct (updatePrivateBalance sd mint a false s) as [[r1|e1] s1] eqn:E1.
  2:{ exists [UpdatePrivateBalance sd mint a false]. simpl. rewrite E1.
      split; [reflexivity | repeat constructor; exact F2]. }
  destruct (updatePrivateBalance rc mint a true s1) as [[r2|e2] s2] eqn:E2.
  2:{ exists [UpdatePrivateBalance sd mint a false; UpdatePrivateBalance rc mint a true].
      simpl. rewrite E1. simpl. rewrite E2.
      split; [reflexivity | repeat constructor; exact F2]. }
  exists [UpdatePrivateBalance sd mint a false; UpdatePrivateBalance rc mint a true;
          RecordTransaction (now_record c) sd send mint (symbol_at mint s2) a
            (send_signature (now_signature c)) (Some rc)].
  simpl. rewrite E1. simpl. rewrite E2. simpl.
  split; [|repeat constructor; exact F2].
  destruct (recordTransaction _ _ _ _ _ _ _ _ s2) as [[r3|e3] s3]; reflexivity.
Qed.

Lemma shield_as_calls c req s :
  exists cs, snd (post_shield_notify c req s) = perform_all cs s /\ Forall (carries req) cs.
Proof.
  destruct (present_string (txSignature req)) as [sig|] eqn:F1;
  [destruct (present_string (tokenMint req)) as [mint|] eqn:F2;
   [destruct (present_number (amount req)) as [a|] eqn:F3;
    [destruct (present_string (commitment req)) as [cm|] eqn:F4;
     [destruct (present_string (owner req)) as [o|] eqn:F5|]|]|]|];
  try (exists []; split; [|constructor]; unfold post_shield_notify, handler;
       rewrite ?F1, ?F2, ?F3, ?F4, ?F5; reflexivity).
  rewrite (post_shield_notify_run _ _ _ _ _ _ _ _ F1 F2 F3 F4 F5).
  apply present_number_some in F3.
  destruct (chain_getTransaction c sig) as [[|]|e0];
    try (exists []; split; [reflexivity | constructor]).
  destruct (updatePrivateBalance o mint a true s) as [[r1|e1] s1] eqn:E1.
  2:{ exists [UpdatePrivateBalance o mint a true]. simpl. rewrite E1.
      split; [reflexivity | repeat constructor; exact F3]. }
  destruct (updateTokenPoolShielded mint a s1) as [[u|e0] s2] eqn:E0.
  2:{ exists [UpdatePrivateBalance o mint a true; UpdateTokenPoolShielded mint a].
      simpl. rewrite E1. simpl. rewrite E0.
      split; [reflexivity | repeat constructor; exact F3]. }
  exists [UpdatePrivateBalance o mint a true; UpdateTokenPoolShielded mint a;
          RecordTransaction (now_record c) o shield mint (symbol_at mint s2) a sig None].
  simpl. rewrite E1. simpl. rewrite E0. simpl.
  split; [|repeat constructor; exact F3].
  destruct (recordTransaction _ _ _ _ _ _ _ _ _) as [[r3|e3] s3]; reflexivity.
Qed.

Lemma unshield_as_calls c req s :
  exists cs, snd (post_unshield c req s) = perform_all cs s /\ Forall (carries req) cs.
Proof.
  destruct (present_string (tokenMint req)) as [mint|] eqn:F1;
  [destruct (present_number (amount req)) as [a|] eqn:F2;
   [destruct (present_string (recipient req)) as [rc|] eqn:F3;
    [destruct (present_string (proof req)) as [pf|] eqn:F4;
     [destruct (present_string (sender req)) as [sd|] eqn:F5|]|]|]|];
  try (exists []; split; [|constructor]; unfold post_unshield, handler;
       rewrite ?F1, ?F2, ?F3, ?F4, ?F5; reflexivity).
  rewrite (post_unshield_run _ _ _ _ _ _ _ _ F1 F2 F3 F4 F5).
  apply present_number_some in F2.
  destruct (updatePrivateBalance sd mint a false s) as [[r1|e1] s1] eqn:E1.
  2:{ exists [UpdatePrivateBalance sd mint a false]. simpl. rewrite E1.
      split; [reflexivity | repeat constructor; exact F2]. }
  destruct (updateTokenPoolUnshielded mint a s1) as [[u|e0] s2] eqn:E0.
  2:{ exists [UpdatePrivateBalance sd mint a false; UpdateTokenPoolUnshielded mint a].
      simpl. rewrite E1. simpl. rewrite E0.
      split; [reflexivity | repeat constructor; exact F2]. }
  assert (Hpre : exists cs, snd (getOrCreateTokenPool c mint 0 s2) = perform_all cs s
                            /\ Forall (carries req) cs).
  { destruct (getOrCreateTokenPool_as_call c mint 0 s2) as [H | (addr & H)]; rewrite H.
    - exists [UpdatePrivateBalance sd mint a false; UpdateTokenPoolUnshielded mint a].
      simpl. rewrite E1. simpl. rewrite E0.
      split; [reflexivity | repeat constructor; exact F2].
    - exists [UpdatePrivateBalance sd mint a false; UpdateTokenPoolUnshielded mint a;
              CreateTokenPool mint 0 addr].
      simpl. rewrite E1. simpl. rewrite E0.
      split; [reflexivity | repeat constructor; exact F2]. }
  destruct Hpre as (cs & Hcs & Hcar).
  destruct (getOrCreateTokenPool c mint 0 s2) as [[pool|e2] s3]; simpl in Hcs;
    [|now exists cs].
  destruct (if negb (String.eqb mint "SOL")
            then resolve_token_accounts c mint (tp_poolAddress pool) rc
            else Ok tt) as [[]|e3]; [|now exists cs].
  exists (cs ++ [RecordTransaction (now_record c) sd unshield mint (symbol_at mint s3) a
                   (unshield_signature (now_signature c)) None])%list.
  split.
  - unfold perform_all in *. rewrite fold_left_app, <- Hcs. simpl.
    destruct (recordTransaction _ _ _ _ _ _ _ _ s3) as [[r4|e4] s4]; reflexivity.
  - apply Forall_app. split; [exact Hcar | repeat constructor; exact F2].
Qed.

Lemma serve_as_calls r s :
  exists cs, snd (serve r s) = perform_all cs s /\ Forall (carries (request_body r)) cs.
Proof.
  destruct r as [req | c req | req | c req | c req | c req | req]; simpl.
  - exists []. split; [apply post_pool_exists_state | constructor].
  - apply pool_create_as_calls.
  - exists []. split; [apply post_balances_state | constructor].
  - apply shield_as_calls.
  - apply send_as_calls.
  - apply unshield_as_calls.
  - exists []. split; [apply post_transactions_state | constructor].
Qed.

Lemma serve_all_as_calls rs s :
  exists cs,
    serve_all rs s = perform_all cs s
    /\ (requests_nonnegative rs -> amounts_nonnegative cs).
Proof.
  revert s. induction rs as [|r rs IH]; intros s.
  - exists []. split; [reflexivity | constructor].
  - simpl. destruct (serve_as_calls r s) as (c1 & H1 & A1).
    destruct (IH (snd (serve r s))) as (c2 & H2 & A2).
    exists (c1 ++ c2)%list. split.
    + unfold perform_all in *. now rewrite fold_left_app, <- H1.
    + intros Hrs. unfold requests_nonnegative, amounts_nonnegative in *.
      inversion Hrs as [|? ? Hr Hrest]; subst.
      apply Forall_app. split; [|now apply A2].
      apply Forall_impl with (2 := A1). intros c Hc. unfold carries in Hc.
      destruct (call_amount c) as [a|]; [|exact I]. now rewrite Hc in Hr.
Qed.

End RequestsAsCalls.

(** ** What every sequence of requests keeps *)

Section RequestInvariants.
Import DbService.
Import Relayer.

(** A pool read for a mint carries that mint. *)
Lemma stored_pool_mint m p s : stored_pool m s = Some p -> tp_tokenMint p = m.
Proof.
  rewrite stored_pool_eq. intros H.
  destruct (filter (Store.pool_at m) (token_pools s)) as [|r l] eqn:Hf; [discriminate|].
  injection H as ->.
  assert (Hin : In p (filter (Store.pool_at m) (token_pools s)))
    by (rewrite Hf; now left).
  apply filter_In in Hin. destruct Hin as [_ Hat]. now apply String.eqb_eq in Hat.
Qed.

(** X3. [POST /pool/create] is idempotent as to the pool it names. Once
    a request has been answered 200 with a pool, any later request naming
    the same mint, whatever requests were served in between, whatever
    decimals it asks for and whatever the address derivation would now
    return, is answered 200 with the pool of the same id, mint, decimals
    and address, carrying the totals of that moment, and leaves the
    database as it is; with nothing served in between it is answered with
    the very same pool. *)
Theorem pool_create_idempotent c req s rs c' req' :
  accepted (fst (post_pool_create c req s)) = true ->
  present_string (tokenMint req') = present_string (tokenMint req) ->
  decimals req' <> None ->
  let s1 := serve_all rs (snd (post_pool_create c req s)) in
  exists pool pool',
    fst (post_pool_create c req s) = mkResponse 200 (pool_json pool)
    /\ post_pool_create c' req' s1 = (mkResponse 200 (pool_json pool'), s1)
    /\ tp_id pool' = tp_id pool
    /\ tp_tokenMint pool' = tp_tokenMint pool
    /\ tp_decimals pool' = tp_decimals pool
    /\ tp_poolAddress pool' = tp_poolAddress pool
    /\ (rs = [] -> pool' = pool).
Proof.
  intros Hacc Hmint Hdec s1. subst s1.
  assert (Hfirst : exists m d p s1,
             present_string (tokenMint req) = Some m
             /\ getOrCreateTokenPool c m d s = (Ok p, s1)
             /\ post_pool_create c req s = (mkResponse 200 (pool_json p), s1)).
  { unfold post_pool_create, handler in *.
    destruct (present_string (tokenMint req)) as [m|]; [|discriminate].
    destruct (decimals req) as [d|]; [|discriminate].
    unfold bind in *.
    destruct (getOrCreateTokenPool c m d s) as [[p|e] s1] eqn:E; [|discriminate].
    exists m, d, p, s1. auto. }
  destruct Hfirst as (m & d & p & s1 & Fm & E & Hpost).
  rewrite Hpost. cbn [fst snd]. apply getOrCreateTokenPool_resolved in E.
  destruct (serve_all_as_calls rs s1) as (cs & Hcs & _).
  destruct (perform_all_pool cs m p s1 E) as (p' & Hp' & I & D & A & _).
  rewrite <- Hcs in Hp'.
  exists p, p'. split; [reflexivity|]. split.
  - unfold post_pool_create, handler. rewrite Hmint, Fm.
    destruct (decimals req') as [d'|]; [|congruence].
    unfold bind. now rewrite (getOrCreateTokenPool_existing c' _ d' _ _ Hp').
  - split; [exact I|]. split.
    + rewrite (stored_pool_mint _ _ _ Hp'). symmetry. exact (stored_pool_mint _ _ _ E).
    + split; [exact D|]. split; [exact A|]. intros ->. simpl in Hp'. congruence.
Qed.

Lemma pool_create_idempotent_witness :
  let req := mkBody None (Some "SOL") None None None None None None (Some 9) None in
  let req' := mkBody None (Some "SOL") None None None None None None (Some 6) None in
  let s1 :=
    serve_all [ShieldNotify sample_collaborators shield_alice_40]
      (snd (post_pool_create sample_collaborators req two_owners)) in
  exists pool pool',
    fst (post_pool_create sample_collaborators req two_owners)
    = mkResponse 200 (pool_json pool)
    /\ post_pool_create failing_derivation req' s1 = (mkResponse 200 (pool_json pool'), s1)
    /\ tp_id pool' = tp_id pool
    /\ tp_tokenMint pool' = tp_tokenMint pool
    /\ tp_decimals pool' = tp_decimals pool
    /\ tp_poolAddress pool' = tp_poolAddress pool
    /\ ([ShieldNotify sample_collaborators shield_alice_40] = [] -> pool' = pool).
Proof.
  intros req req'.
  apply (pool_create_idempotent sample_collaborators req two_owners
           [ShieldNotify sample_collaborators shield_alice_40] failing_derivation req').
  - reflexivity.
  - reflexivity.
  - discriminate.
Defined.

(** The later answer carries the totals of its moment: after a shield of
    40 in between, the shielded total it reports is 140 where the first
    answer reported 100. *)
Example pool_create_reports_current_totals :
  let req := mkBody None (Some "SOL") None None None None None None (Some 9) None in
  let s1 :=
    serve_all [ShieldNotify sample_collaborators shield_alice_40]
      (snd (post_pool_create sample_collaborators req two_owners)) in
  json (fst (post_pool_create sample_collaborators req two_owners))
  = pool_json (mkTokenPool 1 "SOL" 9 "pool-SOL" 100 7)
  /\ json (fst (post_pool_create sample_collaborators req s1))
     = pool_json (mkTokenPool 1 "SOL" 9 "pool-SOL" 140 7).
Proof. vm_compute. split; reflexivity. Qed.

(** X4. Served one after the other, the requests never leave two pools
    for one mint nor two balance records for one (owner, mint) pair. *)
Theorem requests_keep_keys_unique rs s :
  keys_unique s -> keys_unique (serve_all rs s).
Proof.
  intros H. destruct (serve_all_as_calls rs s) as (cs & -> & _).
  now apply perform_all_keys_unique.
Qed.

Lemma requests_keep_keys_unique_witness : keys_unique (serve_all three_requests two_owners).
Proof.
  apply (requests_keep_keys_unique three_requests two_owners).
  split; simpl; repeat (constructor; [simpl; intuition discriminate|]); constructor.
Defined.

(** X5. Served one after the other, requests none of which carries a
    negative amount keep every stored balance non-negative. *)
Theorem requests_keep_balances_nonnegative rs s :
  requests_nonnegative rs ->
  balances_nonnegative s ->
  balances_nonnegative (serve_all rs s).
Proof.
  intros Hrs Hs. destruct (serve_all_as_calls rs s) as (cs & -> & Hcs).
  apply perform_all_nonnegative; [|exact Hs].
  specialize (Hcs Hrs). unfold amounts_nonnegative, credits_nonnegative in *.
  apply Forall_impl with (2 := Hcs). intros c Hc.
  destruct c as [m d a | m a | m a | o m a b | n o t m y a g r]; simpl in *; auto.
  now destruct b.
Qed.

Lemma requests_keep_balances_nonnegative_witness :
  balances_nonnegative (serve_all three_requests two_owners).
Proof.
  apply (requests_keep_balances_nonnegative three_requests two_owners).
  - unfold requests_nonnegative, three_requests. repeat constructor; simpl; lia.
  - unfold balances_nonnegative, two_owners. repeat constructor; simpl; lia.
Defined.

(** X6. A recorded pool is never removed and never changes id, decimals
    or address, whatever requests are served; when none of them carries a
    negative amount, neither of its totals ever decreases. *)
Theorem pools_persist_and_grow rs m p s :
  stored_pool m s = Some p ->
  exists p',
    stored_pool m (serve_all rs s) = Some p'
    /\ tp_id p' = tp_id p /\ tp_decimals p' = tp_decimals p
    /\ tp_poolAddress p' = tp_poolAddress p
    /\ (requests_nonnegative rs ->
        tp_totalShielded p <= tp_totalShielded p'
        /\ tp_totalUnshielded p <= tp_totalUnshielded p').
Proof.
  intros Hp. destruct (serve_all_as_calls rs s) as (cs & -> & Hcs).
  destruct (perform_all_pool cs m p s Hp) as (p' & H & I & D & A & T).
  exists p'. repeat (split; [assumption|]). intros Hrs. apply T, Hcs, Hrs.
Qed.

Lemma pools_persist_and_grow_witness :
  exists p',
    stored_pool "SOL" (serve_all three_requests two_owners) = Some p'
    /\ tp_id p' = 1 /\ tp_decimals p' = 9 /\ tp_poolAddress p' = "pool-SOL"
    /\ (requests_nonnegative three_requests ->
        100 <= tp_totalShielded p' /\ 7 <= tp_totalUnshielded p').
Proof.
  apply (pools_persist_and_grow three_requests "SOL"
           (mkTokenPool 1 "SOL" 9 "pool-SOL" 100 7) two_owners).
  reflexivity.
Defined.

(** X7. A balance record is never removed and never changes id or
    commitment index, whatever requests are served: a key that can be read
    can be read ever after. *)
Theorem balance_records_persist rs o m row s :
  getPrivateBalance o m s = (Ok (Some row), s) ->
  exists row',
    getPrivateBalance o m (serve_all rs s) = (Ok (Some row'), serve_all rs s)
    /\ pb_id row' = pb_id row
    /\ pb_lastCommitmentIndex row' = pb_lastCommitmentIndex row.
Proof.
  intros H. destruct (serve_all_as_calls rs s) as (cs & -> & _).
  now apply perform_all_record.
Qed.

Lemma balance_records_persist_witness :
  exists row',
    getPrivateBalance "bob" "SOL" (serve_all three_requests two_owners)
    = (Ok (Some row'), serve_all three_requests two_owners)
    /\ pb_id row' = 2 /\ pb_lastCommitmentIndex row' = 0.
Proof.
  apply (balance_records_persist three_requests "bob" "SOL"
           (mkPrivateBalance 2 "bob" "SOL" 20 0) two_owners).
  reflexivity.
Defined.

(** X8. Whatever requests are served, the rows already in the log stay
    in place, unchanged, in front of the rows added, and signatures that
    were pairwise distinct stay so. *)
Theorem requests_only_append_to_log rs s :
  exists added,
    transactions (serve_all rs s) = (transactions s ++ added)%list
    /\ (NoDup (signatures s) -> NoDup (signatures (serve_all rs s))).
Proof.
  destruct (serve_all_as_calls rs s) as (cs & -> & _). apply perform_all_log.
Qed.

Lemma requests_only_append_to_log_witness :
  exists added,
    transactions (serve_all three_requests alice_shielded)
    = (transactions alice_shielded ++ added)%list
    /\ NoDup (signatures (serve_all three_requests alice_shielded)).
Proof.
  destruct (requests_only_append_to_log three_requests alice_shielded)
    as (added & Happ & Hnd).
  exists added. split; [exact Happ|]. apply Hnd.
  simpl. repeat (constructor; [simpl; intuition discriminate|]); constructor.
Defined.

(** X9. [/pool/exists], [/balances] and [/transactions] never write: the
    database after the request is the database before it, whatever the
    body holds. *)
Theorem read_routes_leave_database req s :
  snd (post_pool_exists req s) = s
  /\ snd (post_balances req s) = s
  /\ snd (post_transactions req s) = s.
Proof.
  split; [apply post_pool_exists_state|].
  split; [apply post_balances_state | apply post_transactions_state].
Qed.

End RequestInvariants.

(** ** Reading back what was written *)

Section ReadBack.
Import DbService.

(** X10. The record a resolved [updatePrivateBalance] returns is the
    record a read of the same key returns right after it, and it carries
    the owner and mint of the call. *)
Theorem update_returns_stored_record o m a add row s s' :
  updatePrivateBalance o m a add s = (Ok row, s') ->
  getPrivateBalance o m s' = (Ok (Some row), s')
  /\ pb_owner row = o /\ pb_tokenMint row = m.
Proof.
  intros H. rewrite getPrivateBalance_eq.
  unfold updatePrivateBalance, bind in H. rewrite getPrivateBalance_eq in H.
  unfold updatePrivateBalance_write in H.
  destruct (hd_error (filter (Store.balance_at o m) (private_balances s)))
    as [r0|] eqn:Hhd.
  - destruct (Numbers.negative _); [discriminate|].
    unfold Store.update_balance in H.
    destruct (existsb (Store.balance_at o m) (private_balances s)); [|discriminate].
    destruct (Numbers.to_units _) as [v|]; [|discriminate].
    destruct (filter (Store.balance_at o m)
                (map (Store.set_balance o m v) (private_balances s)))
      as [|x l] eqn:Hf; [discriminate|].
    simpl in H. injection H as <- <-. simpl. rewrite Hf. split; [reflexivity|].
    assert (Hin : In x (x :: l)) by now left.
    rewrite <- Hf in Hin. apply filter_In in Hin. destruct Hin as [_ Hat].
    unfold Store.balance_at in Hat. apply andb_true_iff in Hat.
    destruct Hat as [Ho Hm]. apply String.eqb_eq in Ho, Hm. auto.
  - destruct add; [|discriminate].
    unfold Store.insert_balance in H.
    destruct (negb (Numbers.in_range a)); [discriminate|].
    destruct (existsb (Store.balance_at o m) (private_balances s)); [discriminate|].
    simpl in H. injection H as <- <-. simpl. split; [|now split].
    rewrite filter_app.
    destruct (filter (Store.balance_at o m) (private_balances s)); [|discriminate].
    simpl. unfold Store.balance_at. simpl. now rewrite !String.eqb_refl.
Qed.

Lemma update_returns_stored_record_witness :
  getPrivateBalance "carol" "SOL" (snd (updatePrivateBalance "carol" "SOL" 5 true two_owners))
  = (Ok (Some (mkPrivateBalance 3 "carol" "SOL" 5 0)),
     snd (updatePrivateBalance "carol" "SOL" 5 true two_owners))
  /\ pb_owner (mkPrivateBalance 3 "carol" "SOL" 5 0) = "carol"
  /\ pb_tokenMint (mkPrivateBalance 3 "carol" "SOL" 5 0) = "SOL".
Proof.
  apply (update_returns_stored_record "carol" "SOL" 5 true _ two_owners).
  vm_compute. reflexivity.
Defined.

(** X11. A credit followed by a debit of the same amount need not bring
    the balance back: on a balance of 0.1, a credit of 0.2 and then a
    debit of 0.2 both resolve, and the balance is 0.30000000000000004 in
    between and 0.10000000000000003 at the end. *)
Theorem credit_then_debit_drifts :
  let s := mkDb [] [mkPrivateBalance 1 "alice" "SOL" 100000000000000000 0] [] 1 2 1 in
  exists r1 s1 r2 s2,
    updatePrivateBalance "alice" "SOL" 200000000000000000 true s = (Ok r1, s1)
    /\ updatePrivateBalance "alice" "SOL" 200000000000000000 false s1 = (Ok r2, s2)
    /\ recorded_balance "alice" "SOL" s1 = Some 300000000000000040
    /\ recorded_balance "alice" "SOL" s2 = Some 100000000000000030.
Proof.
  intros s.
  exists (mkPrivateBalance 1 "alice" "SOL" 300000000000000040 0),
         (mkDb [] [mkPrivateBalance 1 "alice" "SOL" 300000000000000040 0] [] 1 2 1),
         (mkPrivateBalance 1 "alice" "SOL" 100000000000000030 0),
         (mkDb [] [mkPrivateBalance 1 "alice" "SOL" 100000000000000030 0] [] 1 2 1).
  vm_compute. repeat split.
Qed.

End ReadBack.

(** ** Token totals across a send *)

Section Conservation.
Import DbService.
Import Relayer.

(** X12. An accepted send need not conserve the total of a token: when a
    holder of 0.3 sends 0.1 to an owner without a record, the sender is
    left with 0.19999999999999998 and the recipient holds 0.1, so the sum
    of the balances of the token falls from 0.3 by 2 units of 10^-17. *)
Theorem accepted_send_total_drifts :
  let req := mkBody None (Some "SOL") (Some 100000000000000000) None None (Some "bob")
               (Some "proof") (Some "alice") None None in
  accepted (fst (post_send sample_collaborators req alice_three_tenths)) = true
  /\ total_balance "SOL" alice_three_tenths = 300000000000000000
  /\ total_balance "SOL" (snd (post_send sample_collaborators req alice_three_tenths))
     = 299999999999999980.
Proof. vm_compute. repeat split. Qed.

End Conservation.

(** ** Shield and unshield *)

Section ShieldUnshield.
Import DbService.
Import Relayer.

Lemma shielded_after m a u s s2 :
  updateTokenPoolShielded m a s = (Ok u, s2) ->
  stored_pool m s2
  = option_map (fun p => mkTokenPool (tp_id p) (tp_tokenMint p) (tp_decimals p)
                           (tp_poolAddress p) (tp_totalShielded p + a)
                           (tp_totalUnshielded p))
      (stored_pool m s)
  /\ private_balances s2 = private_balances s
  /\ transactions s2 = transactions s.
Proof.
  intros H. destruct (updateTokenPoolShielded_cases m a s) as [E|E]; rewrite E in H;
    [|discriminate].
  injection H as _ <-. split; [|split; reflexivity].
  rewrite !stored_pool_eq. simpl.
  rewrite hd_filter_map by (intros; apply pool_at_add_shielded).
  destruct (filter (Store.pool_at m) (token_pools s)) as [|p l] eqn:Hf; [reflexivity|].
  simpl. f_equal. unfold Store.add_shielded.
  assert (Hin : In p (filter (Store.pool_at m) (token_pools s)))
    by (rewrite Hf; now left).
  apply filter_In in Hin. now rewrite (proj2 Hin).
Qed.

Lemma unshielded_after m a u s s2 :
  updateTokenPoolUnshielded m a s = (Ok u, s2) ->
  stored_pool m s2
  = option_map (fun p => mkTokenPool (tp_id p) (tp_tokenMint p) (tp_decimals p)
                           (tp_poolAddress p) (tp_totalShielded p)
                           (tp_totalUnshielded p + a))
      (stored_pool m s)
  /\ private_balances s2 = private_balances s
  /\ transactions s2 = transactions s.
Proof.
  intros H. destruct (updateTokenPoolUnshielded_cases m a s) as [E|E]; rewrite E in H;
    [|discriminate].
  injection H as _ <-. split; [|split; reflexivity].
  rewrite !stored_pool_eq. simpl.
  rewrite hd_filter_map by (intros; apply pool_at_add_unshielded).
  destruct (filter (Store.pool_at m) (token_pools s)) as [|p l] eqn:Hf; [reflexivity|].
  simpl. f_equal. unfold Store.add_unshielded.
  assert (Hin : In p (filter (Store.pool_at m) (token_pools s)))
    by (rewrite Hf; now left).
  apply filter_In in Hin. now rewrite (proj2 Hin).
Qed.

Lemma recordTransaction_row now o ty m sym a sig rc row s s' :
  recordTransaction now o ty m sym a sig rc s = (Ok row, s') ->
  row = mkTransaction (transactions_id_seq s) o ty m sym a now rc sig
  /\ transactions s' = (transactions s ++ [row])%list
  /\ token_pools s' = token_pools s
  /\ private_balances s' = private_balances s.
Proof.
  intros H. destruct (In_signatures_dec sig s) as [Hin|Hout].
  - rewrite (recordTransaction_duplicate _ _ _ _ _ _ _ _ _ Hin) in H. discriminate.
  - rewrite (recordTransaction_fresh _ _ _ _ _ _ _ _ _ Hout) in H.
    injection H as <- <-. auto.
Qed.

Lemma post_shield_accepted c req s res s' :
  post_shield_notify c req s = (res, s') ->
  accepted res = true ->
  exists sig mint a o r1 s1 u s2 row,
    present_string (txSignature req) = Some sig
    /\ present_string (tokenMint req) = Some mint
    /\ present_number (amount req) = Some a
    /\ present_string (owner req) = Some o
    /\ chain_getTransaction c sig = Ok true
    /\ updatePrivateBalance o mint a true s = (Ok r1, s1)
    /\ updateTokenPoolShielded mint a s1 = (Ok u, s2)
    /\ recordTransaction (now_record c) o shield mint (symbol_at mint s2) a sig None s2
       = (Ok row, s').
Proof.
  intros H Hacc.
  destruct (present_string (txSignature req)) as [sig|] eqn:F1;
  [destruct (present_string (tokenMint req)) as [mint|] eqn:F2;
   [destruct (present_number (amount req)) as [a|] eqn:F3;
    [destruct (present_string (commitment req)) as [cm|] eqn:F4;
     [destruct (present_string (owner req)) as [o|] eqn:F5|]|]|]|];
  try (unfold post_shield_notify, handler in H; rewrite ?F1, ?F2, ?F3, ?F4, ?F5 in H;
       injection H as <- <-; discriminate).
  rewrite (post_shield_notify_run _ _ _ _ _ _ _ _ F1 F2 F3 F4 F5) in H.
  destruct (chain_getTransaction c sig) as [[|]|e0] eqn:Ec;
    try (injection H as <- <-; discriminate).
  destruct (updatePrivateBalance o mint a true s) as [[r1|e1] s1] eqn:E1;
    [|injection H as <- <-; discriminate].
  destruct (updateTokenPoolShielded mint a s1) as [[u|e0] s2] eqn:E0;
    [|injection H as <- <-; discriminate].
  destruct (recordTransaction _ _ _ _ _ _ _ _ _) as [[row|e3] s3] eqn:E3;
    [|injection H as <- <-; discriminate].
  injection H as <- <-.
  exists sig, mint, a, o, r1, s1, u, s2, row. repeat split; assumption || reflexivity.
Qed.

(** X13. An accepted shield notification has credited the owner: the
    table holds for the owner the double sum of the balance and the
    amount as the column keeps it, or the amount itself when there was no
    record. It has added the amount to the shielded total of the token's
    pool when there is one and created no pool when there is none, and has
    appended one shield row carrying the notified signature, the owner,
    the amount and no recipient. *)
Theorem accepted_shield_effects c req s :
  accepted (fst (post_shield_notify c req s)) = true ->
  let s' := snd (post_shield_notify c req s) in
  exists sig mint a o v t,
    present_string (txSignature req) = Some sig
    /\ present_string (tokenMint req) = Some mint
    /\ present_number (amount req) = Some a
    /\ present_string (owner req) = Some o
    /\ credited (recorded_balance o mint s) a = Some v
    /\ recorded_balance o mint s' = Some v
    /\ recorded_pool mint s'
       = option_map (fun p => mkTokenPool (tp_id p) (tp_tokenMint p) (tp_decimals p)
                                (tp_poolAddress p) (tp_totalShielded p + a)
                                (tp_totalUnshielded p))
           (recorded_pool mint s)
    /\ transactions s' = (transactions s ++ [t])%list
    /\ tx_signature t = sig /\ tx_type t = shield /\ tx_owner t = o
    /\ tx_tokenMint t = mint /\ tx_amount t = a /\ tx_recipient t = None.
Proof.
  intros Hacc s'. subst s'.
  destruct (post_shield_notify c req s) as [res s'] eqn:E. simpl in *.
  destruct (post_shield_accepted _ _ _ _ _ E Hacc)
    as (sig & mint & a & o & r1 & s1 & u & s2 & row
        & F1 & F2 & F3 & F5 & _ & E1 & E0 & E3).
  exists sig, mint, a, o, (pb_balance r1), row. repeat (split; [assumption|]).
  apply recordTransaction_row in E3. destruct E3 as (-> & T3 & P3 & B3).
  pose proof (updatePrivateBalance_ok _ _ _ _ _ _ _ E1) as [B1 D1].
  pose proof (updatePrivateBalance_frame _ _ _ _ _ _ _ E1) as (_ & P1 & T1).
  destruct (shielded_after _ _ _ _ _ E0) as (P0 & B0 & T0).
  rewrite !recorded_balance_eq, !recorded_pool_eq.
  split; [exact D1|]. split; [|split; [|split]].
  - now rewrite (stored_balance_ext _ _ _ _ B3), (stored_balance_ext _ _ _ _ B0).
  - rewrite (stored_pool_ext _ _ _ P3), P0.
    now rewrite (stored_pool_ext _ _ _ P1).
  - rewrite T3. simpl. now rewrite T0, T1.
  - repeat split.
Qed.

Lemma accepted_shield_effects_witness :
  let s' := snd (post_shield_notify sample_collaborators shield_alice_40 two_owners) in
  exists sig mint a o v t,
    present_string (txSignature shield_alice_40) = Some sig
    /\ present_string (tokenMint shield_alice_40) = Some mint
    /\ present_number (amount shield_alice_40) = Some a
    /\ present_string (owner shield_alice_40) = Some o
    /\ credited (recorded_balance o mint two_owners) a = Some v
    /\ recorded_balance o mint s' = Some v
    /\ recorded_pool mint s'
       = option_map (fun p => mkTokenPool (tp_id p) (tp_tokenMint p) (tp_decimals p)
                                (tp_poolAddress p) (tp_totalShielded p + a)
                                (tp_totalUnshielded p))
           (recorded_pool mint two_owners)
    /\ transactions s' = (transactions two_owners ++ [t])%list
    /\ tx_signature t = sig /\ tx_type t = shield /\ tx_owner t = o
    /\ tx_tokenMint t = mint /\ tx_amount t = a /\ tx_recipient t = None.
Proof.
  apply (accepted_shield_effects sample_collaborators shield_alice_40 two_owners).
  vm_compute. reflexivity.
Defined.

(** X14. A shield notification whose signature is already in the log is
    not stopped before the ledger: when the deposit is found on chain and
    the credit and the update of the pool total resolve, the request is
    answered 500 and the log is left as it was, yet the owner has been
    credited again (the table holds the balance the credit returned) and
    the pool's shielded total raised again. *)
Theorem replayed_shield_credits_again c req sig mint a cm o r1 s1 u s2 s :
  present_string (txSignature req) = Some sig ->
  present_string (tokenMint req) = Some mint ->
  present_number (amount req) = Some a ->
  present_string (commitment req) = Some cm ->
  present_string (owner req) = Some o ->
  chain_getTransaction c sig = Ok true ->
  In sig (signatures s) ->
  updatePrivateBalance o mint a true s = (Ok r1, s1) ->
  updateTokenPoolShielded mint a s1 = (Ok u, s2) ->
  let s' := snd (post_shield_notify c req s) in
  fst (post_shield_notify c req s) = mkResponse 500 (error_json "Internal server error")
  /\ transactions s' = transactions s
  /\ credited (recorded_balance o mint s) a = Some (pb_balance r1)
  /\ recorded_balance o mint s' = Some (pb_balance r1)
  /\ recorded_pool mint s'
     = option_map (fun p => mkTokenPool (tp_id p) (tp_tokenMint p) (tp_decimals p)
                              (tp_poolAddress p) (tp_totalShielded p + a)
                              (tp_totalUnshielded p))
         (recorded_pool mint s).
Proof.
  intros F1 F2 F3 F4 F5 Hchain Hin E1 E0 s'. subst s'.
  rewrite (post_shield_notify_run _ _ _ _ _ _ _ _ F1 F2 F3 F4 F5), Hchain, E1, E0.
  pose proof (updatePrivateBalance_ok _ _ _ _ _ _ _ E1) as [B1 D1].
  pose proof (updatePrivateBalance_frame _ _ _ _ _ _ _ E1) as (_ & P1 & T1).
  destruct (shielded_after _ _ _ _ _ E0) as (P0 & B0 & T0).
  assert (Hin2 : In sig (signatures s2))
    by (unfold signatures in *; now rewrite T0, T1).
  rewrite (recordTransaction_duplicate _ _ _ _ _ _ _ _ _ Hin2). cbn [fst snd].
  rewrite !recorded_balance_eq, !recorded_pool_eq.
  split; [reflexivity|]. split; [simpl; congruence|]. split; [exact D1|]. split.
  - rewrite <- B1. apply stored_balance_ext. simpl. exact B0.
  - rewrite <- (stored_pool_ext mint s s1 P1), <- P0. now apply stored_pool_ext.
Qed.

Lemma replayed_shield_credits_again_witness :
  let s' := snd (post_shield_notify sample_collaborators shield_alice_40 alice_shielded) in
  fst (post_shield_notify sample_collaborators shield_alice_40 alice_shielded)
  = mkResponse 500 (error_json "Internal server error")
  /\ transactions s' = transactions alice_shielded
  /\ credited (recorded_balance "alice" "SOL" alice_shielded) 40
     = Some (pb_balance (mkPrivateBalance 1 "alice" "SOL" 140 0))
  /\ recorded_balance "alice" "SOL" s'
     = Some (pb_balance (mkPrivateBalance 1 "alice" "SOL" 140 0))
  /\ recorded_pool "SOL" s'
     = option_map (fun p => mkTokenPool (tp_id p) (tp_tokenMint p) (tp_decimals p)
                              (tp_poolAddress p) (tp_totalShielded p + 40)
                              (tp_totalUnshielded p))
         (recorded_pool "SOL" alice_shielded).
Proof.
  apply (replayed_shield_credits_again sample_collaborators shield_alice_40
           "sig-1" "SOL" 40 "commitment" "alice"
           (mkPrivateBalance 1 "alice" "SOL" 140 0)
           (snd (updatePrivateBalance "alice" "SOL" 40 true alice_shielded))
           tt
           (snd (updateTokenPoolShielded "SOL" 40
                   (snd (updatePrivateBalance "alice" "SOL" 40 true alice_shielded))))
           alice_shielded).
  - reflexivity.
  - reflexivity.
  - reflexivity.
  - reflexivity.
  - reflexivity.
  - reflexivity.
  - simpl. now left.
  - vm_compute. reflexivity.
  - vm_compute. reflexivity.
Defined.

End ShieldUnshield.

Section Unshield.
Import DbService.
Import Relayer.

Lemma post_unshield_steps c req s res s' :
  post_unshield c req s = (res, s') ->
  accepted res = true ->
  exists mint a rc sd r1 s1 u s2 pool s3 row,
    present_string (tokenMint req) = Some mint
    /\ present_number (amount req) = Some a
    /\ present_string (recipient req) = Some rc
    /\ present_string (sender req) = Some sd
    /\ updatePrivateBalance sd mint a false s = (Ok r1, s1)
    /\ updateTokenPoolUnshielded mint a s1 = (Ok u, s2)
    /\ getOrCreateTokenPool c mint 0 s2 = (Ok pool, s3)
    /\ recordTransaction (now_record c) sd unshield mint (symbol_at mint s3) a
         (unshield_signature (now_signature c)) None s3 = (Ok row, s').
Proof.
  intros H Hacc.
  destruct (present_string (tokenMint req)) as [mint|] eqn:F1;
  [destruct (present_number (amount req)) as [a|] eqn:F2;
   [destruct (present_string (recipient req)) as [rc|] eqn:F3;
    [destruct (present_string (proof req)) as [pf|] eqn:F4;
     [destruct (present_string (sender req)) as [sd|] eqn:F5|]|]|]|];
  try (unfold post_unshield, handler in H; rewrite ?F1, ?F2, ?F3, ?F4, ?F5 in H;
       injection H as <- <-; discriminate).
  rewrite (post_unshield_run _ _ _ _ _ _ _ _ F1 F2 F3 F4 F5) in H.
  destruct (updatePrivateBalance sd mint a false s) as [[r1|e1] s1] eqn:E1;
    [|injection H as <- <-; discriminate].
  destruct (updateTokenPoolUnshielded mint a s1) as [[u|e0] s2] eqn:E0;
    [|injection H as <- <-; discriminate].
  destruct (getOrCreateTokenPool c mint 0 _) as [[pool|e2] s3] eqn:E2;
    [|injection H as <- <-; discriminate].
  destruct (if negb (String.eqb mint "SOL")
            then resolve_token_accounts c mint (tp_poolAddress pool) rc
            else Ok tt) as [[]|e3]; [|injection H as <- <-; discriminate].
  destruct (recordTransaction _ _ _ _ _ _ _ _ s3) as [[row|e4] s4] eqn:E4;
    [|injection H as <- <-; discriminate].
  injection H as <- <-.
  exists mint, a, rc, sd, r1, s1, u, s2, pool, s3, row.
  repeat split; assumption || reflexivity.
Qed.

(** The pool [/unshield] works with after raising the unshielded total. *)
Lemma pool_after_unshield_total c m a u p3 s1 s2 s3 :
  updateTokenPoolUnshielded m a s1 = (Ok u, s2) ->
  getOrCreateTokenPool c m 0 s2 = (Ok p3, s3) ->
  stored_pool m s3 = Some p3
  /\ private_balances s3 = private_balances s1
  /\ transactions s3 = transactions s1
  /\ match stored_pool m s1 with
     | Some p =>
         tp_totalUnshielded p3 = tp_totalUnshielded p + a
         /\ tp_totalShielded p3 = tp_totalShielded p
     | None =>
         tp_totalUnshielded p3 = 0 /\ tp_totalShielded p3 = 0 /\ tp_decimals p3 = 0
     end.
Proof.
  intros E0 E.
  destruct (unshielded_after _ _ _ _ _ E0) as (U & B2 & T2).
  pose proof (getOrCreateTokenPool_resolved _ _ _ _ _ _ E) as R.
  pose proof (getOrCreateTokenPool_tables c m 0 s2) as [B T].
  rewrite E in B, T. simpl in B, T.
  split; [exact R|]. split; [congruence|]. split; [congruence|].
  destruct (stored_pool m s1) as [p|]; simpl in U.
  - rewrite (getOrCreateTokenPool_existing _ _ _ _ _ U) in E.
    injection E as <- <-. simpl. auto.
  - pose proof U as U'. rewrite stored_pool_eq in U'.
    unfold getOrCreateTokenPool, bind, await in E. rewrite getTokenPool_eq, U' in E.
    destruct (findProgramAddress c m) as [addr|e]; [|discriminate].
    rewrite (createTokenPool_new _ _ _ _ U) in E. injection E as <- <-. simpl. auto.
Qed.

(** X15. An accepted unshield has debited the sender: the table holds for
    the sender the double difference of the balance and the amount as the
    column keeps it. It has appended one unshield row that carries the
    simulated signature and no recipient. Afterwards the token has a pool:
    if it had one, its unshielded total has grown by the amount; if it had
    none, the pool was created after the total was raised, so it holds
    decimals 0 and both totals 0 and the amount is counted nowhere. *)
Theorem accepted_unshield_effects c req s :
  accepted (fst (post_unshield c req s)) = true ->
  let s' := snd (post_unshield c req s) in
  exists mint a sd b v p' t,
    present_string (tokenMint req) = Some mint
    /\ present_number (amount req) = Some a
    /\ present_string (sender req) = Some sd
    /\ recorded_balance sd mint s = Some b
    /\ debited b a = Some v
    /\ recorded_balance sd mint s' = Some v
    /\ recorded_pool mint s' = Some p'
    /\ match recorded_pool mint s with
       | Some p =>
           tp_totalUnshielded p' = tp_totalUnshielded p + a
           /\ tp_totalShielded p' = tp_totalShielded p
       | None =>
           tp_totalUnshielded p' = 0 /\ tp_totalShielded p' = 0 /\ tp_decimals p' = 0
       end
    /\ transactions s' = (transactions s ++ [t])%list
    /\ tx_type t = unshield /\ tx_owner t = sd /\ tx_tokenMint t = mint
    /\ tx_amount t = a /\ tx_recipient t = None
    /\ tx_signature t = unshield_signature (now_signature c).
Proof.
  intros Hacc s'. subst s'.
  destruct (post_unshield c req s) as [res s'] eqn:E. simpl in *.
  destruct (post_unshield_steps _ _ _ _ _ E Hacc)
    as (mint & a & rc & sd & r1 & s1 & u & s2 & pool & s3 & row
        & F1 & F2 & _ & F5 & E1 & E0 & E2 & E4).
  destruct (stored_balance sd mint s) as [b|] eqn:Hb;
    [|rewrite (debit_unknown _ _ _ _ Hb) in E1; discriminate].
  exists mint, a, sd, b, (pb_balance r1), pool, row. repeat (split; [assumption|]).
  apply recordTransaction_row in E4. destruct E4 as (-> & T4 & P4 & B4).
  pose proof (updatePrivateBalance_ok _ _ _ _ _ _ _ E1) as [B1 D1].
  pose proof (updatePrivateBalance_frame _ _ _ _ _ _ _ E1) as (_ & P1 & T1).
  destruct (pool_after_unshield_total _ _ _ _ _ _ _ _ E0 E2) as (R3 & B3 & T3 & Htot).
  rewrite (stored_pool_ext _ _ _ P1) in Htot. rewrite Hb in D1.
  rewrite !recorded_balance_eq, !recorded_pool_eq.
  split; [exact Hb|]. split; [exact D1|].
  split; [|split; [|split; [|split]]].
  - now rewrite (stored_balance_ext _ _ _ _ B4), (stored_balance_ext _ _ _ _ B3).
  - now rewrite (stored_pool_ext _ _ _ P4).
  - exact Htot.
  - rewrite T4. simpl. now rewrite T3, T1.
  - repeat split.
Qed.

Lemma accepted_unshield_effects_witness :
  let s' := snd (post_unshield sample_collaborators unshield_alice_30 alice_100) in
  exists mint a sd b v p' t,
    present_string (tokenMint unshield_alice_30) = Some mint
    /\ present_number (amount unshield_alice_30) = Some a
    /\ present_string (sender unshield_alice_30) = Some sd
    /\ recorded_balance sd mint alice_100 = Some b
    /\ debited b a = Some v
    /\ recorded_balance sd mint s' = Some v
    /\ recorded_pool mint s' = Some p'
    /\ match recorded_pool mint alice_100 with
       | Some p =>
           tp_totalUnshielded p' = tp_totalUnshielded p + a
           /\ tp_totalShielded p' = tp_totalShielded p
       | None =>
           tp_totalUnshielded p' = 0 /\ tp_totalShielded p' = 0 /\ tp_decimals p' = 0
       end
    /\ transactions s' = (transactions alice_100 ++ [t])%list
    /\ tx_type t = unshield /\ tx_owner t = sd /\ tx_tokenMint t = mint
    /\ tx_amount t = a /\ tx_recipient t = None
    /\ tx_signature t = unshield_signature (now_signature sample_collaborators).
Proof.
  apply (accepted_unshield_effects sample_collaborators unshield_alice_30 alice_100).
  vm_compute. reflexivity.
Defined.

(** X16. When the token has no pool and the pool-address derivation
    throws, [/unshield] answers 500 with the error's message and writes no
    log row and no pool, but the debit made before stays: the table holds
    for the sender the debited balance. *)
Theorem unshield_failure_keeps_debit c req mint a rc pf sd b v e s :
  present_string (tokenMint req) = Some mint ->
  present_number (amount req) = Some a ->
  present_string (recipient req) = Some rc ->
  present_string (proof req) = Some pf ->
  present_string (sender req) = Some sd ->
  recorded_balance sd mint s = Some b ->
  Numbers.negative (new_balance b a false) = false ->
  debited b a = Some v ->
  recorded_pool mint s = None ->
  findProgramAddress c mint = Err e ->
  let s' := snd (post_unshield c req s) in
  fst (post_unshield c req s) = error_message e
  /\ transactions s' = transactions s
  /\ recorded_pool mint s' = None
  /\ recorded_balance sd mint s' = Some v.
Proof.
  intros F1 F2 F3 F4 F5 Hb Hneg Hv Hpool Hfind s'. subst s'.
  rewrite recorded_balance_eq in Hb.
  rewrite (post_unshield_run _ _ _ _ _ _ _ _ F1 F2 F3 F4 F5).
  destruct (update_existing sd mint a false b v s Hb Hneg Hv) as (r1 & E1 & _).
  rewrite E1.
  pose proof (updatePrivateBalance_ok _ _ _ _ _ _ _ E1) as [B1 _].
  pose proof (updatePrivateBalance_frame _ _ _ _ _ _ _ E1) as (_ & P1 & T1).
  revert B1 P1 T1.
  generalize (mkDb (token_pools s)
                (map (Store.set_balance sd mint v) (private_balances s))
                (transactions s) (token_pools_id_seq s)
                (private_balances_id_seq s) (transactions_id_seq s)).
  intros s1 B1 P1 T1.
  assert (Hpool1 : recorded_pool mint s1 = None)
    by (unfold recorded_pool in *; now rewrite P1).
  rewrite (updateTokenPoolUnshielded_no_pool _ a _ Hpool1).
  assert (Eg : getOrCreateTokenPool c mint 0 s1 = (Err e, s1)).
  { pose proof Hpool1 as U'. rewrite recorded_pool_eq, stored_pool_eq in U'.
    unfold getOrCreateTokenPool, bind, await. rewrite getTokenPool_eq, U', Hfind.
    reflexivity. }
  rewrite Eg. cbn [fst snd].
  split; [reflexivity|]. split; [exact T1|]. split; [exact Hpool1|].
  rewrite recorded_balance_eq, B1.
  destruct (update_existing sd mint a false b v s Hb Hneg Hv) as (r1' & E1' & Hr & _).
  congruence.
Qed.

Lemma unshield_failure_keeps_debit_witness :
  let s' := snd (post_unshield failing_derivation unshield_alice_30 alice_100) in
  fst (post_unshield failing_derivation unshield_alice_30 alice_100)
  = error_message CollaboratorFailure
  /\ transactions s' = transactions alice_100
  /\ recorded_pool "SOL" s' = None
  /\ recorded_balance "alice" "SOL" s' = Some 70.
Proof.
  apply (unshield_failure_keeps_debit failing_derivation unshield_alice_30
           "SOL" 30 "carol" "proof" "alice" 100 70 CollaboratorFailure alice_100);
    try reflexivity; vm_compute; reflexivity.
Defined.

End Unshield.

(** ** Which rows a listing holds *)

Section ListingContents.
Import DbService.

Lemma insert_desc_perm t l : Permutation (Store.insert_desc t l) (t :: l).
Proof.
  induction l as [|x l IH]; simpl; [reflexivity|].
  destruct (tx_timestamp t <? tx_timestamp x); [|reflexivity].
  rewrite IH. apply perm_swap.
Qed.

Lemma order_by_timestamp_desc_perm l : Permutation (Store.order_by_timestamp_desc l) l.
Proof.
  induction l as [|x l IH]; simpl; [reflexivity|].
  rewrite insert_desc_perm. now constructor.
Qed.

Lemma getTransactions_eq owner tokenMint limit s :
  getTransactions owner tokenMint limit s
  = (Ok (if (limit_or_default limit <? 0) || (2 ^ 63 <=? limit_or_default limit) then []
         else firstn (Z.to_nat (limit_or_default limit))
                (Store.order_by_timestamp_desc
                   (filter (wanted owner tokenMint) (transactions s)))), s).
Proof.
  unfold getTransactions, limit_or_default, wanted, try_catch,
    Store.select_transactions, ret.
  destruct tokenMint as [mint|]; [destruct (truthy_string (Some mint))|];
    (destruct (_ <? 0); [reflexivity|]); destruct (_ <=? _); reflexivity.
Qed.

(** X17. When the limit is at least the number of rows of the log that
    carry the owner (and the mint, when a non-empty one is given), and
    is below 2^63, the bound of the [bigint] that LIMIT takes,
    [getTransactions] returns every one of them exactly once. *)
Theorem getTransactions_complete owner tokenMint limit s :
  Z.of_nat (List.length (filter (wanted owner tokenMint) (transactions s)))
  <= limit_or_default limit ->
  limit_or_default limit < 2 ^ 63 ->
  exists l,
    getTransactions owner tokenMint limit s = (Ok l, s)
    /\ Permutation l (filter (wanted owner tokenMint) (transactions s)).
Proof.
  intros Hlen Hbig. rewrite getTransactions_eq. eexists. split; [reflexivity|].
  destruct (Z.ltb_spec (limit_or_default limit) 0) as [Hneg|Hpos]; [lia|].
  destruct (Z.leb_spec (2 ^ 63) (limit_or_default limit)) as [Hge|_]; [lia|].
  cbn [orb].
  rewrite firstn_all2.
  - apply order_by_timestamp_desc_perm.
  - rewrite (Permutation_length (order_by_timestamp_desc_perm _)). lia.
Qed.

Lemma getTransactions_complete_witness :
  exists l,
    getTransactions "alice" (Some "SOL") None same_millisecond_log
    = (Ok l, same_millisecond_log)
    /\ Permutation l
         (filter (wanted "alice" (Some "SOL")) (transactions same_millisecond_log)).
Proof.
  apply (getTransactions_complete "alice" (Some "SOL") None same_millisecond_log).
  - vm_compute. discriminate.
  - vm_compute. reflexivity.
Defined.

Lemma sorted_split_order (l1 l2 : list Transaction) x y :
  descending (l1 ++ l2) -> In x l1 -> In y l2 -> tx_timestamp y <= tx_timestamp x.
Proof.
  unfold descending. intros Hs Hx Hy.
  apply Sorted_StronglySorted in Hs; [|intros a b c; lia].
  induction l1 as [|z l1 IH]; [contradiction|].
  simpl in Hs. inversion Hs as [|? ? Hrest Hall]; subst.
  destruct Hx as [->|Hx]; [|now apply IH].
  rewrite Forall_forall in Hall.
  specialize (Hall y (in_or_app _ _ _ (or_intror Hy))). lia.
Qed.

(** X18. A listing cut short by its limit keeps the most recent rows: a
    row of the log that answers the query but is not in the list is no
    more recent than any row in the list. *)
Theorem getTransactions_keeps_most_recent owner tokenMint limit s l t u :
  getTransactions owner tokenMint limit s = (Ok l, s) ->
  In t l ->
  In u (transactions s) ->
  wanted owner tokenMint u = true ->
  ~ In u l ->
  tx_timestamp u <= tx_timestamp t.
Proof.
  rewrite getTransactions_eq.
  destruct ((limit_or_default limit <? 0) || (2 ^ 63 <=? limit_or_default limit));
    intros [= <-] Ht Hu Hw Hout; [contradiction|].
  set (sorted := Store.order_by_timestamp_desc
                   (filter (wanted owner tokenMint) (transactions s))) in *.
  set (n := Z.to_nat (limit_or_default limit)) in *.
  assert (Hin : In u sorted).
  { apply order_by_timestamp_desc_In. apply filter_In. now split. }
  rewrite <- (firstn_skipn n sorted) in Hin. apply in_app_or in Hin.
  destruct Hin as [Hin|Hin]; [contradiction|].
  apply (sorted_split_order (firstn n sorted) (skipn n sorted)); auto.
  rewrite firstn_skipn. apply order_by_timestamp_desc_sorted.
Qed.

Lemma getTransactions_keeps_most_recent_witness :
  tx_timestamp (mkTransaction 2 "alice" shield "SOL" "SOL" 5 1700000000000 None "sig-2")
  <= tx_timestamp
       (mkTransaction 1 "alice" shield "SOL" "SOL" 100 1700000000000 None "sig-1").
Proof.
  apply (getTransactions_keeps_most_recent "alice" None (Some 1) same_millisecond_log
           [mkTransaction 1 "alice" shield "SOL" "SOL" 100 1700000000000 None "sig-1"]).
  - reflexivity.
  - now left.
  - simpl. right. now left.
  - reflexivity.
  - intros [H|[]]. discriminate H.
Defined.

End ListingContents.

(** ** Looking a transaction up by its signature *)

Section BySignature.
Import DbService.
Import Relayer.

Lemma getTransactionBySignature_eq sig s :
  getTransactionBySignature sig s
  = (Ok (hd_error (filter (Store.signed sig) (transactions s))), s).
Proof.
  unfold getTransactionBySignature, try_catch, bind, Store.select_by_signature. simpl.
  destruct (filter (Store.signed sig) (transactions s)); reflexivity.
Qed.

Lemma unsigned_filter sig l :
  ~ In sig (map tx_signature l) -> filter (Store.signed sig) l = [].
Proof.
  induction l as [|t l IH]; simpl; intros H; [reflexivity|].
  unfold Store.signed at 1.
  destruct (String.eqb_spec (tx_signature t) sig) as [E|E]; [tauto|].
  apply IH. tauto.
Qed.

(** X19. A transaction that [recordTransaction] has recorded is the one
    [getTransactionBySignature] returns for its signature; it carries the
    owner, type, mint, symbol, amount and recipient of the call and the
    clock reading as its timestamp. *)
Theorem recorded_transaction_is_found now o ty m sym a sig rc row s s' :
  recordTransaction now o ty m sym a sig rc s = (Ok row, s') ->
  getTransactionBySignature sig s' = (Ok (Some row), s')
  /\ tx_owner row = o /\ tx_type row = ty /\ tx_tokenMint row = m
  /\ tx_tokenSymbol row = sym /\ tx_amount row = a /\ tx_timestamp row = now
  /\ tx_recipient row = rc /\ tx_signature row = sig.
Proof.
  intros H. destruct (In_signatures_dec sig s) as [Hin|Hout].
  - rewrite (recordTransaction_duplicate _ _ _ _ _ _ _ _ _ Hin) in H. discriminate.
  - rewrite (recordTransaction_fresh _ _ _ _ _ _ _ _ _ Hout) in H.
    injection H as <- <-. split; [|repeat split].
    rewrite getTransactionBySignature_eq. simpl. rewrite filter_app.
    rewrite (unsigned_filter _ _ Hout). simpl.
    unfold Store.signed. simpl. now rewrite String.eqb_refl.
Qed.

Lemma recorded_transaction_is_found_witness :
  let row := mkTransaction 2 "bob" send "SOL" "SOL" 5 1700000000001 (Some "alice") "sig-2" in
  let s' := snd (recordTransaction 1700000000001 "bob" send "SOL" "SOL" 5 "sig-2"
                   (Some "alice") alice_shielded) in
  getTransactionBySignature "sig-2" s' = (Ok (Some row), s')
  /\ tx_owner row = "bob" /\ tx_type row = send /\ tx_tokenMint row = "SOL"
  /\ tx_tokenSymbol row = "SOL" /\ tx_amount row = 5 /\ tx_timestamp row = 1700000000001
  /\ tx_recipient row = Some "alice" /\ tx_signature row = "sig-2".
Proof.
  intros row s'.
  apply (recorded_transaction_is_found 1700000000001 "bob" send "SOL" "SOL" 5 "sig-2"
           (Some "alice") row alice_shielded s').
  reflexivity.
Defined.



Lemma decimal_injective n n' : decimal n = decimal n' -> n = n'.
Proof.
  unfold decimal. intros H.
  assert (Hnil : forall z, Z.to_int z <> Decimal.Pos Decimal.Nil
                           /\ Z.to_int z <> Decimal.Neg Decimal.Nil).
  { intros [|p|p]; simpl; split; try discriminate;
      intros [= E]; now apply (DecimalPos.Unsigned.to_uint_nonnil p). }
  apply DecimalZ.to_int_inj.
  pose proof (NilZero.isi (Z.to_int n) (proj1 (Hnil n)) (proj2 (Hnil n))) as H1.
  pose proof (NilZero.isi (Z.to_int n') (proj1 (Hnil n')) (proj2 (Hnil n'))) as H2.
  rewrite H in H1. congruence.
Qed.

(** X21. Simulated signatures collide only at equal clock readings: two
    send signatures, or two unshield signatures, are equal only if they
    were built from the same [Date.now()] value, and a send signature is
    never equal to an unshield signature. *)
Theorem simulated_signatures_distinct n n' :
  (send_signature n = send_signature n' -> n = n')
  /\ (unshield_signature n = unshield_signature n' -> n = n')
  /\ send_signature n <> unshield_signature n'.
Proof.
  unfold send_signature, unshield_signature. split; [|split].
  - intros H. simpl in H. injection H as H. now apply decimal_injective.
  - intros H. simpl in H. injection H as H. now apply decimal_injective.
  - simpl. discriminate.
Qed.

Lemma simulated_signatures_distinct_witness :
  1700000000000 = 1700000000000.
Proof.
  apply (proj1 (simulated_signatures_distinct 1700000000000 1700000000000)).
  reflexivity.
Defined.

End BySignature.

(** ** All the balances of an owner *)

Section AllBalances.
Import DbService.
Import Relayer.

Lemma filter_owner_keys o (l : list PrivateBalance) :
  NoDup (map (fun r => (pb_owner r, pb_tokenMint r)) l) ->
  NoDup (map pb_tokenMint (filter (fun r => String.eqb (pb_owner r) o) l)).
Proof.
  induction l as [|r l IH]; simpl; intros H; [constructor|].
  inversion H as [|? ? Hnotin Hrest]; subst.
  destruct (String.eqb_spec (pb_owner r) o) as [E|E]; [|now apply IH].
  simpl. constructor; [|now apply IH].
  intros Hin. apply in_map_iff in Hin. destruct Hin as (x & Hm & Hx).
  apply filter_In in Hx. destruct Hx as [Hx Ho]. apply String.eqb_eq in Ho.
  apply Hnotin. apply in_map_iff. exists x. split; [|exact Hx]. congruence.
Qed.

(** X22. [getAllPrivateBalances] resolves, without writing, to records
    that all belong to the owner and among which is every record of the
    table that belongs to the owner, so in particular the record
    [getPrivateBalance] returns for any of the owner's tokens; when the
    table holds one record per (owner, mint), the list holds one record per
    token. *)
Theorem getAllPrivateBalances_contents o s :
  exists l,
    getAllPrivateBalances o s = (Ok l, s)
    /\ Forall (fun r => pb_owner r = o) l
    /\ (forall r, In r (private_balances s) -> pb_owner r = o -> In r l)
    /\ (forall m r, getPrivateBalance o m s = (Ok (Some r), s) -> In r l)
    /\ (keys_unique s -> NoDup (map pb_tokenMint l)).
Proof.
  eexists. split; [reflexivity|]. split; [|split; [|split]].
  - apply Forall_forall. intros r Hr. apply filter_In in Hr.
    now apply String.eqb_eq.
  - intros r Hr Ho. apply filter_In. split; [exact Hr|]. now apply String.eqb_eq.
  - intros m r H. rewrite getPrivateBalance_eq in H. injection H as H.
    destruct (filter (Store.balance_at o m) (private_balances s)) as [|x l] eqn:Hf;
      [discriminate|].
    injection H as ->.
    assert (Hin : In r (filter (Store.balance_at o m) (private_balances s)))
      by (rewrite Hf; now left).
    apply filter_In in Hin. destruct Hin as [Hin Hat].
    apply filter_In. split; [exact Hin|].
    unfold Store.balance_at in Hat. now apply andb_true_iff in Hat.
  - intros [_ Hk]. now apply filter_owner_keys.
Qed.

Lemma getAllPrivateBalances_contents_witness :
  NoDup (map pb_tokenMint
           (filter (fun r => String.eqb (pb_owner r) "alice") (private_balances two_owners))).
Proof.
  destruct (getAllPrivateBalances_contents "alice" two_owners) as (l & E & _ & _ & _ & H).
  injection E as <-. apply H.
  split; simpl; repeat (constructor; [simpl; intuition discriminate|]); constructor.
Defined.

(** X23. [POST /transactions] never answers 500: without an owner it
    answers 400, and with one it answers 200 with exactly the list
    [getTransactions] gives for the owner, the mint of the body and the
    limit of the body, where a missing limit and a limit of 0 both stand
    for 50. The database is left as it was. *)
Theorem post_transactions_answers req s :
  match present_string (owner req) with
  | None => post_transactions req s = (bad_request "Owner is required", s)
  | Some o =>
      exists l,
        post_transactions req s = (mkResponse 200 (transactions_json l), s)
        /\ getTransactions o (tokenMint req)
             (Some (match limit req with
                    | Some n => if n =? 0 then 50 else n
                    | None => 50
                    end)) s = (Ok l, s)
  end.
Proof.
  unfold post_transactions, handler.
  destruct (present_string (owner req)) as [o|]; [|reflexivity].
  unfold bind.
  assert (Hl : (if truthy_number (limit req) then limit req else Some 50)
               = Some (match limit req with
                       | Some n => if n =? 0 then 50 else n
                       | None => 50
                       end)).
  { unfold truthy_number. destruct (limit req) as [n|]; [|reflexivity].
    destruct (n =? 0); reflexivity. }
  rewrite Hl. rewrite getTransactions_eq. eexists. split; reflexivity.
Qed.

Example transactions_with_limit_zero :
  fst (post_transactions
         (mkBody None None None None (Some "alice") None None None None (Some 0))
         same_millisecond_log)
  = mkResponse 200
      (transactions_json
         [mkTransaction 1 "alice" shield "SOL" "SOL" 100 1700000000000 None "sig-1";
          mkTransaction 2 "alice" shield "SOL" "SOL" 5 1700000000000 None "sig-2"]).
Proof. reflexivity. Qed.

(** X24. A request that lacks a required field, or carries it empty, is
    answered 400 before any call is made: [/shield/notify], [/send] and
    [/unshield] when any one of their five fields is missing,
    [/pool/create] without a mint or without decimals, [/pool/exists]
    without a mint and [/balances] without an owner. The database is left
    as it was. *)
Theorem incomplete_requests_are_refused c req s :
  (present_string (txSignature req) = None \/ present_string (tokenMint req) = None
   \/ present_number (amount req) = None \/ present_string (commitment req) = None
   \/ present_string (owner req) = None ->
   post_shield_notify c req s = (bad_request "Missing required parameters", s))
  /\ (present_string (tokenMint req) = None \/ present_number (amount req) = None
      \/ present_string (recipient req) = None \/ present_string (proof req) = None
      \/ present_string (sender req) = None ->
      post_send c req s = (bad_request "Missing required parameters", s)
      /\ post_unshield c req s = (bad_request "Missing required parameters", s))
  /\ (present_string (tokenMint req) = None \/ decimals req = None ->
      post_pool_create c req s = (bad_request "Token mint and decimals are required", s))
  /\ (present_string (tokenMint req) = None ->
      post_pool_exists req s = (bad_request "Token mint is required", s))
  /\ (present_string (owner req) = None ->
      post_balances req s = (bad_request "Owner is required", s)).
Proof.
  split; [|split; [|split; [|split]]].
  - unfold post_shield_notify, handler. intros H.
    destruct (present_string (txSignature req)), (present_string (tokenMint req)),
      (present_number (amount req)), (present_string (commitment req)),
      (present_string (owner req)); try reflexivity.
    destruct H as [H|[H|[H|[H|H]]]]; discriminate.
  - unfold post_send, post_unshield, handler. intros H.
    destruct (present_string (tokenMint req)), (present_number (amount req)),
      (present_string (recipient req)), (present_string (proof req)),
      (present_string (sender req)); try (split; reflexivity).
    destruct H as [H|[H|[H|[H|H]]]]; discriminate.
  - unfold post_pool_create, handler. intros H.
    destruct (present_string (tokenMint req)), (decimals req); try reflexivity.
    destruct H; discriminate.
  - unfold post_pool_exists, handler. now intros ->.
  - unfold post_balances, handler. now intros ->.
Qed.

Lemma incomplete_requests_are_refused_witness :
  let req := mkBody None (Some "SOL") (Some 30) None None (Some "") (Some "proof")
               (Some "alice") None None in
  post_send sample_collaborators req two_owners
  = (bad_request "Missing required parameters", two_owners)
  /\ post_unshield sample_collaborators req two_owners
     = (bad_request "Missing required parameters", two_owners).
Proof.
  intros req.
  apply (proj1 (proj2 (incomplete_requests_are_refused sample_collaborators req two_owners))).
  right. right. left. reflexivity.
Defined.

End AllBalances.

(** ** Two credits at once *)

Section ConcurrentCredits.
Import DbService.
Import Interleaving.

(** X25. Two credits to a key that has no record, each of an amount that
    fits the column and each reading before either writes: both find no
    record and both send an INSERT. The first creates the record; the
    second is rejected by [UNIQUE(owner, token_mint)], so that call fails
    and its amount is credited nowhere. *)
Theorem concurrent_first_credits o m a1 a2 s :
  recorded_balance o m s = None ->
  Numbers.in_range a1 = true ->
  Numbers.in_range a2 = true ->
  let (tasks, s') := run [0; 1; 0; 1]%nat [Called o m a1 true; Called o m a2 true] s in
  tasks = [Settled (Ok (mkPrivateBalance (private_balances_id_seq s) o m a1 0));
           Settled (Err (UniqueViolation private_balances_owner_token_mint_key))]
  /\ recorded_balance o m s' = Some a1.
Proof.
  rewrite recorded_balance_eq.
  intros Hb R1 R2. pose proof Hb as Hex. apply stored_balance_none_iff in Hex.
  pose proof Hb as Hhd. rewrite stored_balance_eq in Hhd.
  destruct (hd_error (filter (Store.balance_at o m) (private_balances s))) eqn:E;
    [discriminate|].
  cbn [run step_at]. rewrite !step_called, E.
  unfold step, updatePrivateBalance_write, bind, Store.insert_balance.
  rewrite R1, Hex. cbn [negb first_row ret private_balances private_balances_id_seq].
  rewrite R2. cbn [negb].
  assert (Hnow : existsb (Store.balance_at o m)
                   (private_balances s ++ [mkPrivateBalance (private_balances_id_seq s) o m a1 0])
                 = true).
  { rewrite existsb_app. apply orb_true_iff. right. simpl.
    unfold Store.balance_at. simpl. now rewrite !String.eqb_refl. }
  rewrite Hnow. split; [reflexivity|].
  rewrite recorded_balance_eq.
  exact (stored_balance_insert_same o m a1 _ s _ _ _ _ _ Hb).
Qed.

Lemma concurrent_first_credits_witness :
  let (tasks, s') :=
    run [0; 1; 0; 1]%nat [Called "carol" "SOL" 5 true; Called "carol" "SOL" 7 true]
      two_owners in
  tasks = [Settled (Ok (mkPrivateBalance (private_balances_id_seq two_owners)
                          "carol" "SOL" 5 0));
           Settled (Err (UniqueViolation private_balances_owner_token_mint_key))]
  /\ recorded_balance "carol" "SOL" s' = Some 5.
Proof.
  apply (concurrent_first_credits "carol" "SOL" 5 7 two_owners); reflexivity.
Defined.

(** X26. Two credits to an existing record, each reading before either
    writes: both resolve, but each writes the balance it computed from
    the balance it read and its own amount, so the balance ends at what
    the call that wrote last computed; the other amount is lost. *)
Theorem concurrent_credits_lose_one o m a1 a2 b v1 v2 s :
  recorded_balance o m s = Some b ->
  Numbers.negative (new_balance b a1 true) = false ->
  credited (Some b) a1 = Some v1 ->
  Numbers.negative (new_balance b a2 true) = false ->
  credited (Some b) a2 = Some v2 ->
  let (tasks, s') := run [0; 1; 0; 1]%nat [Called o m a1 true; Called o m a2 true] s in
  forallb succeeded tasks = true /\ recorded_balance o m s' = Some v2.
Proof.
  rewrite recorded_balance_eq.
  intros Hb N1 U1 N2 U2. pose proof Hb as Hrow. rewrite stored_balance_eq in Hrow.
  destruct (hd_error (filter (Store.balance_at o m) (private_balances s)))
    as [row|] eqn:Hhd; [|discriminate].
  simpl in Hrow. injection Hrow as <-.
  cbn [run step_at]. rewrite !step_called, Hhd.
  rewrite (step_fetched_existing o m a1 true row v1 row s N1 U1 Hhd).
  rewrite (step_fetched_existing o m a2 true row v2
             (Store.set_balance o m v1 row) _ N2 U2).
  - split; [reflexivity|]. rewrite recorded_balance_eq.
    erewrite stored_balance_set_same; [reflexivity|].
    exact (stored_balance_set_same _ _ v1 _ _ (token_pools s)
             (transactions s) (token_pools_id_seq s) (private_balances_id_seq s)
             (transactions_id_seq s) Hb).
  - cbn [private_balances]. now apply hd_filter_set_balance.
Qed.

Lemma concurrent_credits_lose_one_witness :
  let (tasks, s') :=
    run [0; 1; 0; 1]%nat [Called "alice" "SOL" 5 true; Called "alice" "SOL" 7 true]
      two_owners in
  forallb succeeded tasks = true /\ recorded_balance "alice" "SOL" s' = Some 107.
Proof.
  apply (concurrent_credits_lose_one "alice" "SOL" 5 7 100 105 107 two_owners);
    vm_compute; reflexivity.
Defined.

End ConcurrentCredits.
